(** * reposcan: the pulse metrics engine

    A shallow embedding of [cmd/reposcan/reposcan.go] and the properties of
    its pulse windows, contributor intervals, pull-request classifier and
    metric aggregation.

    Conventions of the embedding.
    - Go [int] and [time.Duration] values are [Z].  The 64-bit wrap-around
      is written out ([wrap64]) where the source computes on values that are
      not small by construction, the line counts and the cooldown; week
      numbers, years and the contributor count stay far from the bounds.
    - A [time.Time] is the number of nanoseconds since 0001-01-01T00:00:00Z
      (Go's zero time), as a [Z].  Every time the program handles is in UTC
      (GitHub timestamps, [time.Parse] of a date, [time.Now().UTC()]).
    - A [float32] is the rational number it denotes ([Q]).  The sums the
      aggregation accumulates, counts and size weights, and the conversions
      of line counts and contributor counts are sums and conversions of
      integers, exact in float32 below 2^24, and are modelled exactly.  A
      division rounds its quotient to the nearest float32 ([fdiv]): 24
      significant bits, ties to the even mantissa, as IEEE 754 has it.  The
      exponent range of float32 is left out: no quotient of the program
      comes near its ends.
    - [map[string]User] is a [gmap string User.t].
    - A run-time panic is the [Panic] result.  The [for] loop of [getPulses]
      runs on a bound of iterations that [getPulses] computes from its
      arguments; [OutOfFuel] is the result of reaching it, which is shown
      never to happen.
    - [time.Now()] is one instant [now] for the whole run.

    The definitions come first: the program, then the vocabulary of the
    statements; the lemmas and the properties follow. *)

From Stdlib Require Import ZArith QArith Qabs Lqa List Ascii String Lia Bool.
From Stdlib Require Floats.SpecFloat.
From stdpp Require Import base gmap strings list fin_maps.

Open Scope Z_scope.

(** ** Machine integers *)

Definition wrap64 (z : Z) : Z := (z + 2 ^ 63) mod 2 ^ 64 - 2 ^ 63.

Definition minInt64 : Z := - 2 ^ 63.
Definition maxInt64 : Z := 2 ^ 63 - 1.

(** ** The parts of Go's [time] package and of [snabb/isoweek] the program uses *)

Module GoTime.

Definition Time := Z.
Definition Duration := Z.

Definition Nanosecond : Duration := 1.
Definition Second : Duration := 1000000000.
Definition Hour : Duration := 3600 * Second.
Definition nsPerDay : Z := 86400 * Second.

Definition Before (t u : Time) : bool := t <? u.
Definition After (t u : Time) : bool := t >? u.

(** [t.Sub(u)]: the difference, saturated to the range of a [Duration]. *)
Definition Sub (t u : Time) : Duration :=
  let d := t - u in
  if d <? minInt64 then minInt64 else if d >? maxInt64 then maxInt64 else d.

Definition daysPer400Years : Z := 146097.
Definition daysPer100Years : Z := 36524.
Definition daysPer4Years : Z := 1461.

Definition isLeap (year : Z) : bool :=
  (year mod 4 =? 0) && (negb (year mod 100 =? 0) || (year mod 400 =? 0)).

(** Days from 0001-01-01 to January 1 of [year]. *)
Definition daysSinceEpoch (year : Z) : Z :=
  let y := year - 1 in
  let n := y / 400 in
  let y := y - 400 * n in
  let d := daysPer400Years * n in
  let n := y / 100 in
  let y := y - 100 * n in
  let d := d + daysPer100Years * n in
  let n := y / 4 in
  let y := y - 4 * n in
  let d := d + daysPer4Years * n in
  d + 365 * y.

(** Days of a common year before the first of [month]. *)
Definition daysBefore (month : Z) : Z :=
  match month with
  | 1 => 0 | 2 => 31 | 3 => 59 | 4 => 90 | 5 => 120 | 6 => 151
  | 7 => 181 | 8 => 212 | 9 => 243 | 10 => 273 | 11 => 304 | 12 => 334
  | _ => 365
  end.

(** The day number of a calendar date (month in 1..12, day within the month;
    the program passes no other). *)
Definition dateDay (year month day : Z) : Z :=
  let d := daysSinceEpoch year + daysBefore month in
  let d := if isLeap year && (3 <=? month) then d + 1 else d in
  d + (day - 1).

(** [time.Date(year, month, day, 0, 0, 0, 0, time.UTC)]. *)
Definition Date (year month day : Z) : Time := dateDay year month day * nsPerDay.

(** The day number of an instant. *)
Definition absDay (t : Time) : Z := t / nsPerDay.

(** Weekday of a day number, Sunday = 0 ... Saturday = 6; day 0 is a Monday. *)
Definition absWeekday (d : Z) : Z := (d + 1) mod 7.

(** Year and zero-based day of the year of a day number. *)
Definition absDate (days : Z) : Z * Z :=
  let d := days in
  let n := d / daysPer400Years in
  let y := 400 * n in
  let d := d - daysPer400Years * n in
  let n := d / daysPer100Years in
  let n := n - Z.shiftr n 2 in
  let y := y + 100 * n in
  let d := d - daysPer100Years * n in
  let n := d / daysPer4Years in
  let y := y + 4 * n in
  let d := d - daysPer4Years * n in
  let n := d / 365 in
  let n := n - Z.shiftr n 2 in
  let y := y + n in
  let d := d - 365 * n in
  (y + 1, d).

(** ISO 8601 year and week of a day number: the year and week of the
    Thursday of its Monday-based week. *)
Definition isoWeekOfDay (days : Z) : Z * Z :=
  let d := 4 - absWeekday days in
  let d := if d =? 4 then -3 else d in
  let '(year, yday) := absDate (days + d) in
  (year, yday / 7 + 1).

(** [t.ISOWeek()]. *)
Definition ISOWeek (t : Time) : Z * Z := isoWeekOfDay (absDay t).

End GoTime.

Module Isoweek.
Import GoTime.

(** Day number of the Monday that starts ISO week [week] of ISO year [wyear]:
    week 1 is the week of January 4. *)
Definition startDay (wyear week : Z) : Z :=
  let jan4 := dateDay wyear 1 4 in
  jan4 - (jan4 mod 7) + 7 * (week - 1).

(** [isoweek.StartTime(wyear, week, time.UTC)]: Monday 00:00 of that week. *)
Definition StartTime (wyear week : Z) : Time := startDay wyear week * nsPerDay.

End Isoweek.

Import GoTime.

(** ** Results of code that can panic or loop *)

Inductive Result (A : Type) : Type :=
| Ok (a : A)
| Panic (msg : string)
| OutOfFuel.
Arguments Ok {A} a.
Arguments Panic {A} msg.
Arguments OutOfFuel {A}.

#[global] Instance Result_bind : MBind Result := fun A B k r =>
  match r with
  | Ok a => k a
  | Panic msg => Panic msg
  | OutOfFuel => OutOfFuel
  end.

(** Reading through a [*time.Time]: a nil pointer panics. *)
Definition deref (p : option Time) : Result Time :=
  match p with
  | Some t => Ok t
  | None => Panic "invalid memory address or nil pointer dereference"
  end.

(** ** Data model *)

(** [Config], with the nested [Settings] structs flattened:
    [Settings.Contributors.Cooldown], [Settings.Contributors.Allowlist],
    [Settings.PR.High], [Settings.PR.Low], [Settings.Graphs.Start], [Repos]. *)
Record Config := {
  Cooldown : Z;
  Allowlist : list string;
  High : Z;
  Low : Z;
  GraphsStart : option string;
  Repos : list string
}.

(** [PrEntry]; [Login] is [Author.Login]. *)
Record PrEntry := {
  Additions : Z;
  ClosedAt : option Time;
  CreatedAt : Time;
  MergedAt : option Time;
  Deletions : Z;
  State : string;
  Login : string
}.

Module User.
Record t := { Start : Time; End : Time }.
End User.

Record Pull := {
  Merged : bool;
  Closed : bool;
  Open : bool;
  Lines : Z
}.

Module Pulse.
Record t := {
  Start : Time;
  End : Time;
  Days : Z;
  Contributors : Z;
  PrOpen : Q;
  PrMerged : Q;
  PrOpenNorm : Q;
  PrMergedNorm : Q
}.
End Pulse.

(** ** Contributor activity *)

(** [time.Duration(cooldown) * time.Hour] with
    [cooldown := config.Settings.Contributors.Cooldown * 30 * 24]. *)
Definition cooldownDuration (config : Config) : Duration :=
  let cooldown := wrap64 (wrap64 (Cooldown config * 30) * 24) in
  wrap64 (cooldown * Hour).

(** One iteration of the loop of [getUsers].  [now] is the clock reading of
    the run: the source reads [time.Now()] at each use, the model takes the
    run to happen at one instant. *)
Definition getUsersStep (config : Config) (now : Time)
    (users : gmap string User.t) (r : PrEntry) : gmap string User.t :=
  if String.eqb (Login r) "" then users
  else
    let login := Login r in
    if String.prefix "renovate" login then users
    else
      let endTime :=
        match MergedAt r with
        | Some m => m
        | None => match ClosedAt r with
                  | Some c => c
                  | None => now
                  end
        end in
      let startTime := CreatedAt r in
      let '(startTime, endTime) :=
        match users !! login with
        | Some val =>
            let endTime := if After (User.End val) endTime then User.End val else endTime in
            let startTime := if Before (User.Start val) startTime then User.Start val else startTime in
            (startTime, endTime)
        | None => (startTime, endTime)
        end in
      let endTime := if Sub now endTime <? cooldownDuration config then now else endTime in
      <[login := {| User.Start := startTime; User.End := endTime |}]> users.

Definition getUsers (config : Config) (now : Time) (pulls : list PrEntry)
    : gmap string User.t :=
  fold_left (getUsersStep config now) pulls ∅.

Definition allowlistedUser (config : Config) (login : string) : bool :=
  if (Z.of_nat (List.length (Allowlist config)) =? 0) then true
  else existsb (fun u => String.eqb u login) (Allowlist config).

(** The body of the loop of [pulseContributors]. *)
Definition countContributor (config : Config) (start end_ : Time)
    (k : string) (v : User.t) (contributors : Z) : Z :=
  if negb (allowlistedUser config k) then contributors
  else if Before (User.Start v) end_ && negb (Before (User.End v) start)
       then contributors + 1
       else contributors.

Definition pulseContributors (config : Config) (users : gmap string User.t)
    (start end_ : Time) : Z :=
  map_fold (countContributor config start end_) 0 users.

(** ** Pull-request classification *)

(** One iteration of the loop of [pulsePulls]: [pull] is the slice built so far. *)
Definition pulsePullsStep (config : Config) (start end_ : Time)
    (pull : list Pull) (p : PrEntry) : Result (list Pull) :=
  if negb (allowlistedUser config (Login p)) then Ok pull
  else if (match ClosedAt p with
           | None => true
           | Some c => negb (Before c start)
           end) && Before (CreatedAt p) end_
  then
    if negb (String.eqb (State p) "OPEN") then
      c ← deref (ClosedAt p);
      if negb (Before c start) && Before c end_ then
        let merged := match MergedAt p with Some _ => true | None => false end in
        let lines := wrap64 (Additions p + Deletions p) in
        Ok (pull ++ [{| Merged := merged; Closed := negb merged; Open := false; Lines := lines |}])
      else Ok pull
    else
      let lines := wrap64 (Additions p + Deletions p) in
      Ok (pull ++ [{| Merged := false; Closed := false; Open := true; Lines := lines |}])
  else Ok pull.

Fixpoint pulsePullsLoop (config : Config) (start end_ : Time)
    (pulls : list PrEntry) (pull : list Pull) : Result (list Pull) :=
  match pulls with
  | [] => Ok pull
  | p :: rest =>
      pull' ← pulsePullsStep config start end_ pull p;
      pulsePullsLoop config start end_ rest pull'
  end.

Definition pulsePulls (config : Config) (pulls : list PrEntry) (start end_ : Time)
    : Result (list Pull) :=
  pulsePullsLoop config start end_ pulls [].

(** ** Aggregation *)

Definition float32 (n : Z) : Q := inject_Z n.

(** [a > b] on [float32]. *)
Definition fgt (a b : Q) : bool := negb (Qle_bool a b).

(** [n / d] rounded to the nearest integer, a tie going to the even one;
    [0 < d]. *)
Definition roundHalfEven (n d : Z) : Z :=
  let q := n / d in
  let r := n mod d in
  if 2 * r <? d then q
  else if d <? 2 * r then q + 1
  else if Z.even q then q else q + 1.

(** The exponent of the float32 nearest to [n / d], for [0 < n] and [0 < d]:
    the [e] with [2^23 <= (n / d) / 2^e < 2^24]. *)
Definition exponent32 (n d : Z) : Z :=
  let e := Z.log2 n - Z.log2 d - 23 in
  if n * 2 ^ Z.max 0 (- e) <? 2 ^ 23 * (d * 2 ^ Z.max 0 e) then e - 1 else e.

(** [m * 2^e]. *)
Definition ldexp (m e : Z) : Q :=
  (m * 2 ^ Z.max 0 e) # Z.to_pos (2 ^ Z.max 0 (- e)).

(** [n / d], for [0 < n] and [0 < d], rounded to a mantissa of 24 bits. *)
Definition round24 (n d : Z) : Q :=
  let e := exponent32 n d in
  ldexp (roundHalfEven (n * 2 ^ Z.max 0 (- e)) (d * 2 ^ Z.max 0 e)) e.

(** The float32 nearest to [q]. *)
Definition round32 (q : Q) : Q :=
  let '(Qmake n d) := Qred q in
  if n =? 0 then 0%Q
  else if 0 <? n then round24 n (Zpos d)
  else (- round24 (- n) (Zpos d))%Q.

(** [a / b] on [float32]. *)
Definition fdiv (a b : Q) : Q := round32 (a / b).

Definition prSizeWeight (config : Config) (lines : Q) : Q :=
  if fgt lines (float32 (High config)) then 3%Q
  else if fgt lines (float32 (Low config)) then 2%Q
  else 1%Q.

Definition getOpen (config : Config) (pulls : list Pull) : Q :=
  fold_left (fun (count : Q) p => if Open p then (count + 1)%Q else count) pulls 0%Q.

Definition getOpenNorm (config : Config) (pulls : list Pull) (con : Z) : Q :=
  let count :=
    fold_left (fun (count : Q) p =>
                 if Open p then (count + prSizeWeight config (float32 (Lines p)))%Q else count)
              pulls 0%Q in
  if con =? 0 then 0%Q else fdiv count (float32 con).

Definition getMerged (config : Config) (pulls : list Pull) : Q :=
  fold_left (fun (count : Q) p => if Merged p then (count + 1)%Q else count) pulls 0%Q.

Definition getMergedNorm (config : Config) (pulls : list Pull) (con : Z) : Q :=
  let count :=
    fold_left (fun (count : Q) p =>
                 if Merged p then (count + prSizeWeight config (float32 (Lines p)))%Q else count)
              pulls 0%Q in
  if con =? 0 then 0%Q else fdiv count (float32 con).

(** ** Pulse windows *)

Definition isoWeeks (year : Z) : Z :=
  (* Day 28 always on last ISO week of current year *)
  snd (ISOWeek (Date year 12 28)).

Definition isoWeekToPulseStart (week : Z) : Result Z :=
  let week := if Z.land week 1 =? 0 then week - 1 else week in
  if week <=? 0 then Panic "iso week start must be 1 or higher"
  else Ok week.

Definition nextPulseToIsoWeek (year week : Z) : Z * Z :=
  let week := week + 2 in
  (* The next into a new year must be on week 1 *)
  if week >? isoWeeks year then (year + 1, 1) else (year, week).

(** The [for] loop of [getPulses]; [pulses] is the slice built so far and
    [fuel] bounds the number of iterations. *)
Fixpoint getPulsesLoop (fuel : nat) (config : Config) (end_ : Time)
    (pulls : list PrEntry) (users : gmap string User.t)
    (yearStart weekStart : Z) (pulses : list Pulse.t) : Result (list Pulse.t) :=
  match fuel with
  | O => OutOfFuel
  | S fuel =>
      let s := Isoweek.StartTime yearStart weekStart in
      let '(yearEnd, weekEnd) := nextPulseToIsoWeek yearStart weekStart in
      let e := Isoweek.StartTime yearEnd weekEnd in
      let d := Z.quot (Z.quot (Sub e s) Hour) 24 in
      if After s end_ then Ok pulses
      else
        let people := pulseContributors config users s e in
        pulsePulls ← pulsePulls config pulls s e;
        getPulsesLoop fuel config end_ pulls users yearEnd weekEnd
          (pulses ++ [{| Pulse.Start := s;
                         Pulse.End := e;
                         Pulse.Days := d;
                         Pulse.Contributors := people;
                         Pulse.PrOpen := getOpen config pulsePulls;
                         Pulse.PrMerged := getMerged config pulsePulls;
                         Pulse.PrOpenNorm := getOpenNorm config pulsePulls people;
                         Pulse.PrMergedNorm := getMergedNorm config pulsePulls people |}])
  end.

(** Iterations that suffice for the loop: every window is at least a week
    long and the first one starts less than two weeks before [start]. *)
Definition pulsesFuel (start end_ : Time) : nat :=
  Z.to_nat ((end_ - start) / (7 * nsPerDay) + 4).

Definition getPulses (config : Config) (start end_ : Time)
    (pulls : list PrEntry) (users : gmap string User.t) : Result (list Pulse.t) :=
  if Before end_ start then Panic "end time cannot before start"
  else
    (* For now assume 2-week pulses start on the 1st ISO week of the year *)
    let '(yearStart, weekStart) := ISOWeek start in
    weekStart ← isoWeekToPulseStart weekStart;
    getPulsesLoop (pulsesFuel start end_) config end_ pulls users yearStart weekStart [].

(** ** The earlier revision of the program, where the claims refer to it *)

Module Old.

Definition pr_high : Z := 500.
Definition pr_low : Z := 50.

Definition prSizeWeight (lines : Q) : Q :=
  if fgt lines (float32 pr_high) then 3%Q
  else if fgt lines (float32 pr_low) then 2%Q
  else 1%Q.

(** With no merged pull the source divides 0 by 0; the NaN fails both
    comparisons of [prSizeWeight], which then returns 1, and so does the
    model, where 0 / 0 is 0.  The product of the count and the weight is a
    product of integers, exact like the sums. *)
Definition getMerged (pulls : list Pull) (norm : bool) (con : Z) : Q :=
  let '(merged, count) :=
    fold_left (fun '(merged, count) p =>
                 if Merged p then ((merged + float32 (Lines p))%Q, (count + 1)%Q)
                 else (merged, count))
              pulls (0%Q, 0%Q) in
  (* Average Lines *)
  let merged := fdiv merged count in
  if negb norm then count
  else if con =? 0 then 0%Q
  else fdiv (count * prSizeWeight merged) (float32 con).

Definition isoWeeks (year : Z) : Z :=
  snd (ISOWeek (Date year 12 31)).

End Old.

(** ** Repository keys and the shared start *)

Module Strings.

(** [strings.Split(s, sep)] for a separator of one byte, as [orgRepoSplit]
    calls it: the pieces of [s] between the occurrences of [sep]; a string
    without [sep] is its own single piece. *)
Fixpoint Split (s : string) (sep : Ascii.ascii) : list string :=
  match s with
  | EmptyString => [EmptyString]
  | String c rest =>
      if Ascii.eqb c sep then EmptyString :: Split rest sep
      else match Split rest sep with
           | piece :: pieces => String c piece :: pieces
           | [] => [String c EmptyString]
           end
  end.

End Strings.

(** [orgRepoSplit]: the results [(org, repo, err)], [err] being [None] for
    Go's [nil]. *)
Definition orgRepoSplit (key : string) : string * string * option string :=
  match Strings.Split key "/"%char with
  | [org; repo] => (org, repo, None)
  | _ => (EmptyString, EmptyString, Some "repo JSON key invalid"%string)
  end.

(** The start of the graphs as [main] computes it: [startGraphs] begins at
    now and takes every earlier repository creation time [start] that
    [repoPulls] returns, in the order of [config.Repos]; a configured start
    date, parsed by [time.Parse] (here [parse]), replaces it, and a date that
    does not parse ends the run with an error. *)
Definition startGraphs (parse : string -> option Time) (config : Config)
    (now : Time) (starts : list Time) : option Time :=
  let startGraphs :=
    fold_left (fun startGraphs start =>
                 if After startGraphs start then start else startGraphs)
              starts now in
  match GraphsStart config with
  | Some date => parse date
  | None => Some startGraphs
  end.

(** * Vocabulary of the statements *)

(** ** Checking a calendar period *)

(** [f] holds of the [n] integers from [z] on. *)
Fixpoint allFrom (f : Z -> bool) (z : Z) (n : nat) : bool :=
  match n with
  | O => true
  | S n => f z && allFrom f (z + 1) n
  end.

(** [isoWeeks] on day numbers. *)
Definition weeksOfYear (y : Z) : Z := snd (isoWeekOfDay (dateDay y 12 28)).

(** The Monday [7 * i] starts the week its ISO year and week name, and the
    week number is one of that year. *)
Definition weekOk (i : Z) : bool :=
  let '(y, w) := isoWeekOfDay (7 * i) in
  (1 <=? w) && (w <=? weeksOfYear y) && (Isoweek.startDay y w =? 7 * i).

(** A year has 52 or 53 weeks, the next year starts right after them,
    December 28 belongs to it, and each of its weeks starts on a day of that
    very week. *)
Definition yearOk (y : Z) : bool :=
  ((weeksOfYear y =? 52) || (weeksOfYear y =? 53))
  && (Isoweek.startDay (y + 1) 1 =? Isoweek.startDay y 1 + 7 * weeksOfYear y)
  && (fst (isoWeekOfDay (dateDay y 12 28)) =? y)
  && allFrom (fun w =>
                implb (w <=? weeksOfYear y)
                      (let '(y', w') := isoWeekOfDay (Isoweek.startDay y w) in
                       (y' =? y) && (w' =? w)))
             1 53.

(** ** Windows *)

(** The cursor of the loop of [getPulses] names an odd week of its year. *)
Definition pulseWeek (y w : Z) : Prop := 1 <= w <= isoWeeks y /\ Z.odd w = true.

(** No dereference of a nil [ClosedAt]: a pull that is not open has a close time. *)
Definition closedWhenTerminal (p : PrEntry) : bool :=
  String.eqb (State p) "OPEN" || (match ClosedAt p with Some _ => true | None => false end).

(** The windows the loop emits from the cursor [(y, w)] on, up to [end_]. *)
Inductive pulseChain (end_ : Time) : Z -> Z -> list Pulse.t -> Prop :=
| chain_stop y w :
    Isoweek.StartTime y w > end_ -> pulseChain end_ y w []
| chain_step y w p ws :
    Isoweek.StartTime y w <= end_ ->
    Pulse.Start p = Isoweek.StartTime y w ->
    Pulse.End p = Isoweek.StartTime (fst (nextPulseToIsoWeek y w)) (snd (nextPulseToIsoWeek y w)) ->
    pulseChain end_ (fst (nextPulseToIsoWeek y w)) (snd (nextPulseToIsoWeek y w)) ws ->
    pulseChain end_ y w (p :: ws).

(** A window of the chain: it starts on an odd ISO week at or after [lower]
    and not after [end_], and spans one or two whole weeks. *)
Definition windowOk (end_ lower : Time) (p : Pulse.t) : Prop :=
  lower <= Pulse.Start p <= end_
  /\ (Pulse.End p = Pulse.Start p + 14 * nsPerDay \/ Pulse.End p = Pulse.Start p + 7 * nsPerDay)
  /\ Z.odd (snd (ISOWeek (Pulse.Start p))) = true.


(** ** Classified pulls *)

(** The [Pull] appended for a pull request that is not open. *)
Definition terminalPull (p : PrEntry) : Pull :=
  let merged := match MergedAt p with Some _ => true | None => false end in
  {| Merged := merged; Closed := negb merged; Open := false;
     Lines := wrap64 (Additions p + Deletions p) |}.

(** The [Pull] appended for an open pull request. *)
Definition openPull (p : PrEntry) : Pull :=
  {| Merged := false; Closed := false; Open := true;
     Lines := wrap64 (Additions p + Deletions p) |}.

(** The configuration without its allowlist. *)
Definition unrestricted (config : Config) : Config :=
  {| Cooldown := Cooldown config; Allowlist := [];
     High := High config; Low := Low config;
     GraphsStart := GraphsStart config; Repos := Repos config |}.

(** Whether window [a] counts [p] as open. *)
Definition openIn (config : Config) (p : PrEntry) (a : Pulse.t) : bool :=
  match pulsePulls config [p] (Pulse.Start a) (Pulse.End a) with
  | Ok [q] => Open q
  | _ => false
  end.

(** ** Weights *)



(** ** Contributor intervals *)

(** The end of the span of one pull: merge time, else close time, else now. *)
Definition prEnd (now : Time) (r : PrEntry) : Time :=
  match MergedAt r with
  | Some m => m
  | None => match ClosedAt r with
            | Some c => c
            | None => now
            end
  end.

(** The cooldown promotion of an interval end. *)
Definition promote (config : Config) (now e : Time) : Time :=
  if Sub now e <? cooldownDuration config then now else e.

(** Logins [getUsers] keeps: not empty and not starting with "renovate". *)
Definition trackedLogin (login : string) : bool :=
  negb (String.eqb login "") && negb (String.prefix "renovate" login).

(** A pull whose times are in order: created, then ended, not after now. *)
Definition chronological (now : Time) (r : PrEntry) : Prop :=
  CreatedAt r <= prEnd now r <= now.

(** The interval [u] of [login] summarises the pulls [l] of that login. *)
Definition intervalOf (config : Config) (now : Time) (l : list PrEntry)
    (login : string) (u : User.t) : Prop :=
  (exists p, p ∈ l /\ Login p = login /\ CreatedAt p = User.Start u)
  /\ (forall p, p ∈ l -> Login p = login -> User.Start u <= CreatedAt p)
  /\ exists M,
       (exists p, p ∈ l /\ Login p = login /\ prEnd now p = M)
       /\ (forall p, p ∈ l -> Login p = login -> prEnd now p <= M)
       /\ User.End u = promote config now M.

(** The invariant of the loop of [getUsers]: after the pulls [l], the map
    holds the interval of every tracked login of [l], and of no other. *)
Definition usersOf (config : Config) (now : Time) (l : list PrEntry) (users : gmap string User.t) : Prop :=
  (forall login u, users !! login = Some u ->
     trackedLogin login = true /\ intervalOf config now l login u)
  /\ (forall p, p ∈ l -> trackedLogin (Login p) = true -> is_Some (users !! Login p)).

(** ** Strings *)

(** Occurrences of the byte [c] in [s]. *)
Fixpoint countByte (c : Ascii.ascii) (s : string) : nat :=
  match s with
  | EmptyString => O
  | String c' rest => (if Ascii.eqb c' c then 1 else 0) + countByte c rest
  end.

(** [strings.Join(pieces, sep)] for a separator of one byte. *)
Fixpoint joinWith (sep : Ascii.ascii) (pieces : list string) : string :=
  match pieces with
  | [] => EmptyString
  | [piece] => piece
  | piece :: rest => (piece ++ String sep (joinWith sep rest))%string
  end.

(** ** More on classified pulls *)

(** The pull [p] makes the classifier of a window ending at [end_] read its
    missing close time: its author passes the allowlist, it was created
    before [end_], and it is not open. *)
Definition readsNilClose (config : Config) (end_ : Time) (p : PrEntry) : bool :=
  allowlistedUser config (Login p)
  && Before (CreatedAt p) end_
  && negb (String.eqb (State p) "OPEN")
  && (match ClosedAt p with None => true | Some _ => false end).

(** The categories of a [Pull]: open, merged or churned, one at a time. *)
Definition oneCategory (q : Pull) : Prop :=
  (Open q = true /\ Merged q = false /\ Closed q = false)
  \/ (Open q = false /\ Merged q = true /\ Closed q = false)
  \/ (Open q = false /\ Merged q = false /\ Closed q = true).

(** The pull [p] lies outside the window: created at or after its end, or
    closed before its start. *)
Definition outsideWindow (start end_ : Time) (p : PrEntry) : Prop :=
  end_ <= CreatedAt p \/ exists c, ClosedAt p = Some c /\ c < start.

(** ** Sums over a category *)

(** The sum of the weights of the pulls of one category. *)
Definition categorySum (category : Pull -> bool) (weight : Pull -> Q) (l : list Pull) : Q :=
  fold_right Qplus 0%Q (map weight (List.filter category l)).

(** ** Active contributors *)

(** A contributor the window counts: the login passes the allowlist and the
    interval starts before the end of the window and does not end before its
    start. *)
Definition activeIn (config : Config) (start end_ : Time) (kv : string * User.t) : bool :=
  allowlistedUser config kv.1
  && Before (User.Start kv.2) end_
  && negb (Before (User.End kv.2) start).

(** ** The bounds of a window *)

(** Start, end and length in days of a window, without its metrics. *)
Definition bounds (a : Pulse.t) : Time * Time * Z :=
  (Pulse.Start a, Pulse.End a, Pulse.Days a).

(** [Days] as the loop computes it from [Start] and [End]. *)
Definition daysComputed (a : Pulse.t) : Prop :=
  Pulse.Days a = Z.quot (Z.quot (Sub (Pulse.End a) (Pulse.Start a)) Hour) 24.

(** A window of two weeks, or the one-week window of an ISO week 53. *)
Definition pulseLength (a : Pulse.t) : Prop :=
  (Pulse.End a = Pulse.Start a + 14 * nsPerDay
   /\ snd (ISOWeek (Pulse.Start a)) <> 53)
  \/ (Pulse.End a = Pulse.Start a + 7 * nsPerDay
      /\ snd (ISOWeek (Pulse.Start a)) = 53).

(** ** The earlier revision of the window cursor *)

Module OldPulses.

(** [nextPulseToIsoWeek] of the earlier revision, on its [isoWeeks]. *)
Definition nextPulseToIsoWeek (year week : Z) : Z * Z :=
  let week := week + 2 in
  (* The next into a new year must be on week 1 *)
  if week >? Old.isoWeeks year then (year + 1, 1) else (year, week).

End OldPulses.

(** December 31 of [y] is in the last ISO week of [y], or in week 1 of
    [y + 1]. *)
Definition lastDayOk (y : Z) : bool :=
  let '(y', w') := isoWeekOfDay (dateDay y 12 31) in
  ((y' =? y) && (w' =? weeksOfYear y)) || ((y' =? y + 1) && (w' =? 1)).

(** ** The cursor of the windows *)

(** One turn of the loop of [getPulses] on its cursor. *)
Definition pulseStep (cursor : Z * Z) : Z * Z :=
  nextPulseToIsoWeek (fst cursor) (snd cursor).

(** ** The float32 division against IEEE 754 *)

(** The binary32 number of an integer, and the rational number a finite
    binary32 number denotes, on the Standard Library's specification of
    IEEE 754 arithmetic at 24 bits of precision and a maximal exponent of
    128. *)
Definition binary32 (z : Z) : SpecFloat.spec_float :=
  SpecFloat.binary_normalize 24 128 z 0 false.

Definition valueOf (x : SpecFloat.spec_float) : Q :=
  match x with
  | SpecFloat.S754_finite s m e => ldexp (if s then Z.neg m else Z.pos m) e
  | _ => 0%Q
  end.

(** [fdiv] on [a] and [b] is their IEEE 754 quotient. *)
Definition divisionOk (a b : Z) : bool :=
  Qeq_bool (fdiv (float32 a) (float32 b))
           (valueOf (SpecFloat.SFdiv 24 128 (binary32 a) (binary32 b))).

(** ** Normalized values *)

(** The size weight of a [Pull], as the aggregation reads it. *)
Definition weightOf (config : Config) (q : Pull) : Q :=
  prSizeWeight config (float32 (Lines q)).

(** A weight sum over [con] contributors: divided in float32, and 0 when
    there is no contributor. *)
Definition normalized (sum : Q) (con : Z) : Q :=
  if con =? 0 then 0%Q else fdiv sum (float32 con).

(** ** What a pull adds to a window *)

(** Whether window [a] counts [p] as merged. *)
Definition mergedIn (config : Config) (p : PrEntry) (a : Pulse.t) : bool :=
  match pulsePulls config [p] (Pulse.Start a) (Pulse.End a) with
  | Ok [q] => Merged q
  | _ => false
  end.

(** The window [a'] is the window [a] of the pulls [pulls] with the pull
    [p] counted too.  The interval and the contributors are the same.  Where
    [a] counts [p] as open, the raw open value is higher by 1 and the size
    weight of [p] is added to the sum of the weights of the open pulls that
    the normalized open value divides by the contributors; the same holds of
    the merged values where [a] counts [p] as merged; every other value is
    the same. *)
Definition countedIn (config : Config) (pulls : list PrEntry) (p : PrEntry)
    (a a' : Pulse.t) : Prop :=
  bounds a' = bounds a
  /\ Pulse.Contributors a' = Pulse.Contributors a
  /\ exists pp,
       pulsePulls config pulls (Pulse.Start a) (Pulse.End a) = Ok pp
       /\ (Pulse.PrOpen a' == Pulse.PrOpen a + (if openIn config p a then 1 else 0))%Q
       /\ (Pulse.PrMerged a' == Pulse.PrMerged a + (if mergedIn config p a then 1 else 0))%Q
       /\ (Pulse.PrOpenNorm a
           == normalized (categorySum Open (weightOf config) pp) (Pulse.Contributors a))%Q
       /\ (Pulse.PrOpenNorm a'
           == normalized (categorySum Open (weightOf config) pp
                          + (if openIn config p a then weightOf config (openPull p)
                             else 0))
                         (Pulse.Contributors a))%Q
       /\ (Pulse.PrMergedNorm a
           == normalized (categorySum Merged (weightOf config) pp)
                         (Pulse.Contributors a))%Q
       /\ (Pulse.PrMergedNorm a'
           == normalized (categorySum Merged (weightOf config) pp
                          + (if mergedIn config p a then weightOf config (terminalPull p)
                             else 0))
                         (Pulse.Contributors a))%Q.

(** ** Examples the statements are tried on *)

Module Examples.

Definition defaults : Config :=
  {| Cooldown := 1; Allowlist := []; High := 500; Low := 50;
     GraphsStart := None; Repos := ["canonical/pebble"%string] |}.

Definition onlyAlice : Config :=
  {| Cooldown := 1; Allowlist := ["alice"%string]; High := 500; Low := 50;
     GraphsStart := None; Repos := ["canonical/pebble"%string] |}.

(** Created 2024-01-02, merged 2024-01-10, 30 lines. *)
Definition mergedPr : PrEntry :=
  {| Additions := 20; Deletions := 10;
     CreatedAt := Date 2024 1 2;
     ClosedAt := Some (Date 2024 1 10);
     MergedAt := Some (Date 2024 1 10);
     State := "MERGED"; Login := "alice" |}.

(** Created 2024-01-02, still open, 600 lines. *)
Definition openPr : PrEntry :=
  {| Additions := 600; Deletions := 0;
     CreatedAt := Date 2024 1 2;
     ClosedAt := None;
     MergedAt := None;
     State := "OPEN"; Login := "bob" |}.

(** Created 2024-01-20, closed without merge 2024-01-25, 100 lines, by a bot. *)
Definition botPr : PrEntry :=
  {| Additions := 60; Deletions := 40;
     CreatedAt := Date 2024 1 20;
     ClosedAt := Some (Date 2024 1 25);
     MergedAt := None;
     State := "CLOSED"; Login := "renovate-bot" |}.

Definition pulls : list PrEntry := [mergedPr; openPr; botPr].

Definition now : Time := Date 2024 3 1.
Definition scanStart : Time := Date 2024 1 2.
Definition scanEnd : Time := Date 2024 2 1.

(** Created 2024-01-03, merged 2024-01-12, 80 lines, by an author who is
    not on the allowlist of [onlyAlice]. *)
Definition bobMergedPr : PrEntry :=
  {| Additions := 50; Deletions := 30;
     CreatedAt := Date 2024 1 3;
     ClosedAt := Some (Date 2024 1 12);
     MergedAt := Some (Date 2024 1 12);
     State := "MERGED"; Login := "bob" |}.

(** Closed on 2024-01-12 and created on 2024-01-20: the times are out of
    order. *)
Definition closedBeforeCreatedPr : PrEntry :=
  {| Additions := 5; Deletions := 5;
     CreatedAt := Date 2024 1 20;
     ClosedAt := Some (Date 2024 1 12);
     MergedAt := None;
     State := "CLOSED"; Login := "alice" |}.

(** Created five seconds and merged ten seconds after [now]: the clock of
    the run is behind the clock that stamped the pull. *)
Definition aheadPr : PrEntry :=
  {| Additions := 1; Deletions := 1;
     CreatedAt := now + 5 * Second;
     ClosedAt := Some (now + 10 * Second);
     MergedAt := Some (now + 10 * Second);
     State := "MERGED"; Login := "carol" |}.

(** A cooldown of 4000 months, whose duration in nanoseconds does not fit
    64 bits. *)
Definition longCooldown : Config :=
  {| Cooldown := 4000; Allowlist := []; High := 500; Low := 50;
     GraphsStart := None; Repos := ["canonical/pebble"%string] |}.

(** Created 2024-01-20, still open, 100 lines, by a bot. *)
Definition botOpenPr : PrEntry :=
  {| Additions := 60; Deletions := 40;
     CreatedAt := Date 2024 1 20;
     ClosedAt := None;
     MergedAt := None;
     State := "OPEN"; Login := "renovate-bot" |}.

(** Created 2024-01-20, merged 2024-01-25, 100 lines, by a bot. *)
Definition botMergedPr : PrEntry :=
  {| Additions := 60; Deletions := 40;
     CreatedAt := Date 2024 1 20;
     ClosedAt := Some (Date 2024 1 25);
     MergedAt := Some (Date 2024 1 25);
     State := "MERGED"; Login := "renovate-bot" |}.

End Examples.

(** * Calendar facts

    The Gregorian calendar repeats every 400 years, which are 146097 days or
    20871 whole weeks.  Each fact is checked on one period and carried to
    every year along the period. *)

Section Period.

Import Isoweek.

Lemma absDate_shift d k :
  absDate (d + daysPer400Years * k) = (fst (absDate d) + 400 * k, snd (absDate d)).
Proof.
  unfold absDate, daysPer400Years.
  replace ((d + 146097 * k) / 146097) with (d / 146097 + k)
    by (rewrite (Z.mul_comm 146097 k), Z.div_add; lia).
  replace (d + 146097 * k - 146097 * (d / 146097 + k)) with (d - 146097 * (d / 146097)) by lia.
  cbn [fst snd]. f_equal. lia.
Qed.

Lemma daysSinceEpoch_shift y k :
  daysSinceEpoch (y + 400 * k) = daysSinceEpoch y + daysPer400Years * k.
Proof.
  unfold daysSinceEpoch, daysPer400Years.
  replace ((y + 400 * k - 1) / 400) with ((y - 1) / 400 + k)
    by (replace (y + 400 * k - 1) with (y - 1 + k * 400) by lia; rewrite Z.div_add; lia).
  replace (y + 400 * k - 1 - 400 * ((y - 1) / 400 + k)) with (y - 1 - 400 * ((y - 1) / 400)) by lia.
  cbv zeta. lia.
Qed.

Lemma isLeap_shift y k : isLeap (y + 400 * k) = isLeap y.
Proof.
  unfold isLeap.
  replace ((y + 400 * k) mod 4) with (y mod 4)
    by (replace (y + 400 * k) with (y + (100 * k) * 4) by lia; now rewrite Z_mod_plus_full).
  replace ((y + 400 * k) mod 100) with (y mod 100)
    by (replace (y + 400 * k) with (y + (4 * k) * 100) by lia; now rewrite Z_mod_plus_full).
  replace ((y + 400 * k) mod 400) with (y mod 400)
    by (replace (y + 400 * k) with (y + k * 400) by lia; now rewrite Z_mod_plus_full).
  reflexivity.
Qed.

Lemma dateDay_shift y m d k :
  dateDay (y + 400 * k) m d = dateDay y m d + daysPer400Years * k.
Proof.
  unfold dateDay. rewrite daysSinceEpoch_shift, isLeap_shift.
  destruct (isLeap y && (3 <=? m)); lia.
Qed.

Lemma absWeekday_shift d k : absWeekday (d + daysPer400Years * k) = absWeekday d.
Proof.
  unfold absWeekday, daysPer400Years.
  replace (d + 146097 * k + 1) with (d + 1 + (20871 * k) * 7) by lia.
  apply Z_mod_plus_full.
Qed.

Lemma isoWeekOfDay_shift d k :
  isoWeekOfDay (d + daysPer400Years * k)
  = (fst (isoWeekOfDay d) + 400 * k, snd (isoWeekOfDay d)).
Proof.
  unfold isoWeekOfDay. rewrite absWeekday_shift.
  set (o := if 4 - absWeekday d =? 4 then -3 else 4 - absWeekday d).
  replace (d + daysPer400Years * k + o) with (d + o + daysPer400Years * k) by lia.
  rewrite absDate_shift. destruct (absDate (d + o)) as [y yd]. reflexivity.
Qed.

Lemma startDay_shift y w k :
  startDay (y + 400 * k) w = startDay y w + daysPer400Years * k.
Proof.
  unfold startDay. rewrite dateDay_shift. unfold daysPer400Years.
  replace ((dateDay y 1 4 + 146097 * k) mod 7) with (dateDay y 1 4 mod 7)
    by (replace (dateDay y 1 4 + 146097 * k) with (dateDay y 1 4 + (20871 * k) * 7) by lia;
        now rewrite Z_mod_plus_full).
  lia.
Qed.

Lemma absDay_Date y m d : absDay (Date y m d) = dateDay y m d.
Proof. unfold absDay, Date. now apply Z.div_mul. Qed.

Lemma absDay_StartTime y w : absDay (StartTime y w) = startDay y w.
Proof. unfold absDay, StartTime. now apply Z.div_mul. Qed.

Lemma isoWeeks_eq y : isoWeeks y = snd (isoWeekOfDay (dateDay y 12 28)).
Proof. unfold isoWeeks, ISOWeek. now rewrite absDay_Date. Qed.

Lemma isoWeeks_shift y k : isoWeeks (y + 400 * k) = isoWeeks y.
Proof.
  rewrite !isoWeeks_eq, dateDay_shift, isoWeekOfDay_shift.
  destruct (isoWeekOfDay (dateDay y 12 28)). reflexivity.
Qed.

End Period.

(** ** One period, checked by computation *)

Section OnePeriod.

Import Isoweek.

Lemma allFrom_spec f n :
  forall z, allFrom f z n = true -> forall x, z <= x < z + Z.of_nat n -> f x = true.
Proof.
  induction n as [|n IH]; intros z H x Hx; [lia|].
  cbn [allFrom] in H. apply andb_true_iff in H as [Hz Hrest].
  destruct (Z.eq_dec x z) as [->|Hne]; [exact Hz|].
  apply (IH (z + 1)); [exact Hrest | lia].
Qed.

Lemma weeks_checked : allFrom weekOk 0 (Z.to_nat 20871) = true.
Proof. vm_cast_no_check (eq_refl true). Qed.

Lemma years_checked : allFrom yearOk 0 (Z.to_nat 400) = true.
Proof. vm_cast_no_check (eq_refl true). Qed.

End OnePeriod.

(** ** Every year *)

Section Calendar.

Import Isoweek.

Lemma weeksOfYear_shift y k : weeksOfYear (y + 400 * k) = weeksOfYear y.
Proof.
  unfold weeksOfYear. rewrite dateDay_shift, isoWeekOfDay_shift.
  destruct (isoWeekOfDay (dateDay y 12 28)). reflexivity.
Qed.

Lemma isoWeeks_weeksOfYear y : isoWeeks y = weeksOfYear y.
Proof. apply isoWeeks_eq. Qed.

(** The ISO week of a day is that of the Monday of its week. *)
Lemma isoWeekOfDay_monday d : isoWeekOfDay d = isoWeekOfDay (7 * (d / 7)).
Proof.
  unfold isoWeekOfDay, absWeekday.
  assert (E : forall x, x + (if 4 - (x + 1) mod 7 =? 4 then -3 else 4 - (x + 1) mod 7)
                        = 7 * (x / 7) + 3).
  { intros x. destruct (Z.eqb_spec (4 - (x + 1) mod 7) 4);
      Z.div_mod_to_equations; lia. }
  rewrite (E d), (E (7 * (d / 7))).
  replace (7 * (d / 7) / 7) with (d / 7)
    by (rewrite Z.mul_comm, Z.div_mul; lia).
  reflexivity.
Qed.

Lemma weekOk_all i : weekOk (i mod 20871) = true.
Proof.
  apply (allFrom_spec _ _ _ weeks_checked).
  pose proof (Z.mod_pos_bound i 20871). lia.
Qed.

Lemma yearOk_all y : yearOk (y mod 400) = true.
Proof.
  apply (allFrom_spec _ _ _ years_checked).
  pose proof (Z.mod_pos_bound y 400). lia.
Qed.

Lemma weekOk_elim i :
  weekOk i = true ->
  1 <= snd (isoWeekOfDay (7 * i)) <= weeksOfYear (fst (isoWeekOfDay (7 * i)))
  /\ startDay (fst (isoWeekOfDay (7 * i))) (snd (isoWeekOfDay (7 * i))) = 7 * i.
Proof.
  unfold weekOk. destruct (isoWeekOfDay (7 * i)) as [y w]. cbn [fst snd].
  generalize (weeksOfYear y) (startDay y w) (7 * i). intros W S0 m H.
  apply andb_true_iff in H as [H H3]. apply andb_true_iff in H as [H1 H2].
  lia.
Qed.

Lemma isoWeekOfDay_spec d :
  1 <= snd (isoWeekOfDay d) <= weeksOfYear (fst (isoWeekOfDay d))
  /\ startDay (fst (isoWeekOfDay d)) (snd (isoWeekOfDay d)) = 7 * (d / 7).
Proof.
  rewrite isoWeekOfDay_monday.
  generalize (d / 7). intros i.
  destruct (weekOk_elim _ (weekOk_all i)) as [Hw Hs].
  assert (Ei : 7 * i = 7 * (i mod 20871) + daysPer400Years * (i / 20871))
    by (unfold daysPer400Years; pose proof (Z.div_mod i 20871); lia).
  rewrite Ei. rewrite isoWeekOfDay_shift.
  revert Hw Hs. generalize (i / 20871). intros k.
  destruct (isoWeekOfDay (7 * (i mod 20871))) as [y w]. cbn [fst snd].
  rewrite weeksOfYear_shift, startDay_shift.
  intros Hw Hs. split; [exact Hw|]. rewrite Hs. reflexivity.
Qed.

Lemma yearOk_elim y :
  yearOk y = true ->
  (weeksOfYear y = 52 \/ weeksOfYear y = 53)
  /\ startDay (y + 1) 1 = startDay y 1 + 7 * weeksOfYear y
  /\ fst (isoWeekOfDay (dateDay y 12 28)) = y
  /\ forall w, 1 <= w <= weeksOfYear y -> isoWeekOfDay (startDay y w) = (y, w).
Proof.
  unfold yearOk.
  generalize (weeksOfYear y) (startDay (y + 1) 1) (startDay y 1)
             (fst (isoWeekOfDay (dateDay y 12 28))).
  intros W S1 S0 Y H.
  apply andb_true_iff in H as [H H4]. apply andb_true_iff in H as [H H3].
  apply andb_true_iff in H as [H1 H2].
  apply orb_true_iff in H1. rewrite !Z.eqb_eq in H1. apply Z.eqb_eq in H2, H3.
  split; [exact H1|]. split; [exact H2|]. split; [exact H3|].
  intros w Hw.
  pose proof (allFrom_spec _ _ _ H4 w) as Hc. cbv beta in Hc.
  assert (Hr : 1 <= w < 1 + Z.of_nat 53) by lia.
  specialize (Hc Hr). revert Hc.
  generalize (isoWeekOfDay (startDay y w)). intros [y' w'] Hc.
  destruct (Z.leb_spec w W) as [_|Hgt]; [|lia].
  cbn [implb] in Hc.
  apply andb_true_iff in Hc as [Hy' Hw'].
  apply Z.eqb_eq in Hy', Hw'. now subst.
Qed.

Lemma weeksOfYear_spec y :
  (weeksOfYear y = 52 \/ weeksOfYear y = 53)
  /\ startDay (y + 1) 1 = startDay y 1 + 7 * weeksOfYear y
  /\ fst (isoWeekOfDay (dateDay y 12 28)) = y
  /\ forall w, 1 <= w <= weeksOfYear y -> isoWeekOfDay (startDay y w) = (y, w).
Proof.
  destruct (yearOk_elim _ (yearOk_all y)) as (R & N & D & T).
  assert (Ey : y = y mod 400 + 400 * (y / 400)) by (pose proof (Z.div_mod y 400); lia).
  revert R N D T. generalize (y mod 400) (y / 400) Ey. clear Ey.
  intros y0 k -> R N D T.
  rewrite weeksOfYear_shift.
  split; [exact R|]. split; [|split].
  - replace (y0 + 400 * k + 1) with (y0 + 1 + 400 * k) by lia.
    rewrite !startDay_shift, N. lia.
  - rewrite dateDay_shift, isoWeekOfDay_shift. revert D.
    destruct (isoWeekOfDay (dateDay y0 12 28)) as [a b]. cbn [fst]. lia.
  - intros w Hw. rewrite startDay_shift, isoWeekOfDay_shift, (T w Hw). reflexivity.
Qed.

(** *** The facts, on instants *)

Lemma nsPerDay_pos : 0 < nsPerDay.
Proof. reflexivity. Qed.

Lemma isoWeeks_range y : isoWeeks y = 52 \/ isoWeeks y = 53.
Proof. rewrite isoWeeks_weeksOfYear. apply weeksOfYear_spec. Qed.

Lemma StartTime_add y w k : StartTime y (w + k) = StartTime y w + k * (7 * nsPerDay).
Proof. unfold StartTime, startDay. lia. Qed.

Lemma StartTime_next_year y : StartTime (y + 1) 1 = StartTime y (isoWeeks y + 1).
Proof.
  rewrite isoWeeks_weeksOfYear. unfold StartTime.
  destruct (weeksOfYear_spec y) as (_ & E & _). rewrite E.
  unfold startDay. lia.
Qed.

Lemma ISOWeek_Dec28 y : ISOWeek (Date y 12 28) = (y, isoWeeks y).
Proof.
  unfold isoWeeks, ISOWeek. rewrite absDay_Date.
  destruct (weeksOfYear_spec y) as (_ & _ & D & _). revert D.
  destruct (isoWeekOfDay (dateDay y 12 28)) as [a b]. cbn [fst snd].
  now intros ->.
Qed.

Lemma ISOWeek_StartTime y w :
  1 <= w <= isoWeeks y -> ISOWeek (StartTime y w) = (y, w).
Proof.
  rewrite isoWeeks_weeksOfYear. intros Hw.
  unfold ISOWeek. rewrite absDay_StartTime. now apply weeksOfYear_spec.
Qed.

Lemma ISOWeek_spec t :
  1 <= snd (ISOWeek t) <= isoWeeks (fst (ISOWeek t))
  /\ StartTime (fst (ISOWeek t)) (snd (ISOWeek t)) <= t
       < StartTime (fst (ISOWeek t)) (snd (ISOWeek t)) + 7 * nsPerDay.
Proof.
  unfold ISOWeek, StartTime. rewrite isoWeeks_weeksOfYear.
  destruct (isoWeekOfDay_spec (absDay t)) as [Hw Hs].
  split; [exact Hw|]. rewrite Hs. unfold absDay.
  pose proof nsPerDay_pos.
  pose proof (Z.div_mod t nsPerDay ltac:(lia)).
  pose proof (Z.mod_pos_bound t nsPerDay ltac:(lia)).
  pose proof (Z.div_mod (t / nsPerDay) 7 ltac:(lia)).
  pose proof (Z.mod_pos_bound (t / nsPerDay) 7 ltac:(lia)).
  nia.
Qed.

End Calendar.

(** * Pulse windows *)

Section Windows.

Import Isoweek.

Lemma nextPulse_step y w :
  pulseWeek y w ->
  pulseWeek (fst (nextPulseToIsoWeek y w)) (snd (nextPulseToIsoWeek y w))
  /\ (StartTime (fst (nextPulseToIsoWeek y w)) (snd (nextPulseToIsoWeek y w))
        = StartTime y w + 14 * nsPerDay
      \/ StartTime (fst (nextPulseToIsoWeek y w)) (snd (nextPulseToIsoWeek y w))
        = StartTime y w + 7 * nsPerDay).
Proof.
  intros [Hw Hodd]. unfold nextPulseToIsoWeek, pulseWeek.
  destruct (Z.gtb_spec (w + 2) (isoWeeks y)) as [Hgt|Hle]; cbn [fst snd].
  - pose proof (isoWeeks_range (y + 1)) as R1.
    split; [split; [lia | reflexivity]|].
    rewrite StartTime_next_year.
    replace (isoWeeks y + 1) with (w + (isoWeeks y + 1 - w)) by lia.
    rewrite StartTime_add.
    assert (isoWeeks y = w \/ isoWeeks y = w + 1) as [->| ->] by lia; [right | left]; lia.
  - split.
    + split; [lia|]. rewrite Z.odd_add, Hodd. reflexivity.
    + left. rewrite StartTime_add. lia.
Qed.

Lemma isoWeekToPulseStart_ok w :
  1 <= w ->
  exists w', isoWeekToPulseStart w = Ok w' /\ Z.odd w' = true /\ 1 <= w' <= w /\ w < w' + 2.
Proof.
  intros Hw. unfold isoWeekToPulseStart.
  assert (E : Z.land w 1 = w mod 2) by (apply (Z.land_ones w 1); lia).
  rewrite E, Zmod_odd.
  destruct (Z.odd w) eqn:Hodd; cbn [Z.eqb].
  - exists w. destruct (Z.leb_spec w 0); [lia|]. repeat split; try lia. exact Hodd.
  - assert (w <> 1) by (intros ->; discriminate).
    exists (w - 1). destruct (Z.leb_spec (w - 1) 0); [lia|].
    repeat split; try lia.
    replace (w - 1) with (w + (-1)) by lia. rewrite Z.odd_add, Hodd. reflexivity.
Qed.

(** *** The classifier, one pull at a time *)

Lemma bind_Ok {A B : Type} (a : A) (k : A -> Result B) : (Ok a ≫= k) = k a.
Proof. reflexivity. Qed.

Lemma pulsePullsStep_acc config start end_ acc p :
  pulsePullsStep config start end_ acc p
  = (l ← pulsePullsStep config start end_ [] p; Ok (acc ++ l)).
Proof.
  unfold pulsePullsStep.
  destruct (negb (allowlistedUser config (Login p))); [cbn; now rewrite app_nil_r|].
  destruct ((match ClosedAt p with None => true | Some c => negb (Before c start) end)
            && Before (CreatedAt p) end_); [|cbn; now rewrite app_nil_r].
  destruct (negb (String.eqb (State p) "OPEN")); [|reflexivity].
  destruct (ClosedAt p) as [c|]; [|reflexivity]. cbn.
  destruct (negb (Before c start) && Before c end_); cbn; [reflexivity | now rewrite app_nil_r].
Qed.

Lemma pulsePullsLoop_acc config start end_ pulls :
  forall acc,
    pulsePullsLoop config start end_ pulls acc
    = (l ← pulsePullsLoop config start end_ pulls []; Ok (acc ++ l)).
Proof.
  induction pulls as [|p rest IH]; intros acc; cbn [pulsePullsLoop].
  - cbn. now rewrite app_nil_r.
  - rewrite (pulsePullsStep_acc _ _ _ acc).
    destruct (pulsePullsStep config start end_ [] p) as [l| |]; [|reflexivity..].
    cbn. rewrite (IH (acc ++ l)), (IH l).
    destruct (pulsePullsLoop config start end_ rest []) as [l'| |]; [|reflexivity..].
    cbn. now rewrite app_assoc.
Qed.

Lemma pulsePulls_cons config p pulls start end_ :
  pulsePulls config (p :: pulls) start end_
  = (a ← pulsePulls config [p] start end_;
     b ← pulsePulls config pulls start end_;
     Ok (a ++ b)).
Proof.
  unfold pulsePulls. cbn [pulsePullsLoop].
  destruct (pulsePullsStep config start end_ [] p) as [l| |]; [|reflexivity..].
  cbn. apply pulsePullsLoop_acc.
Qed.

Lemma pulsePulls_app config pulls1 pulls2 start end_ :
  pulsePulls config (pulls1 ++ pulls2) start end_
  = (a ← pulsePulls config pulls1 start end_;
     b ← pulsePulls config pulls2 start end_;
     Ok (a ++ b)).
Proof.
  induction pulls1 as [|p rest IH].
  - cbn [app]. change (pulsePulls config [] start end_) with (Ok (@nil Pull)).
    rewrite bind_Ok. destruct (pulsePulls config pulls2 start end_); reflexivity.
  - rewrite <- app_comm_cons, pulsePulls_cons, IH, (pulsePulls_cons _ p rest).
    destruct (pulsePulls config [p] start end_) as [a| |]; [|reflexivity..].
    destruct (pulsePulls config rest start end_) as [b| |]; [|reflexivity..].
    destruct (pulsePulls config pulls2 start end_) as [c| |]; [|reflexivity..].
    cbn. now rewrite app_assoc.
Qed.

Lemma pulsePulls_one_ok config p start end_ :
  closedWhenTerminal p = true ->
  exists l, pulsePulls config [p] start end_ = Ok l.
Proof.
  unfold closedWhenTerminal, pulsePulls. cbn [pulsePullsLoop]. unfold pulsePullsStep.
  intros H.
  destruct (negb (allowlistedUser config (Login p))); [eexists; reflexivity|].
  destruct ((match ClosedAt p with None => true | Some c => negb (Before c start) end)
            && Before (CreatedAt p) end_); [|eexists; reflexivity].
  destruct (String.eqb (State p) "OPEN"); cbn [negb]; [eexists; reflexivity|].
  destruct (ClosedAt p) as [c|]; [|discriminate]. cbn.
  destruct (negb (Before c start) && Before c end_); eexists; reflexivity.
Qed.

Lemma pulsePulls_ok config pulls start end_ :
  Forall (fun p => closedWhenTerminal p = true) pulls ->
  exists l, pulsePulls config pulls start end_ = Ok l.
Proof.
  induction 1 as [|p rest Hp _ [l IH]].
  - eexists; reflexivity.
  - rewrite pulsePulls_cons, IH.
    destruct (pulsePulls_one_ok config p start end_ Hp) as [a ->].
    eexists; reflexivity.
Qed.

(** *** The loop *)

Lemma getPulsesLoop_chain config end_ pulls users :
  Forall (fun p => closedWhenTerminal p = true) pulls ->
  forall n y w acc,
    pulseWeek y w ->
    (end_ - StartTime y w < Z.of_nat n * (7 * nsPerDay)) ->
    exists ws,
      getPulsesLoop (S n) config end_ pulls users y w acc = Ok (acc ++ ws)
      /\ pulseChain end_ y w ws.
Proof.
  intros Hwf. induction n as [|n IH]; intros y w acc Hyw Hfuel.
  - exists []. cbn [getPulsesLoop].
    destruct (nextPulseToIsoWeek y w) as [y' w'].
    unfold After. destruct (Z.gtb_spec (StartTime y w) end_) as [Hgt|Hle]; [|lia].
    split; [now rewrite app_nil_r | apply chain_stop; lia].
  - destruct (nextPulse_step y w Hyw) as [Hnext Hlen].
    remember (S n) as m eqn:Em. cbn [getPulsesLoop].
    destruct (nextPulseToIsoWeek y w) as [y' w'] eqn:En. cbn [fst snd] in *.
    unfold After. destruct (Z.gtb_spec (StartTime y w) end_) as [Hgt|Hle].
    + exists []. split; [now rewrite app_nil_r | apply chain_stop; lia].
    + destruct (pulsePulls_ok config pulls (StartTime y w) (StartTime y' w') Hwf) as [l ->].
      rewrite bind_Ok. subst m.
      match goal with |- context [getPulsesLoop _ _ _ _ _ _ _ (acc ++ [?p])] => set (pulse := p) end.
      rewrite Nat2Z.inj_succ, Z.mul_succ_l in Hfuel. pose proof nsPerDay_pos.
      destruct (IH y' w' (acc ++ [pulse]) Hnext) as (ws & Hrun & Hchain); [lia|].
      exists (pulse :: ws). split.
      * rewrite Hrun, <- app_assoc. reflexivity.
      * apply chain_step; rewrite ?En; cbn [fst snd]; auto.
Qed.

(** *** What a chain of windows looks like *)

Lemma windowOk_lower end_ lower lower' p :
  lower' <= lower -> windowOk end_ lower p -> windowOk end_ lower' p.
Proof. unfold windowOk. intuition lia. Qed.

Lemma pulseChain_windows end_ y w ws :
  pulseChain end_ y w ws -> pulseWeek y w ->
  Forall (windowOk end_ (StartTime y w)) ws.
Proof.
  induction 1 as [y w Hstop | y w p ws Hle Hs He Hchain IH]; intros Hyw.
  - constructor.
  - destruct (nextPulse_step y w Hyw) as [Hnext Hlen].
    pose proof nsPerDay_pos as Hd.
    constructor.
    + unfold windowOk. rewrite He, Hs. repeat split; try lia.
      rewrite ISOWeek_StartTime by apply Hyw. apply Hyw.
    + eapply Forall_impl; [apply IH, Hnext|].
      intros q. apply windowOk_lower. lia.
Qed.

Lemma pulseChain_head end_ y w p ws :
  pulseChain end_ y w (p :: ws) -> Pulse.Start p = StartTime y w.
Proof. now inversion 1. Qed.

Lemma pulseChain_adjacent end_ y w ws :
  pulseChain end_ y w ws ->
  forall (i : nat) a b, ws !! i = Some a -> ws !! S i = Some b -> Pulse.End a = Pulse.Start b.
Proof.
  induction 1 as [y w Hstop | y w p ws Hle Hs He Hchain IH]; intros i a b Ha Hb.
  - discriminate.
  - destruct i as [|i].
    + cbn in Ha, Hb. injection Ha as <-.
      destruct ws as [|q ws]; [discriminate|]. cbn in Hb. injection Hb as <-.
      rewrite He. symmetry. eapply pulseChain_head, Hchain.
    + cbn in Ha, Hb. eapply IH; eassumption.
Qed.

Lemma pulseChain_last end_ y w ws :
  pulseChain end_ y w ws ->
  forall l, last ws = Some l -> end_ < Pulse.End l.
Proof.
  induction 1 as [y w Hstop | y w p ws Hle Hs He Hchain IH]; intros l Hl.
  - discriminate.
  - destruct ws as [|q ws].
    + cbn in Hl. injection Hl as <-. inversion Hchain; subst. lia.
    + apply IH. exact Hl.
Qed.

Lemma pulseChain_ordered end_ y w ws :
  pulseChain end_ y w ws -> pulseWeek y w ->
  forall (i j : nat) a b,
    (i < j)%nat -> ws !! i = Some a -> ws !! j = Some b -> Pulse.End a <= Pulse.Start b.
Proof.
  induction 1 as [y w Hstop | y w p ws Hle Hs He Hchain IH]; intros Hyw i j a b Hij Ha Hb.
  - discriminate.
  - destruct (nextPulse_step y w Hyw) as [Hnext _].
    destruct j as [|j]; [lia|]. cbn in Hb.
    destruct i as [|i].
    + cbn in Ha. injection Ha as <-.
      pose proof (pulseChain_windows _ _ _ _ Hchain Hnext) as Hall.
      rewrite Forall_forall in Hall.
      assert (Hin : b ∈ ws) by (eapply list_elem_of_lookup_2; eassumption).
      destruct (Hall b Hin) as [Hb' _]. lia.
    + cbn in Ha. eapply (IH Hnext i j); [lia | eassumption..].
Qed.

(** *** [getPulses] runs to the end and returns a chain *)

Lemma getPulses_chain config start end_ pulls users :
  start <= end_ ->
  Forall (fun p => closedWhenTerminal p = true) pulls ->
  exists y w ws,
    getPulses config start end_ pulls users = Ok ws
    /\ pulseWeek y w
    /\ pulseChain end_ y w ws
    /\ StartTime y w <= start < StartTime y w + 14 * nsPerDay.
Proof.
  intros Hse Hwf. unfold getPulses, Before.
  destruct (Z.ltb_spec end_ start) as [Hlt|_]; [lia|].
  destruct (ISOWeek_spec start) as [Hw0 Hs0]. revert Hw0 Hs0.
  destruct (ISOWeek start) as [y w0]. cbn [fst snd]. intros Hw0 Hs0.
  destruct (isoWeekToPulseStart_ok w0) as (w & -> & Hodd & Hw & Hlt); [lia|].
  rewrite bind_Ok.
  assert (Hyw : pulseWeek y w) by (split; [lia | exact Hodd]).
  assert (Hst : StartTime y w0 = StartTime y w + (w0 - w) * (7 * nsPerDay)).
  { rewrite <- StartTime_add. f_equal. lia. }
  pose proof nsPerDay_pos as Hd.
  set (week := 7 * nsPerDay) in *.
  assert (Hx : 0 <= (end_ - start) / week) by (apply Z.div_pos; lia).
  pose proof (Z.div_mod (end_ - start) week ltac:(lia)) as Hdm.
  pose proof (Z.mod_pos_bound (end_ - start) week ltac:(lia)) as Hmb.
  unfold pulsesFuel. fold week.
  replace ((end_ - start) / week + 4) with (Z.succ ((end_ - start) / week + 3)) by lia.
  rewrite Z2Nat.inj_succ by lia.
  destruct (getPulsesLoop_chain config end_ pulls users Hwf
              (Z.to_nat ((end_ - start) / week + 3)) y w [] Hyw) as (ws & Hrun & Hchain).
  { rewrite Z2Nat.id by lia. fold week. nia. }
  exists y, w, ws. repeat split; try assumption; try apply Hyw; nia.
Qed.

End Windows.

(** * The properties *)

Section PulseWindowProperties.

Import Isoweek.

(** C2: for every year, [isoWeeks year] is the ISO week number of December 28
    of that year, which is the number of ISO weeks of the ISO year, 52 or 53:
    December 28 belongs to that ISO year, every instant of the ISO year has a
    week number from 1 to [isoWeeks year], each of these weeks exists, and the
    next ISO year starts [isoWeeks year] weeks after this one.
    [nextPulseToIsoWeek year week] is week 1 of [year + 1] exactly when
    [week + 2] exceeds that count, and [(year, week + 2)] otherwise. *)
Theorem isoWeeks_nextPulseToIsoWeek_correct (year : Z) :
  ISOWeek (Date year 12 28) = (year, isoWeeks year)
  /\ (isoWeeks year = 52 \/ isoWeeks year = 53)
  /\ (forall t, fst (ISOWeek t) = year -> 1 <= snd (ISOWeek t) <= isoWeeks year)
  /\ (forall w, 1 <= w <= isoWeeks year -> ISOWeek (StartTime year w) = (year, w))
  /\ StartTime (year + 1) 1 = StartTime year 1 + isoWeeks year * (7 * nsPerDay)
  /\ forall week,
       (week + 2 > isoWeeks year -> nextPulseToIsoWeek year week = (year + 1, 1))
       /\ (week + 2 <= isoWeeks year -> nextPulseToIsoWeek year week = (year, week + 2)).
Proof.
  split; [apply ISOWeek_Dec28|].
  split; [apply isoWeeks_range|].
  split; [intros t <-; apply ISOWeek_spec|].
  split; [intros w; apply ISOWeek_StartTime|].
  split.
  - rewrite StartTime_next_year.
    replace (isoWeeks year + 1) with (1 + isoWeeks year) by lia.
    apply StartTime_add.
  - intros week. unfold nextPulseToIsoWeek.
    destruct (Z.gtb_spec (week + 2) (isoWeeks year)); split; intros; (reflexivity || lia).
Qed.

(** C3: for every [start <= end_] (and pulls that have a close time once
    they are no longer open, so that the classifier does not panic),
    [getPulses] returns windows that are contiguous, [End] of each being
    [Start] of the next, that do not overlap, and whose [Start] each falls in
    an odd ISO week, whatever the lengths of the ISO years crossed. *)
Theorem getPulses_contiguous_odd config start end_ pulls users :
  start <= end_ ->
  Forall (fun p => closedWhenTerminal p = true) pulls ->
  exists ws,
    getPulses config start end_ pulls users = Ok ws
    /\ (forall (i : nat) a b,
          ws !! i = Some a -> ws !! S i = Some b -> Pulse.End a = Pulse.Start b)
    /\ (forall (i j : nat) a b,
          (i < j)%nat -> ws !! i = Some a -> ws !! j = Some b ->
          Pulse.Start a < Pulse.End a <= Pulse.Start b)
    /\ (forall a, a ∈ ws -> Z.odd (snd (ISOWeek (Pulse.Start a))) = true).
Proof.
  intros Hse Hwf.
  destruct (getPulses_chain config start end_ pulls users Hse Hwf)
    as (y & w & ws & Hrun & Hyw & Hchain & _).
  pose proof (pulseChain_windows _ _ _ _ Hchain Hyw) as Hall.
  rewrite Forall_forall in Hall.
  exists ws. split; [exact Hrun|]. split; [|split].
  - eapply pulseChain_adjacent, Hchain.
  - intros i j a b Hij Ha Hb. split.
    + assert (Hin : a ∈ ws) by (eapply list_elem_of_lookup_2; eassumption).
      destruct (Hall a Hin) as (_ & Hlen & _). pose proof nsPerDay_pos. lia.
    + eapply (pulseChain_ordered _ _ _ _ Hchain Hyw i j); eassumption.
  - intros a Hin. apply (Hall a Hin).
Qed.

Lemma getPulses_contiguous_odd_witness :
  Examples.scanStart <= Examples.scanEnd
  /\ Forall (fun p => closedWhenTerminal p = true) Examples.pulls
  /\ exists ws,
       getPulses Examples.defaults Examples.scanStart Examples.scanEnd Examples.pulls
                 (getUsers Examples.defaults Examples.now Examples.pulls) = Ok ws
       /\ (forall (i : nat) a b,
             ws !! i = Some a -> ws !! S i = Some b -> Pulse.End a = Pulse.Start b)
       /\ (forall (i j : nat) a b,
             (i < j)%nat -> ws !! i = Some a -> ws !! j = Some b ->
             Pulse.Start a < Pulse.End a <= Pulse.Start b)
       /\ (forall a, a ∈ ws -> Z.odd (snd (ISOWeek (Pulse.Start a))) = true).
Proof.
  assert (H1 : Examples.scanStart <= Examples.scanEnd) by (vm_compute; discriminate).
  assert (H2 : Forall (fun p => closedWhenTerminal p = true) Examples.pulls)
    by (repeat constructor).
  split; [exact H1|]. split; [exact H2|].
  apply (getPulses_contiguous_odd _ _ _ _ _ H1 H2).
Defined.

(** C9: for every [start <= end_] (and pulls that have a close time once
    they are no longer open), [getPulses] terminates with a non-empty, ordered
    list of windows; the first starts at or before [start], less than two
    weeks before it; every window starts at or before [end_] and ends one or
    two whole weeks after its start, so that no window is cut at [end_]; and
    the loop stops with the first window start strictly after [end_], which
    is the [End] of the last window returned. *)
Theorem getPulses_terminates config start end_ pulls users :
  start <= end_ ->
  Forall (fun p => closedWhenTerminal p = true) pulls ->
  exists first rest,
    getPulses config start end_ pulls users = Ok (first :: rest)
    /\ start - 14 * nsPerDay < Pulse.Start first <= start
    /\ (forall a, a ∈ first :: rest ->
          Pulse.Start a <= end_
          /\ (Pulse.End a = Pulse.Start a + 14 * nsPerDay
              \/ Pulse.End a = Pulse.Start a + 7 * nsPerDay))
    /\ (forall (i j : nat) a b,
          (i < j)%nat -> (first :: rest) !! i = Some a -> (first :: rest) !! j = Some b ->
          Pulse.Start a < Pulse.Start b)
    /\ (exists l, last (first :: rest) = Some l /\ end_ < Pulse.End l).
Proof.
  intros Hse Hwf.
  destruct (getPulses_chain config start end_ pulls users Hse Hwf)
    as (y & w & ws & Hrun & Hyw & Hchain & Hfirst).
  pose proof (pulseChain_windows _ _ _ _ Hchain Hyw) as Hall.
  rewrite Forall_forall in Hall.
  pose proof nsPerDay_pos as Hd.
  destruct ws as [|first rest]; [inversion Hchain; lia|].
  exists first, rest. split; [exact Hrun|].
  split; [rewrite (pulseChain_head _ _ _ _ _ Hchain); lia|].
  split; [intros a Hin; destruct (Hall a Hin) as (? & ? & _); split; [lia | assumption]|].
  split.
  - intros i j a b Hij Ha Hb.
    assert (Hin : a ∈ first :: rest) by (eapply list_elem_of_lookup_2; eassumption).
    destruct (Hall a Hin) as (_ & Hlen & _).
    pose proof (pulseChain_ordered _ _ _ _ Hchain Hyw i j a b Hij Ha Hb). lia.
  - destruct (last (first :: rest)) as [l|] eqn:Hl.
    + exists l. split; [reflexivity|]. eapply pulseChain_last; eassumption.
    + apply last_None in Hl. discriminate.
Qed.

Lemma getPulses_terminates_witness :
  Examples.scanStart <= Examples.scanEnd
  /\ Forall (fun p => closedWhenTerminal p = true) Examples.pulls
  /\ exists first rest,
       getPulses Examples.defaults Examples.scanStart Examples.scanEnd Examples.pulls
                 (getUsers Examples.defaults Examples.now Examples.pulls)
       = Ok (first :: rest)
       /\ Examples.scanStart - 14 * nsPerDay < Pulse.Start first <= Examples.scanStart
       /\ (forall a, a ∈ first :: rest ->
             Pulse.Start a <= Examples.scanEnd
             /\ (Pulse.End a = Pulse.Start a + 14 * nsPerDay
                 \/ Pulse.End a = Pulse.Start a + 7 * nsPerDay))
       /\ (forall (i j : nat) a b,
             (i < j)%nat -> (first :: rest) !! i = Some a -> (first :: rest) !! j = Some b ->
             Pulse.Start a < Pulse.Start b)
       /\ (exists l, last (first :: rest) = Some l /\ Examples.scanEnd < Pulse.End l).
Proof.
  assert (H1 : Examples.scanStart <= Examples.scanEnd) by (vm_compute; discriminate).
  assert (H2 : Forall (fun p => closedWhenTerminal p = true) Examples.pulls)
    by (repeat constructor).
  split; [exact H1|]. split; [exact H2|].
  apply (getPulses_terminates _ _ _ _ _ H1 H2).
Defined.

End PulseWindowProperties.

(** * Classification *)

Section Classifier.

Import Isoweek.

Lemma pulsePulls_one config p start end_ :
  pulsePulls config [p] start end_ = pulsePullsStep config start end_ [] p.
Proof.
  unfold pulsePulls. cbn [pulsePullsLoop].
  destruct (pulsePullsStep config start end_ [] p); reflexivity.
Qed.

Lemma pulsePulls_not_allowlisted config p start end_ :
  allowlistedUser config (Login p) = false ->
  pulsePulls config [p] start end_ = Ok [].
Proof. intros H. rewrite pulsePulls_one. unfold pulsePullsStep. now rewrite H. Qed.

Lemma pulsePulls_terminal config p c start end_ :
  allowlistedUser config (Login p) = true ->
  State p <> "OPEN"%string ->
  ClosedAt p = Some c ->
  pulsePulls config [p] start end_
  = Ok (if (start <=? c) && (c <? end_) && (CreatedAt p <? end_)
        then [terminalPull p] else []).
Proof.
  intros Hallow Hstate Hclosed. rewrite pulsePulls_one. unfold pulsePullsStep.
  rewrite Hallow, Hclosed. apply String.eqb_neq in Hstate. rewrite Hstate.
  unfold Before. cbn [negb deref]. rewrite bind_Ok.
  destruct (Z.ltb_spec c start), (Z.leb_spec start c); try lia; cbn [negb andb];
    [reflexivity|].
  destruct (CreatedAt p <? end_), (c <? end_); reflexivity.
Qed.

Lemma pulsePulls_open config p start end_ :
  allowlistedUser config (Login p) = true ->
  State p = "OPEN"%string ->
  ClosedAt p = None ->
  pulsePulls config [p] start end_
  = Ok (if CreatedAt p <? end_ then [openPull p] else []).
Proof.
  intros Hallow Hstate Hclosed. rewrite pulsePulls_one. unfold pulsePullsStep.
  rewrite Hallow, Hclosed, Hstate. unfold Before. cbn.
  destruct (CreatedAt p <? end_); reflexivity.
Qed.

Lemma pulseChain_cover end_ y w ws :
  pulseChain end_ y w ws ->
  forall c l, StartTime y w <= c -> last ws = Some l -> c < Pulse.End l ->
  exists (i : nat) a, ws !! i = Some a /\ Pulse.Start a <= c < Pulse.End a.
Proof.
  induction 1 as [y w Hstop | y w p ws Hle Hs He Hchain IH]; intros c l Hc Hl Hlt.
  - discriminate.
  - destruct (Z.lt_ge_cases c (Pulse.End p)) as [Hin|Hout].
    + exists 0%nat, p. split; [reflexivity | lia].
    + destruct ws as [|q ws]; [cbn in Hl; injection Hl as <-; lia|].
      destruct (IH c l) as (i & a & Ha & Hca); [lia | exact Hl | exact Hlt |].
      exists (S i), a. split; assumption.
Qed.

(** The windows of a scan, with all that the classification needs of them. *)
Lemma getPulses_windows config start end_ pulls users :
  start <= end_ ->
  Forall (fun p => closedWhenTerminal p = true) pulls ->
  exists first rest l,
    getPulses config start end_ pulls users = Ok (first :: rest)
    /\ last (first :: rest) = Some l
    /\ Pulse.Start first <= start
    /\ end_ < Pulse.End l
    /\ (forall a, a ∈ first :: rest ->
          Pulse.Start a < Pulse.End a
          /\ Pulse.Start first <= Pulse.Start a
          /\ Pulse.End a <= Pulse.End l)
    /\ (forall (i j : nat) a b,
          (i < j)%nat -> (first :: rest) !! i = Some a -> (first :: rest) !! j = Some b ->
          Pulse.End a <= Pulse.Start b)
    /\ (forall c, Pulse.Start first <= c < Pulse.End l ->
          exists (i : nat) a,
            (first :: rest) !! i = Some a /\ Pulse.Start a <= c < Pulse.End a).
Proof.
  intros Hse Hwf.
  destruct (getPulses_chain config start end_ pulls users Hse Hwf)
    as (y & w & ws & Hrun & Hyw & Hchain & Hfirst).
  pose proof (pulseChain_windows _ _ _ _ Hchain Hyw) as Hall.
  rewrite Forall_forall in Hall.
  pose proof (pulseChain_ordered _ _ _ _ Hchain Hyw) as Hord.
  pose proof nsPerDay_pos as Hd.
  destruct ws as [|first rest]; [inversion Hchain; lia|].
  pose proof (pulseChain_head _ _ _ _ _ Hchain) as Hhead.
  destruct (last (first :: rest)) as [l|] eqn:Hl;
    [|apply last_None in Hl; discriminate].
  assert (Hlen : forall a, a ∈ first :: rest -> Pulse.Start a < Pulse.End a).
  { intros a Hin. destruct (Hall a Hin) as (_ & ? & _). lia. }
  exists first, rest, l. split; [exact Hrun|]. split; [exact Hl|].
  split; [lia|]. split; [eapply pulseChain_last; eassumption|].
  split; [|split].
  - intros a Hin. split; [auto|]. split; [destruct (Hall a Hin); lia|].
    pose proof Hin as Hin'. apply list_elem_of_lookup_1 in Hin' as [i Hi].
    rewrite last_lookup in Hl.
    destruct (Nat.lt_ge_cases i (pred (length (first :: rest)))) as [Hlt|Hge].
    + pose proof (Hord i _ a l Hlt Hi Hl).
      assert (l ∈ first :: rest) by (eapply list_elem_of_lookup_2; eassumption).
      pose proof (Hlen l ltac:(assumption)). lia.
    + pose proof (lookup_lt_Some _ _ _ Hi) as Hb.
      assert (i = pred (length (first :: rest))) as -> by lia.
      rewrite Hi in Hl. injection Hl as ->. lia.
  - exact Hord.
  - intros c Hc. eapply pulseChain_cover; [eassumption | lia | eassumption | lia].
Qed.

End Classifier.

Section ClassifierProperties.

Lemma filter_from {A : Type} (f : A -> bool) (ws : list A) :
  forall k : nat,
    (forall (i : nat) a, ws !! i = Some a -> f a = (k <=? i)%nat) ->
    List.filter f ws = drop k ws.
Proof.
  induction ws as [|a ws IH]; intros k H; [now destruct k|].
  cbn [List.filter]. rewrite (H 0%nat a eq_refl).
  destruct k as [|k]; cbn [Nat.leb drop].
  - f_equal. rewrite (IH 0%nat); [reflexivity|]. intros i b Hb. apply (H (S i) b Hb).
  - apply IH. intros i b Hb. apply (H (S i) b Hb).
Qed.

(** C5, as the code has it: take a pull request that is no longer open,
    with its close time [c], whose author passes the allowlist and that was
    not closed before it was created.  In the windows of a scan it is
    classified in the window whose [[Start, End)] holds [c], as one [Pull]
    that is merged when a merge time is present and churned otherwise, and in
    no other window: so in exactly one window when [c] lies in the scanned
    range and in none when it does not. *)
Theorem terminal_pull_in_one_window config start end_ pulls users p c :
  start <= end_ ->
  Forall (fun p => closedWhenTerminal p = true) pulls ->
  allowlistedUser config (Login p) = true ->
  State p <> "OPEN"%string ->
  ClosedAt p = Some c ->
  CreatedAt p <= c ->
  exists first rest l,
    getPulses config start end_ pulls users = Ok (first :: rest)
    /\ last (first :: rest) = Some l
    /\ (forall a, a ∈ first :: rest ->
          pulsePulls config [p] (Pulse.Start a) (Pulse.End a)
          = Ok (if (Pulse.Start a <=? c) && (c <? Pulse.End a)
                then [terminalPull p] else []))
    /\ (forall (i j : nat) a b,
          (first :: rest) !! i = Some a -> (first :: rest) !! j = Some b ->
          Pulse.Start a <= c < Pulse.End a -> Pulse.Start b <= c < Pulse.End b ->
          i = j)
    /\ (Pulse.Start first <= c < Pulse.End l ->
        exists (i : nat) a,
          (first :: rest) !! i = Some a /\ Pulse.Start a <= c < Pulse.End a)
    /\ (c < Pulse.Start first \/ Pulse.End l <= c ->
        forall a, a ∈ first :: rest ->
          pulsePulls config [p] (Pulse.Start a) (Pulse.End a) = Ok [])
    /\ Open (terminalPull p) = false
    /\ (MergedAt p <> None ->
        Merged (terminalPull p) = true /\ Closed (terminalPull p) = false)
    /\ (MergedAt p = None ->
        Merged (terminalPull p) = false /\ Closed (terminalPull p) = true).
Proof.
  intros Hse Hwf Hallow Hstate Hclosed Hcreated.
  destruct (getPulses_windows config start end_ pulls users Hse Hwf)
    as (first & rest & l & Hrun & Hl & _ & _ & Hin & Hord & Hcover).
  assert (Hcls : forall a, a ∈ first :: rest ->
            pulsePulls config [p] (Pulse.Start a) (Pulse.End a)
            = Ok (if (Pulse.Start a <=? c) && (c <? Pulse.End a)
                  then [terminalPull p] else [])).
  { intros a Ha. rewrite (pulsePulls_terminal config p c) by assumption. f_equal.
    destruct (Z.leb_spec (Pulse.Start a) c), (Z.ltb_spec c (Pulse.End a)),
      (Z.ltb_spec (CreatedAt p) (Pulse.End a)); cbn [andb]; (reflexivity || lia). }
  exists first, rest, l.
  split; [exact Hrun|]. split; [exact Hl|]. split; [exact Hcls|].
  split; [|split; [exact (Hcover c)|split; [|split; [reflexivity|split]]]].
  - intros i j a b Ha Hb Hca Hcb.
    destruct (Nat.lt_trichotomy i j) as [Hlt|[Heq|Hgt]]; [|exact Heq|].
    + pose proof (Hord i j a b Hlt Ha Hb). lia.
    + pose proof (Hord j i b a Hgt Hb Ha). lia.
  - intros Hout a Ha. rewrite (Hcls a Ha). destruct (Hin a Ha) as (_ & Hlo & Hhi).
    destruct (Z.leb_spec (Pulse.Start a) c), (Z.ltb_spec c (Pulse.End a));
      cbn [andb]; (reflexivity || lia).
  - unfold terminalPull. destruct (MergedAt p); [split; reflexivity | congruence].
  - unfold terminalPull. intros ->. split; reflexivity.
Qed.

Lemma terminal_pull_in_one_window_witness :
  exists first rest l,
    getPulses Examples.defaults Examples.scanStart Examples.scanEnd Examples.pulls
              (getUsers Examples.defaults Examples.now Examples.pulls)
    = Ok (first :: rest)
    /\ last (first :: rest) = Some l
    /\ (forall a, a ∈ first :: rest ->
          pulsePulls Examples.defaults [Examples.mergedPr] (Pulse.Start a) (Pulse.End a)
          = Ok (if (Pulse.Start a <=? Date 2024 1 10) && (Date 2024 1 10 <? Pulse.End a)
                then [terminalPull Examples.mergedPr] else []))
    /\ (forall (i j : nat) a b,
          (first :: rest) !! i = Some a -> (first :: rest) !! j = Some b ->
          Pulse.Start a <= Date 2024 1 10 < Pulse.End a ->
          Pulse.Start b <= Date 2024 1 10 < Pulse.End b ->
          i = j)
    /\ (Pulse.Start first <= Date 2024 1 10 < Pulse.End l ->
        exists (i : nat) a,
          (first :: rest) !! i = Some a /\ Pulse.Start a <= Date 2024 1 10 < Pulse.End a)
    /\ (Date 2024 1 10 < Pulse.Start first \/ Pulse.End l <= Date 2024 1 10 ->
        forall a, a ∈ first :: rest ->
          pulsePulls Examples.defaults [Examples.mergedPr] (Pulse.Start a) (Pulse.End a)
          = Ok [])
    /\ Open (terminalPull Examples.mergedPr) = false
    /\ (MergedAt Examples.mergedPr <> None ->
        Merged (terminalPull Examples.mergedPr) = true
        /\ Closed (terminalPull Examples.mergedPr) = false)
    /\ (MergedAt Examples.mergedPr = None ->
        Merged (terminalPull Examples.mergedPr) = false
        /\ Closed (terminalPull Examples.mergedPr) = true).
Proof.
  apply (terminal_pull_in_one_window Examples.defaults Examples.scanStart Examples.scanEnd
           Examples.pulls (getUsers Examples.defaults Examples.now Examples.pulls)
           Examples.mergedPr (Date 2024 1 10)).
  - vm_compute; discriminate.
  - repeat constructor.
  - reflexivity.
  - discriminate.
  - reflexivity.
  - vm_compute; discriminate.
Defined.

(** C5 as stated fails.  With the allowlist [["alice"]], the pull of "bob"
    merged on 2024-01-12, inside the first window of the scan, is classified
    in no window; without the allowlist that window classifies it.  And a
    pull closed in the first window but created only in the second is
    classified in no window either: the classifier also asks that the pull
    was created before the end of the window. *)
Lemma terminal_pull_in_one_window_counterexample :
  exists first rest,
    getPulses Examples.onlyAlice Examples.scanStart Examples.scanEnd
              [Examples.bobMergedPr; Examples.closedBeforeCreatedPr]
              (getUsers Examples.onlyAlice Examples.now
                        [Examples.bobMergedPr; Examples.closedBeforeCreatedPr])
    = Ok (first :: rest)
    /\ State Examples.bobMergedPr <> "OPEN"%string
    /\ ClosedAt Examples.bobMergedPr = Some (Date 2024 1 12)
    /\ State Examples.closedBeforeCreatedPr <> "OPEN"%string
    /\ ClosedAt Examples.closedBeforeCreatedPr = Some (Date 2024 1 12)
    /\ Pulse.Start first <= Date 2024 1 12 < Pulse.End first
    /\ (forall a, a ∈ first :: rest ->
          pulsePulls Examples.onlyAlice [Examples.bobMergedPr]
                     (Pulse.Start a) (Pulse.End a) = Ok [])
    /\ pulsePulls (unrestricted Examples.onlyAlice) [Examples.bobMergedPr]
                  (Pulse.Start first) (Pulse.End first)
       = Ok [terminalPull Examples.bobMergedPr]
    /\ allowlistedUser Examples.onlyAlice (Login Examples.closedBeforeCreatedPr) = true
    /\ (forall a, a ∈ first :: rest ->
          pulsePulls Examples.onlyAlice [Examples.closedBeforeCreatedPr]
                     (Pulse.Start a) (Pulse.End a) = Ok []).
Proof.
  eexists. eexists. split; [vm_compute; reflexivity|].
  split; [discriminate|]. split; [reflexivity|].
  split; [discriminate|]. split; [reflexivity|].
  split; [split; vm_compute; [discriminate | reflexivity]|].
  split.
  { intros a Ha. now apply pulsePulls_not_allowlisted. }
  split; [vm_compute; reflexivity|]. split; [reflexivity|].
  intros a Ha.
  repeat (apply elem_of_cons in Ha as [->|Ha]; [vm_compute; reflexivity|]).
  apply elem_of_nil in Ha. destruct Ha.
Qed.

(** C7, as the code has it: take a pull request in state OPEN, with no
    close time, whose author passes the allowlist.  In the windows of a scan
    it is classified, as one
    open [Pull], in every window whose [End] is strictly after its creation
    time, and in no other; these are the windows from the one that holds its
    creation time to the last window of the scan, so it is counted once in
    each of them. *)
Theorem open_pull_in_every_later_window config start end_ pulls users p :
  start <= end_ ->
  Forall (fun p => closedWhenTerminal p = true) pulls ->
  allowlistedUser config (Login p) = true ->
  State p = "OPEN"%string ->
  ClosedAt p = None ->
  exists first rest,
    getPulses config start end_ pulls users = Ok (first :: rest)
    /\ (forall a, a ∈ first :: rest ->
          pulsePulls config [p] (Pulse.Start a) (Pulse.End a)
          = Ok (if CreatedAt p <? Pulse.End a then [openPull p] else []))
    /\ (forall a, a ∈ first :: rest ->
          openIn config p a = true <-> CreatedAt p < Pulse.End a)
    /\ (forall (k : nat) a,
          (first :: rest) !! k = Some a ->
          Pulse.Start a <= CreatedAt p < Pulse.End a ->
          List.filter (openIn config p) (first :: rest) = drop k (first :: rest)
          /\ length (List.filter (openIn config p) (first :: rest))
             = (length (first :: rest) - k)%nat)
    /\ (CreatedAt p < Pulse.Start first ->
        List.filter (openIn config p) (first :: rest) = first :: rest).
Proof.
  intros Hse Hwf Hallow Hstate Hclosed.
  destruct (getPulses_windows config start end_ pulls users Hse Hwf)
    as (first & rest & l & Hrun & Hl & _ & _ & Hin & Hord & _).
  assert (Hcls : forall a,
            pulsePulls config [p] (Pulse.Start a) (Pulse.End a)
            = Ok (if CreatedAt p <? Pulse.End a then [openPull p] else [])).
  { intros a. now apply pulsePulls_open. }
  assert (Hopen : forall a, openIn config p a = (CreatedAt p <? Pulse.End a)).
  { intros a. unfold openIn. rewrite Hcls.
    destruct (CreatedAt p <? Pulse.End a); reflexivity. }
  exists first, rest. split; [exact Hrun|].
  split; [intros a _; apply Hcls|].
  split; [intros a _; rewrite Hopen; apply Z.ltb_lt|].
  split.
  - intros k a Ha Hca.
    assert (E : List.filter (openIn config p) (first :: rest) = drop k (first :: rest)).
    { apply filter_from. intros i b Hb. rewrite Hopen.
      assert (Hbin : b ∈ first :: rest) by (eapply list_elem_of_lookup_2; eassumption).
      destruct (Hin b Hbin) as (Hblen & _ & _).
      destruct (Nat.leb_spec k i) as [Hki|Hik].
      - apply Z.ltb_lt.
        destruct (Nat.eq_dec k i) as [->|Hne].
        + rewrite Ha in Hb. injection Hb as <-. lia.
        + pose proof (Hord k i a b ltac:(lia) Ha Hb). lia.
      - apply Z.ltb_ge. pose proof (Hord i k b a Hik Hb Ha). lia. }
    split; [exact E|]. rewrite E. apply length_drop.
  - intros Hbefore.
    change (first :: rest) with (drop 0 (first :: rest)) at 2.
    apply filter_from. intros i b Hb. rewrite Hopen. cbn [Nat.leb].
    assert (Hbin : b ∈ first :: rest) by (eapply list_elem_of_lookup_2; eassumption).
    destruct (Hin b Hbin) as (Hblen & Hlo & _). apply Z.ltb_lt. lia.
Qed.

Lemma open_pull_in_every_later_window_witness :
  exists first rest,
    getPulses Examples.defaults Examples.scanStart Examples.scanEnd Examples.pulls
              (getUsers Examples.defaults Examples.now Examples.pulls)
    = Ok (first :: rest)
    /\ (forall a, a ∈ first :: rest ->
          pulsePulls Examples.defaults [Examples.openPr] (Pulse.Start a) (Pulse.End a)
          = Ok (if CreatedAt Examples.openPr <? Pulse.End a
                then [openPull Examples.openPr] else []))
    /\ (forall a, a ∈ first :: rest ->
          openIn Examples.defaults Examples.openPr a = true
          <-> CreatedAt Examples.openPr < Pulse.End a)
    /\ (forall (k : nat) a,
          (first :: rest) !! k = Some a ->
          Pulse.Start a <= CreatedAt Examples.openPr < Pulse.End a ->
          List.filter (openIn Examples.defaults Examples.openPr) (first :: rest)
          = drop k (first :: rest)
          /\ length (List.filter (openIn Examples.defaults Examples.openPr) (first :: rest))
             = (length (first :: rest) - k)%nat)
    /\ (CreatedAt Examples.openPr < Pulse.Start first ->
        List.filter (openIn Examples.defaults Examples.openPr) (first :: rest)
        = first :: rest).
Proof.
  apply (open_pull_in_every_later_window Examples.defaults Examples.scanStart
           Examples.scanEnd Examples.pulls
           (getUsers Examples.defaults Examples.now Examples.pulls) Examples.openPr).
  - vm_compute; discriminate.
  - repeat constructor.
  - reflexivity.
  - reflexivity.
  - reflexivity.
Defined.

(** C7 as stated fails: with the allowlist [["alice"]], the open pull of
    "bob", created before the end of the first window of the scan, is
    counted as open in no window. *)
Lemma open_pull_in_every_later_window_counterexample :
  exists first rest,
    getPulses Examples.onlyAlice Examples.scanStart Examples.scanEnd
              [Examples.openPr]
              (getUsers Examples.onlyAlice Examples.now [Examples.openPr])
    = Ok (first :: rest)
    /\ State Examples.openPr = "OPEN"%string
    /\ ClosedAt Examples.openPr = None
    /\ (forall a, a ∈ first :: rest -> CreatedAt Examples.openPr < Pulse.End a)
    /\ (forall a, a ∈ first :: rest ->
          pulsePulls Examples.onlyAlice [Examples.openPr]
                     (Pulse.Start a) (Pulse.End a) = Ok []
          /\ openIn Examples.onlyAlice Examples.openPr a = false)
    /\ List.filter (openIn Examples.onlyAlice Examples.openPr) (first :: rest) = [].
Proof.
  eexists. eexists. split; [vm_compute; reflexivity|].
  split; [reflexivity|]. split; [reflexivity|].
  assert (Hnone : forall a,
            pulsePulls Examples.onlyAlice [Examples.openPr]
                       (Pulse.Start a) (Pulse.End a) = Ok [])
    by (intros a; now apply pulsePulls_not_allowlisted).
  assert (Hopen : forall a, openIn Examples.onlyAlice Examples.openPr a = false)
    by (intros a; unfold openIn; now rewrite Hnone).
  split.
  { intros a Ha.
    repeat (apply elem_of_cons in Ha as [->|Ha]; [vm_compute; reflexivity|]).
    apply elem_of_nil in Ha. destruct Ha. }
  split; [intros a _; split; [apply Hnone | apply Hopen]|].
  cbn [List.filter]. now rewrite !Hopen.
Qed.

End ClassifierProperties.

(** * The allowlist *)

Section Allowlist.

Lemma allowlistedUser_iff config login :
  allowlistedUser config login = true
  <-> Allowlist config = [] \/ In login (Allowlist config).
Proof.
  unfold allowlistedUser. destruct (Allowlist config) as [|u l] eqn:E.
  - cbn. tauto.
  - replace (Z.of_nat (length (u :: l)) =? 0) with false
      by (symmetry; apply Z.eqb_neq; cbn [length]; lia).
    rewrite existsb_exists. split.
    + intros (x & Hx & Heq). apply String.eqb_eq in Heq. subst. now right.
    + intros [H|H]; [discriminate|]. exists login. split; [exact H | apply String.eqb_refl].
Qed.

Lemma allowlistedUser_unrestricted config login :
  allowlistedUser (unrestricted config) login = true.
Proof. reflexivity. Qed.

Lemma pulsePullsStep_unrestricted config start end_ acc p :
  allowlistedUser config (Login p) = true ->
  pulsePullsStep config start end_ acc p
  = pulsePullsStep (unrestricted config) start end_ acc p.
Proof.
  intros H. unfold pulsePullsStep. now rewrite H, allowlistedUser_unrestricted.
Qed.

Lemma pulsePulls_filter config pulls start end_ :
  pulsePulls config pulls start end_
  = pulsePulls (unrestricted config)
               (List.filter (fun p => allowlistedUser config (Login p)) pulls)
               start end_.
Proof.
  induction pulls as [|p rest IH]; [reflexivity|].
  rewrite pulsePulls_cons, IH. cbn [List.filter].
  destruct (allowlistedUser config (Login p)) eqn:Hp.
  - rewrite (pulsePulls_cons (unrestricted config)).
    now rewrite !pulsePulls_one, pulsePullsStep_unrestricted.
  - rewrite pulsePulls_not_allowlisted by exact Hp. rewrite bind_Ok.
    destruct (pulsePulls (unrestricted config) _ start end_); reflexivity.
Qed.

Lemma countContributor_comm config start end_ j1 z1 j2 z2 y :
  countContributor config start end_ j1 z1 (countContributor config start end_ j2 z2 y)
  = countContributor config start end_ j2 z2 (countContributor config start end_ j1 z1 y).
Proof.
  unfold countContributor.
  destruct (negb (allowlistedUser config j1)), (negb (allowlistedUser config j2)),
    (Before (User.Start z1) end_ && negb (Before (User.End z1) start)),
    (Before (User.Start z2) end_ && negb (Before (User.End z2) start)); lia.
Qed.

Lemma pulseContributors_insert config (users : gmap string User.t) start end_ k v :
  users !! k = None ->
  pulseContributors config (<[k := v]> users) start end_
  = countContributor config start end_ k v (pulseContributors config users start end_).
Proof.
  intros Hk. unfold pulseContributors.
  apply map_fold_insert_L; [|exact Hk].
  intros. apply countContributor_comm.
Qed.

Lemma pulseContributors_filter config (users : gmap string User.t) start end_ :
  pulseContributors config users start end_
  = pulseContributors (unrestricted config)
      (filter (fun kv => allowlistedUser config kv.1 = true) users) start end_.
Proof.
  induction users as [|k v users Hk IH] using map_ind.
  - now rewrite map_filter_empty.
  - rewrite pulseContributors_insert by exact Hk.
    destruct (allowlistedUser config k) eqn:Hallow.
    + rewrite map_filter_insert_True by exact Hallow.
      rewrite pulseContributors_insert
        by (apply map_lookup_filter_None; left; exact Hk).
      rewrite <- IH. unfold countContributor.
      now rewrite Hallow, allowlistedUser_unrestricted.
    + rewrite map_filter_insert_not' ; [| cbn; congruence | intros y Hy; congruence].
      rewrite <- IH. unfold countContributor. now rewrite Hallow.
Qed.

(** C1, as the code has it: a configured, non-empty allowlist restricts the
    pulls as much as the contributors.  A login passes when the allowlist is
    empty or holds it; [pulsePulls] classifies the pulls of the logins that
    pass and no other, and [pulseContributors] counts the contributors that
    pass and no other; a pull whose author is absent from a non-empty
    allowlist is in no window's classified set. *)
Theorem allowlist_restricts_pulls_and_contributors config :
  (forall login,
      allowlistedUser config login = true
      <-> Allowlist config = [] \/ In login (Allowlist config))
  /\ (forall pulls start end_,
        pulsePulls config pulls start end_
        = pulsePulls (unrestricted config)
            (List.filter (fun p => allowlistedUser config (Login p)) pulls) start end_)
  /\ (forall (users : gmap string User.t) start end_,
        pulseContributors config users start end_
        = pulseContributors (unrestricted config)
            (filter (fun kv => allowlistedUser config kv.1 = true) users) start end_)
  /\ (forall p start end_,
        Allowlist config <> [] -> ~ In (Login p) (Allowlist config) ->
        pulsePulls config [p] start end_ = Ok []).
Proof.
  split; [apply allowlistedUser_iff|].
  split; [apply pulsePulls_filter|].
  split; [apply pulseContributors_filter|].
  intros p start end_ Hne Hnotin. apply pulsePulls_not_allowlisted.
  destruct (allowlistedUser config (Login p)) eqn:H; [|reflexivity].
  apply allowlistedUser_iff in H. tauto.
Qed.

(** C1 as stated fails: with the allowlist [["alice"]], the open pull of
    "bob" is dropped from the classified set of the window of 2024-01-01,
    which holds it when the allowlist is empty; the raw open count of the
    window is 0 instead of 1. *)
Lemma allowlist_keeps_pulls_counterexample :
  pulsePulls Examples.onlyAlice [Examples.openPr]
    (Isoweek.StartTime 2024 1) (Isoweek.StartTime 2024 3) = Ok []
  /\ pulsePulls (unrestricted Examples.onlyAlice) [Examples.openPr]
       (Isoweek.StartTime 2024 1) (Isoweek.StartTime 2024 3)
     = Ok [openPull Examples.openPr]
  /\ ~ (forall config pulls start end_,
          pulsePulls config pulls start end_
          = pulsePulls (unrestricted config) pulls start end_).
Proof.
  assert (H1 : pulsePulls Examples.onlyAlice [Examples.openPr]
                 (Isoweek.StartTime 2024 1) (Isoweek.StartTime 2024 3) = Ok [])
    by (vm_compute; reflexivity).
  assert (H2 : pulsePulls (unrestricted Examples.onlyAlice) [Examples.openPr]
                 (Isoweek.StartTime 2024 1) (Isoweek.StartTime 2024 3)
               = Ok [openPull Examples.openPr])
    by (vm_compute; reflexivity).
  split; [exact H1|]. split; [exact H2|].
  intros H. specialize (H Examples.onlyAlice [Examples.openPr]
                          (Isoweek.StartTime 2024 1) (Isoweek.StartTime 2024 3)).
  rewrite H1, H2 in H. discriminate.
Qed.

End Allowlist.

(** * The float32 division *)

Section Rounding.

Lemma roundHalfEven_error n d :
  0 < d -> 2 * Z.abs (roundHalfEven n d * d - n) <= d.
Proof.
  intros Hd. unfold roundHalfEven.
  pose proof (Z.div_mod n d ltac:(lia)) as E.
  pose proof (Z.mod_pos_bound n d Hd) as B.
  revert E B. generalize (n / d) (n mod d). intros q r E B.
  destruct (Z.ltb_spec (2 * r) d); [lia|].
  destruct (Z.ltb_spec d (2 * r)); [lia|].
  destruct (Z.even q); lia.
Qed.

Lemma roundHalfEven_ge n d k :
  0 < d -> k * d <= n -> k <= roundHalfEven n d.
Proof.
  intros Hd H. unfold roundHalfEven.
  pose proof (Z.div_mod n d ltac:(lia)) as E.
  pose proof (Z.mod_pos_bound n d Hd) as B.
  revert E B. generalize (n / d) (n mod d). intros q r E B.
  assert (k <= q) by nia.
  destruct (Z.ltb_spec (2 * r) d); [lia|].
  destruct (Z.ltb_spec d (2 * r)); [lia|].
  destruct (Z.even q); lia.
Qed.

Lemma roundHalfEven_le n d k :
  0 < d -> n <= k * d -> roundHalfEven n d <= k.
Proof.
  intros Hd H. unfold roundHalfEven.
  pose proof (Z.div_mod n d ltac:(lia)) as E.
  pose proof (Z.mod_pos_bound n d Hd) as B.
  revert E B. generalize (n / d) (n mod d). intros q r E B.
  assert (q <= k) by nia.
  assert (0 < r -> q + 1 <= k) by nia.
  destruct (Z.ltb_spec (2 * r) d); [lia|].
  destruct (Z.ltb_spec d (2 * r)); [lia|].
  destruct (Z.even q); lia.
Qed.

(** Rounding is monotone: of two fractions, the larger does not round to
    the smaller integer. *)
Lemma roundHalfEven_mono n1 d1 n2 d2 :
  0 < d1 -> 0 < d2 -> n1 * d2 <= n2 * d1 ->
  roundHalfEven n1 d1 <= roundHalfEven n2 d2.
Proof.
  intros Hd1 Hd2 H. unfold roundHalfEven.
  pose proof (Z.div_mod n1 d1 ltac:(lia)) as E1.
  pose proof (Z.mod_pos_bound n1 d1 Hd1) as B1.
  pose proof (Z.div_mod n2 d2 ltac:(lia)) as E2.
  pose proof (Z.mod_pos_bound n2 d2 Hd2) as B2.
  revert E1 B1 E2 B2.
  generalize (n1 / d1) (n1 mod d1) (n2 / d2) (n2 mod d2). intros q1 r1 q2 r2 E1 B1 E2 B2.
  subst n1 n2.
  assert (Hr2 : r2 * d1 < d2 * d1) by (apply Z.mul_lt_mono_pos_r; lia).
  assert (Hr1 : 0 <= r1 * d2) by (apply Z.mul_nonneg_nonneg; lia).
  assert (Hq : q1 <= q2).
  { apply Z.lt_succ_r. apply (Z.mul_lt_mono_pos_l (d1 * d2)); [lia|]. lia. }
  destruct (Z.eq_dec q1 q2) as [->|Hne].
  - assert (Hr : r1 * d2 <= r2 * d1) by lia.
    destruct (Z.ltb_spec (2 * r1) d1), (Z.ltb_spec (2 * r2) d2),
      (Z.ltb_spec d1 (2 * r1)), (Z.ltb_spec d2 (2 * r2)); try lia; try nia;
      destruct (Z.even q2); lia || nia.
  - assert (q1 + 1 <= q2) by lia.
    destruct (Z.ltb_spec (2 * r1) d1), (Z.ltb_spec (2 * r2) d2),
      (Z.ltb_spec d1 (2 * r1)), (Z.ltb_spec d2 (2 * r2)); try lia;
      destruct (Z.even q1), (Z.even q2); lia.
Qed.


Lemma log2_bounds n : 0 < n -> 2 ^ Z.log2 n <= n < 2 * 2 ^ Z.log2 n.
Proof.
  intros Hn. pose proof (Z.log2_spec n Hn) as H.
  rewrite Z.pow_succ_r in H by apply Z.log2_nonneg. exact H.
Qed.

(** The quotient scaled by the exponent has 24 bits. *)
Lemma exponent32_bounds n d :
  0 < n -> 0 < d ->
  2 ^ 23 * (d * 2 ^ Z.max 0 (exponent32 n d))
  <= n * 2 ^ Z.max 0 (- exponent32 n d)
  < 2 ^ 24 * (d * 2 ^ Z.max 0 (exponent32 n d)).
Proof.
  intros Hn Hd. unfold exponent32.
  pose proof (log2_bounds n Hn) as Ln. pose proof (log2_bounds d Hd) as Ld.
  pose proof (Z.log2_nonneg n) as Ha. pose proof (Z.log2_nonneg d) as Hb.
  revert Ln Ld Ha Hb. generalize (Z.log2 n) (Z.log2 d). intros a b Ln Ld Ha Hb.
  change (2 ^ 23) with 8388608. change (2 ^ 24) with 16777216.
  pose proof (Z.pow_pos_nonneg 2 b ltac:(lia) ltac:(lia)) as HB.
  destruct (Z.le_gt_cases 1 (a - b - 23)) as [Hpos|Hneg].
  - (* the quotient is at least 2^24: the denominator is scaled *)
    assert (Ea : 2 ^ a = 2 ^ b * (8388608 * (2 * 2 ^ (a - b - 24)))).
    { replace a with (b + (23 + Z.succ (a - b - 24))) at 1 by lia.
      rewrite Z.pow_add_r, Z.pow_add_r, Z.pow_succ_r by lia. reflexivity. }
    pose proof (Z.pow_pos_nonneg 2 (a - b - 24) ltac:(lia) ltac:(lia)) as HE.
    replace (Z.max 0 (- (a - b - 23))) with 0 by lia.
    replace (Z.max 0 (a - b - 23)) with (Z.succ (a - b - 24)) by lia.
    rewrite Z.pow_succ_r by lia. change (2 ^ 0) with 1.
    match goal with |- context [if ?c then _ else _] => destruct c eqn:Htest end.
    + apply Z.ltb_lt in Htest.
      replace (Z.max 0 (- (a - b - 23 - 1))) with 0 by lia.
      replace (Z.max 0 (a - b - 23 - 1)) with (a - b - 24) by lia.
      change (2 ^ 0) with 1.
      revert Ea HE HB Ln Ld Htest. generalize (2 ^ a) (2 ^ b) (2 ^ (a - b - 24)).
      intros A B E Ea HE HB Ln Ld Htest. subst A.
      assert (d * E < 2 * B * E) by (apply Z.mul_lt_mono_pos_r; lia).
      lia.
    + apply Z.ltb_ge in Htest.
      replace (Z.max 0 (- (a - b - 23))) with 0 by lia.
      replace (Z.max 0 (a - b - 23)) with (Z.succ (a - b - 24)) by lia.
      rewrite Z.pow_succ_r by lia. change (2 ^ 0) with 1.
      revert Ea HE HB Ln Ld Htest. generalize (2 ^ a) (2 ^ b) (2 ^ (a - b - 24)).
      intros A B E Ea HE HB Ln Ld Htest. subst A.
      assert (B * E <= d * E) by (apply Z.mul_le_mono_nonneg_r; lia).
      lia.
  - (* the quotient is below 2^24: the numerator is scaled *)
    assert (Eb : 2 ^ a * 2 ^ (b + 23 - a) = 2 ^ b * 8388608).
    { rewrite <- Z.pow_add_r by lia. replace (a + (b + 23 - a)) with (b + 23) by lia.
      rewrite Z.pow_add_r by lia. reflexivity. }
    pose proof (Z.pow_pos_nonneg 2 (b + 23 - a) ltac:(lia) ltac:(lia)) as HF.
    replace (Z.max 0 (- (a - b - 23))) with (b + 23 - a) by lia.
    replace (Z.max 0 (a - b - 23)) with 0 by lia.
    change (2 ^ 0) with 1.
    match goal with |- context [if ?c then _ else _] => destruct c eqn:Htest end.
    + apply Z.ltb_lt in Htest.
      replace (Z.max 0 (- (a - b - 23 - 1))) with (Z.succ (b + 23 - a)) by lia.
      replace (Z.max 0 (a - b - 23 - 1)) with 0 by lia.
      rewrite Z.pow_succ_r by lia. change (2 ^ 0) with 1.
      revert Eb HF HB Ln Ld Htest. generalize (2 ^ a) (2 ^ b) (2 ^ (b + 23 - a)).
      intros A B F Eb HF HB Ln Ld Htest.
      assert (A * F <= n * F) by (apply Z.mul_le_mono_nonneg_r; lia).
      lia.
    + apply Z.ltb_ge in Htest.
      replace (Z.max 0 (- (a - b - 23))) with (b + 23 - a) by lia.
      replace (Z.max 0 (a - b - 23)) with 0 by lia.
      change (2 ^ 0) with 1.
      revert Eb HF HB Ln Ld Htest. generalize (2 ^ a) (2 ^ b) (2 ^ (b + 23 - a)).
      intros A B F Eb HF HB Ln Ld Htest.
      assert (n * F < 2 * A * F) by (apply Z.mul_lt_mono_pos_r; lia).
      lia.
Qed.


Lemma pow2_pos e : 0 < 2 ^ Z.max 0 e.
Proof. apply Z.pow_pos_nonneg; lia. Qed.

(** Of the two scale factors of an exponent, one is 1. *)
Lemma pow2_cases e :
  (2 ^ Z.max 0 e = 1 /\ e <= 0) \/ (2 ^ Z.max 0 (- e) = 1 /\ 2 <= 2 ^ Z.max 0 e /\ 1 <= e).
Proof.
  destruct (Z.le_gt_cases e 0) as [H|H].
  - left. now replace (Z.max 0 e) with 0 by lia.
  - right. replace (Z.max 0 (- e)) with 0 by lia. split; [reflexivity|]. split; [|lia].
    replace (Z.max 0 e) with (Z.succ (e - 1)) by lia. rewrite Z.pow_succ_r by lia.
    pose proof (Z.pow_pos_nonneg 2 (e - 1) ltac:(lia) ltac:(lia)). lia.
Qed.

(** The scale factors of two exponents in order. *)
Lemma pow2_lt e1 e2 :
  e1 < e2 ->
  2 * (2 ^ Z.max 0 e1 * 2 ^ Z.max 0 (- e2)) <= 2 ^ Z.max 0 e2 * 2 ^ Z.max 0 (- e1).
Proof.
  intros H. rewrite <- !Z.pow_add_r by lia.
  rewrite <- (Z.pow_succ_r 2) by lia. apply Z.pow_le_mono_r; lia.
Qed.

(** What [round24] returns, on integers: the mantissa [m], the scale factors
    [S] and [T] of the exponent. *)
Lemma round24_spec n d :
  0 < n -> 0 < d ->
  exists m S T,
    round24 n d = (m * T) # Z.to_pos S
    /\ 0 < S /\ 0 < T
    /\ (T = 1 \/ (S = 1 /\ 2 <= T))
    /\ 8388608 * (d * T) <= n * S < 16777216 * (d * T)
    /\ m = roundHalfEven (n * S) (d * T)
    /\ 8388608 <= m <= 16777216
    /\ 2 * Z.abs (m * (d * T) - n * S) <= d * T.
Proof.
  intros Hn Hd. unfold round24, ldexp.
  pose proof (exponent32_bounds n d Hn Hd) as B.
  change (2 ^ 23) with 8388608 in B. change (2 ^ 24) with 16777216 in B.
  pose proof (pow2_pos (exponent32 n d)) as HT.
  pose proof (pow2_pos (- exponent32 n d)) as HS.
  pose proof (pow2_cases (exponent32 n d)) as C.
  revert B HT HS C.
  generalize (2 ^ Z.max 0 (exponent32 n d)) (2 ^ Z.max 0 (- exponent32 n d)).
  intros T S B HT HS C.
  exists (roundHalfEven (n * S) (d * T)), S, T.
  assert (HD : 0 < d * T) by lia.
  split; [reflexivity|]. split; [exact HS|]. split; [exact HT|].
  split; [lia|]. split; [exact B|]. split; [reflexivity|]. split.
  - split; [apply roundHalfEven_ge | apply roundHalfEven_le]; lia.
  - now apply roundHalfEven_error.
Qed.


Lemma round24_ge n d k :
  0 < n -> 0 < d -> k <= 16777216 -> k * d <= n ->
  (inject_Z k <= round24 n d)%Q.
Proof.
  intros Hn Hd Hk H.
  destruct (round24_spec n d Hn Hd) as (m & S & T & -> & HS & HT & C & B & Em & Bm & _).
  unfold Qle. cbn [Qnum Qden inject_Z]. rewrite Z2Pos.id by exact HS.
  destruct C as [->|[-> HT2]].
  - rewrite !Z.mul_1_r in *. rewrite Em. apply roundHalfEven_ge; [exact Hd|].
    rewrite <- Z.mul_assoc, (Z.mul_comm S d), Z.mul_assoc.
    apply Z.mul_le_mono_nonneg_r; lia.
  - assert (8388608 * 2 <= m * T) by (apply Z.mul_le_mono_nonneg; lia). lia.
Qed.

Lemma round24_le n d k :
  0 < n -> 0 < d -> k <= 16777216 -> n <= k * d ->
  (round24 n d <= inject_Z k)%Q.
Proof.
  intros Hn Hd Hk H.
  destruct (round24_spec n d Hn Hd) as (m & S & T & -> & HS & HT & C & B & Em & Bm & _).
  unfold Qle. cbn [Qnum Qden inject_Z]. rewrite Z2Pos.id by exact HS.
  destruct C as [->|[-> HT2]].
  - rewrite !Z.mul_1_r in *. rewrite Em. apply roundHalfEven_le; [exact Hd|].
    rewrite <- Z.mul_assoc, (Z.mul_comm S d), Z.mul_assoc.
    apply Z.mul_le_mono_nonneg_r; lia.
  - rewrite !Z.mul_1_r in *.
    assert (HdT : d * 2 <= d * T) by (apply Z.mul_le_mono_nonneg_l; lia).
    assert (Hkd : k * d <= 16777216 * d) by (apply Z.mul_le_mono_nonneg_r; lia).
    assert (T = 2) by nia. subst T.
    assert (k = 16777216) by nia. subst k.
    assert (m <= 8388608) by (rewrite Em; apply roundHalfEven_le; lia).
    lia.
Qed.

Lemma round24_pos n d : 0 < n -> 0 < d -> (0 < round24 n d)%Q.
Proof.
  intros Hn Hd.
  destruct (round24_spec n d Hn Hd) as (m & S & T & -> & HS & HT & _ & _ & _ & Bm & _).
  unfold Qlt. cbn [Qnum Qden]. nia.
Qed.



Lemma round24_mono n1 d1 n2 d2 :
  0 < n1 -> 0 < d1 -> 0 < n2 -> 0 < d2 -> n1 * d2 <= n2 * d1 ->
  (round24 n1 d1 <= round24 n2 d2)%Q.
Proof.
  intros Hn1 Hd1 Hn2 Hd2 H. unfold round24, ldexp.
  pose proof (exponent32_bounds n1 d1 Hn1 Hd1) as B1.
  pose proof (exponent32_bounds n2 d2 Hn2 Hd2) as B2.
  change (2 ^ 23) with 8388608 in B1, B2. change (2 ^ 24) with 16777216 in B1, B2.
  revert B1 B2. generalize (exponent32 n1 d1) (exponent32 n2 d2). intros e1 e2 B1 B2.
  pose proof (pow2_pos e1) as HT1. pose proof (pow2_pos (- e1)) as HS1.
  pose proof (pow2_pos e2) as HT2. pose proof (pow2_pos (- e2)) as HS2.
  unfold Qle. cbn [Qnum Qden]. rewrite !Z2Pos.id by assumption.
  assert (Bm1 : 8388608 <= roundHalfEven (n1 * 2 ^ Z.max 0 (- e1)) (d1 * 2 ^ Z.max 0 e1)
                <= 16777216)
    by (split; [apply roundHalfEven_ge | apply roundHalfEven_le]; lia).
  assert (Bm2 : 8388608 <= roundHalfEven (n2 * 2 ^ Z.max 0 (- e2)) (d2 * 2 ^ Z.max 0 e2)
                <= 16777216)
    by (split; [apply roundHalfEven_ge | apply roundHalfEven_le]; lia).
  destruct (Z.lt_trichotomy e1 e2) as [Hlt|[->|Hgt]].
  - pose proof (pow2_lt e1 e2 Hlt) as P.
    revert Bm1 Bm2.
    generalize (roundHalfEven (n1 * 2 ^ Z.max 0 (- e1)) (d1 * 2 ^ Z.max 0 e1))
               (roundHalfEven (n2 * 2 ^ Z.max 0 (- e2)) (d2 * 2 ^ Z.max 0 e2)).
    intros m1 m2 Bm1 Bm2. revert P HT1 HS1 HT2 HS2.
    generalize (2 ^ Z.max 0 e1) (2 ^ Z.max 0 (- e1)) (2 ^ Z.max 0 e2) (2 ^ Z.max 0 (- e2)).
    intros T1 S1 T2 S2 P HT1 HS1 HT2 HS2.
    assert (0 < T1 * S2) by (apply Z.mul_pos_pos; lia).
    assert (0 < T2 * S1) by (apply Z.mul_pos_pos; lia).
    assert (m1 * (T1 * S2) <= 16777216 * (T1 * S2))
      by (apply Z.mul_le_mono_nonneg_r; lia).
    assert (8388608 * (T2 * S1) <= m2 * (T2 * S1))
      by (apply Z.mul_le_mono_nonneg_r; lia).
    lia.
  - apply Z.mul_le_mono_nonneg_r; [lia|]. apply Z.mul_le_mono_nonneg_r; [lia|].
    revert HT2 HS2. generalize (2 ^ Z.max 0 e2) (2 ^ Z.max 0 (- e2)). intros T S HT HS.
    assert (0 < S * T) by (apply Z.mul_pos_pos; lia).
    apply roundHalfEven_mono; try lia.
    replace (n1 * S * (d2 * T)) with (n1 * d2 * (S * T)) by ring.
    replace (n2 * S * (d1 * T)) with (n2 * d1 * (S * T)) by ring.
    apply Z.mul_le_mono_nonneg_r; lia.
  - exfalso. pose proof (pow2_lt e2 e1 Hgt) as P.
    revert B1 B2 P HT1 HS1 HT2 HS2.
    generalize (2 ^ Z.max 0 e1) (2 ^ Z.max 0 (- e1)) (2 ^ Z.max 0 e2) (2 ^ Z.max 0 (- e2)).
    intros T1 S1 T2 S2 [B1 _] [_ B2] P HT1 HS1 HT2 HS2.
    assert (0 < d2 * S2) by (apply Z.mul_pos_pos; lia).
    assert (0 < S1 * S2) by (apply Z.mul_pos_pos; lia).
    assert (0 < d1 * S1) by (apply Z.mul_pos_pos; lia).
    assert (0 < d1 * d2) by (apply Z.mul_pos_pos; lia).
    assert (X1 : 8388608 * (d1 * T1) * (d2 * S2) <= n1 * S1 * (d2 * S2))
      by (apply Z.mul_le_mono_nonneg_r; lia).
    assert (X2 : n1 * d2 * (S1 * S2) <= n2 * d1 * (S1 * S2))
      by (apply Z.mul_le_mono_nonneg_r; lia).
    assert (X3 : n2 * S2 * (d1 * S1) < 16777216 * (d2 * T2) * (d1 * S1))
      by (apply Z.mul_lt_mono_pos_r; lia).
    assert (X4 : 2 * (T2 * S1) * (d1 * d2) <= T1 * S2 * (d1 * d2))
      by (apply Z.mul_le_mono_nonneg_r; lia).
    lia.
Qed.


#[global] Instance round32_proper : Proper (Qeq ==> Qeq) round32.
Proof.
  intros q1 q2 H. unfold round32. rewrite (Qred_complete _ _ H). reflexivity.
Qed.

#[global] Instance fdiv_proper : Proper (Qeq ==> Qeq ==> Qeq) fdiv.
Proof. intros a a' Ha b b' Hb. unfold fdiv. now rewrite Ha, Hb. Qed.

Lemma round32_cases q :
  (q == 0 /\ round32 q = 0)%Q
  \/ (exists n d, 0 < n /\ (q == n # d)%Q /\ round32 q = round24 n (Zpos d))
  \/ (exists n d, 0 < n /\ (q == - (n # d))%Q
                  /\ round32 q = (- round24 n (Zpos d))%Q).
Proof.
  unfold round32. pose proof (Qred_correct q) as E.
  destruct (Qred q) as [n d].
  destruct (Z.eqb_spec n 0) as [->|Hn].
  - left. split; [|reflexivity]. rewrite <- E. reflexivity.
  - destruct (Z.ltb_spec 0 n) as [Hpos|Hneg].
    + right. left. exists n, d. split; [exact Hpos|]. split; [now symmetry | reflexivity].
    + right. right. exists (- n), d. split; [lia|]. split; [|reflexivity].
      rewrite <- E. unfold Qeq, Qopp. cbn [Qnum Qden]. lia.
Qed.

Lemma round32_0 : round32 0 = 0%Q.
Proof. reflexivity. Qed.

Lemma round32_nonneg q : (0 <= q -> 0 <= round32 q)%Q.
Proof.
  intros Hq. destruct (round32_cases q) as [[_ ->]|[(n & d & Hn & _ & ->)|(n & d & Hn & E & _)]].
  - apply Qle_refl.
  - apply Qlt_le_weak, round24_pos; lia.
  - exfalso. rewrite E in Hq. unfold Qle, Qopp in Hq. cbn in Hq. lia.
Qed.

Lemma round32_nonpos q : (q <= 0 -> round32 q <= 0)%Q.
Proof.
  intros Hq. destruct (round32_cases q) as [[_ ->]|[(n & d & Hn & E & _)|(n & d & Hn & _ & ->)]].
  - apply Qle_refl.
  - exfalso. rewrite E in Hq. unfold Qle in Hq. cbn in Hq. lia.
  - pose proof (round24_pos n (Zpos d) Hn ltac:(lia)) as H.
    apply Qopp_lt_compat in H. apply Qlt_le_weak. exact H.
Qed.

(** Rounding does not cross an integer that is a float32. *)
Lemma round32_ge k q :
  0 < k <= 16777216 -> (inject_Z k <= q -> inject_Z k <= round32 q)%Q.
Proof.
  intros Hk Hq.
  destruct (round32_cases q) as [[E _]|[(n & d & Hn & E & ->)|(n & d & Hn & E & _)]].
  - exfalso. rewrite E in Hq. unfold Qle in Hq. cbn in Hq. lia.
  - apply round24_ge; try lia. rewrite E in Hq. unfold Qle in Hq. cbn in Hq. lia.
  - exfalso. rewrite E in Hq. unfold Qle, Qopp in Hq. cbn in Hq. lia.
Qed.

Lemma round32_le k q :
  0 <= k <= 16777216 -> (q <= inject_Z k -> round32 q <= inject_Z k)%Q.
Proof.
  intros Hk Hq.
  destruct (Qlt_le_dec 0 q) as [Hpos|Hneg].
  - destruct (round32_cases q) as [[E _]|[(n & d & Hn & E & ->)|(n & d & Hn & E & _)]].
    + exfalso. rewrite E in Hpos. discriminate.
    + apply round24_le; try lia. rewrite E in Hq. unfold Qle in Hq. cbn in Hq. lia.
    + exfalso. rewrite E in Hpos. unfold Qlt, Qopp in Hpos. cbn in Hpos. lia.
  - apply Qle_trans with 0%Q; [now apply round32_nonpos|].
    unfold Qle. cbn. lia.
Qed.


Lemma round32_mono q1 q2 : (q1 <= q2 -> round32 q1 <= round32 q2)%Q.
Proof.
  intros H.
  destruct (round32_cases q1) as [[E1 R1]|[(n1 & d1 & Hn1 & E1 & R1)|(n1 & d1 & Hn1 & E1 & R1)]].
  - rewrite R1. apply round32_nonneg. now rewrite <- E1.
  - destruct (round32_cases q2) as [[E2 R2]|[(n2 & d2 & Hn2 & E2 & R2)|(n2 & d2 & Hn2 & E2 & R2)]].
    + exfalso. rewrite E1, E2 in H. unfold Qle in H. cbn in H. lia.
    + rewrite R1, R2. apply round24_mono; try lia.
      rewrite E1, E2 in H. unfold Qle in H. cbn in H. exact H.
    + exfalso. rewrite E1, E2 in H. unfold Qle, Qopp in H. cbn in H. lia.
  - destruct (round32_cases q2) as [[E2 R2]|[(n2 & d2 & Hn2 & E2 & R2)|(n2 & d2 & Hn2 & E2 & R2)]].
    + rewrite R2. apply round32_nonpos. rewrite E1. unfold Qle, Qopp. cbn. lia.
    + apply Qle_trans with 0%Q.
      * apply round32_nonpos. rewrite E1. unfold Qle, Qopp. cbn. lia.
      * apply round32_nonneg. rewrite E2. unfold Qle. cbn. lia.
    + rewrite R1, R2. apply Qopp_le_compat. apply round24_mono; try lia.
      rewrite E1, E2 in H. unfold Qle, Qopp in H. cbn in H. lia.
Qed.


(** On the quotients of the integers up to 128 by the positive ones, [fdiv]
    is the division of IEEE 754 on binary32 numbers. *)
Lemma division_checked :
  allFrom (fun a => allFrom (divisionOk a) 1 128) 0 129 = true.
Proof. vm_cast_no_check (eq_refl true). Qed.

Lemma fdiv_ieee a b :
  0 <= a <= 128 -> 1 <= b <= 128 ->
  (fdiv (float32 a) (float32 b)
   == valueOf (SpecFloat.SFdiv 24 128 (binary32 a) (binary32 b)))%Q.
Proof.
  intros Ha Hb. apply Qeq_bool_iff.
  pose proof (allFrom_spec _ _ _ division_checked a ltac:(lia)) as H. cbn beta in H.
  apply (allFrom_spec _ _ _ H b). lia.
Qed.

End Rounding.

(** * Aggregation *)

Section Aggregator.

Lemma fgt_float32 a b : fgt (float32 a) (float32 b) = (b <? a).
Proof.
  unfold fgt, float32, Qle_bool. cbn. rewrite !Z.mul_1_r.
  destruct (Z.leb_spec a b), (Z.ltb_spec b a); (reflexivity || lia).
Qed.


(** The accumulation of a weighted count, from any starting value. *)
Lemma fold_weights (category : Pull -> bool) (weight : Pull -> Q) pulls :
  forall init : Q,
    (fold_left (fun (count : Q) p => if category p then (count + weight p)%Q else count)
               pulls init
     == init + fold_right Qplus 0%Q (map weight (List.filter category pulls)))%Q.
Proof.
  induction pulls as [|p rest IH]; intros init; cbn [fold_left List.filter].
  - cbn. ring.
  - rewrite IH. destruct (category p); cbn [map fold_right]; ring.
Qed.





End Aggregator.

Section AggregatorProperties.

Lemma getOpenNorm_zero config pulls : getOpenNorm config pulls 0 = 0%Q.
Proof. reflexivity. Qed.

Lemma getMergedNorm_zero config pulls : getMergedNorm config pulls 0 = 0%Q.
Proof. reflexivity. Qed.

(** C4: the two normalizations differ.  With the thresholds 50 and 500 on
    both sides, one contributor and two merged pulls of 10 and 1000 lines,
    the earlier [getMerged] weighs the average size 505 with 3 and returns
    2 * 3 / 1 = 6, and [getMergedNorm] returns (1 + 3) / 1 = 4. *)
Theorem normalizations_differ :
  High Examples.defaults = Old.pr_high
  /\ Low Examples.defaults = Old.pr_low
  /\ exists (pulls : list Pull) (con : Z),
       0 < con
       /\ (Old.getMerged pulls true con == 6)%Q
       /\ (getMergedNorm Examples.defaults pulls con == 4)%Q
       /\ ~ (Old.getMerged pulls true con == getMergedNorm Examples.defaults pulls con)%Q.
Proof.
  split; [reflexivity|]. split; [reflexivity|].
  exists [ {| Merged := true; Closed := false; Open := false; Lines := 10 |};
           {| Merged := true; Closed := false; Open := false; Lines := 1000 |} ], 1.
  split; [lia|]. split; [vm_compute; reflexivity|]. split; [vm_compute; reflexivity|].
  vm_compute. discriminate.
Qed.



End AggregatorProperties.

(** * Contributor intervals *)

Section Contributors.

Variable config : Config.
Variable now : Time.

Lemma wrap64_id z : - 2 ^ 63 <= z < 2 ^ 63 -> wrap64 z = z.
Proof.
  intros H. unfold wrap64. rewrite Z.mod_small; lia.
Qed.

Lemma cooldownDuration_exact :
  -3558 <= Cooldown config <= 3558 ->
  cooldownDuration config = Cooldown config * 30 * 24 * Hour.
Proof.
  intros H. unfold cooldownDuration, Hour, Second.
  rewrite (wrap64_id (Cooldown config * 30)) by lia.
  rewrite (wrap64_id (Cooldown config * 30 * 24)) by lia.
  rewrite wrap64_id by lia. reflexivity.
Qed.

Lemma cooldownDuration_range : minInt64 <= cooldownDuration config <= maxInt64.
Proof.
  unfold cooldownDuration, minInt64, maxInt64.
  generalize (wrap64 (wrap64 (Cooldown config * 30) * 24) * Hour). intros z.
  unfold wrap64. pose proof (Z.mod_pos_bound (z + 2 ^ 63) (2 ^ 64) ltac:(lia)). lia.
Qed.

Lemma Sub_mono a b : a <= b -> Sub now b <= Sub now a.
Proof.
  intros H. unfold Sub, minInt64, maxInt64.
  destruct (Z.ltb_spec (now - b) (- 2 ^ 63)), (Z.ltb_spec (now - a) (- 2 ^ 63)),
    (Z.gtb_spec (now - b) (2 ^ 63 - 1)), (Z.gtb_spec (now - a) (2 ^ 63 - 1)); lia.
Qed.

Lemma Sub_self : Sub now now = 0.
Proof. unfold Sub. rewrite Z.sub_diag. reflexivity. Qed.

(** The test of the promotion is the comparison of the exact difference. *)
Lemma promote_test e :
  e <= now ->
  (Sub now e <? cooldownDuration config) = (now - e <? cooldownDuration config).
Proof.
  intros H. pose proof cooldownDuration_range as R. revert R.
  generalize (cooldownDuration config). intros cd R.
  unfold Sub, minInt64, maxInt64 in *.
  destruct (Z.ltb_spec (now - e) (- 2 ^ 63)), (Z.gtb_spec (now - e) (2 ^ 63 - 1)),
    (Z.ltb_spec (now - e) cd); try lia;
    match goal with |- (?a <? ?b) = _ => destruct (Z.ltb_spec a b) end;
    (reflexivity || lia).
Qed.

Lemma promote_bounds e : e <= now -> e <= promote config now e <= now.
Proof. intros H. unfold promote. destruct (Sub now e <? cooldownDuration config); lia. Qed.

Lemma promote_cases e : promote config now e = now \/ promote config now e = e.
Proof. unfold promote. destruct (Sub now e <? cooldownDuration config); auto. Qed.

Lemma promote_max M e :
  M <= now -> e <= now ->
  promote config now (Z.max (promote config now M) e) = promote config now (Z.max M e).
Proof.
  intros HM He. unfold promote at 2.
  destruct (Z.ltb_spec (Sub now M) (cooldownDuration config)) as [Hlt|Hge]; [|reflexivity].
  rewrite Z.max_l by lia. unfold promote. rewrite Sub_self.
  pose proof (Sub_mono M (Z.max M e) ltac:(lia)).
  destruct (Z.ltb_spec 0 (cooldownDuration config)),
    (Z.ltb_spec (Sub now (Z.max M e)) (cooldownDuration config)); (reflexivity || lia).
Qed.

Lemma getUsersStep_skip (users : gmap string User.t) r :
  trackedLogin (Login r) = false -> getUsersStep config now users r = users.
Proof.
  unfold trackedLogin, getUsersStep. intros H.
  destruct (String.eqb (Login r) ""); [reflexivity|].
  destruct (String.prefix "renovate" (Login r)); [reflexivity | discriminate].
Qed.

Lemma getUsersStep_tracked (users : gmap string User.t) r :
  trackedLogin (Login r) = true ->
  getUsersStep config now users r
  = <[Login r :=
        match users !! Login r with
        | Some val =>
            {| User.Start := Z.min (User.Start val) (CreatedAt r);
               User.End := promote config now (Z.max (User.End val) (prEnd now r)) |}
        | None =>
            {| User.Start := CreatedAt r;
               User.End := promote config now (prEnd now r) |}
        end]> users.
Proof.
  unfold trackedLogin, getUsersStep. intros H.
  destruct (String.eqb (Login r) ""); [discriminate|].
  destruct (String.prefix "renovate" (Login r)); [discriminate|].
  fold (prEnd now r).
  destruct (users !! Login r) as [val|]; [|reflexivity].
  unfold After, Before, promote. f_equal. f_equal.
  - destruct (Z.ltb_spec (User.Start val) (CreatedAt r)); lia.
  - replace (if User.End val >? prEnd now r then User.End val else prEnd now r)
      with (Z.max (User.End val) (prEnd now r))
      by (destruct (Z.gtb_spec (User.End val) (prEnd now r)); lia).
    reflexivity.
Qed.

Lemma getUsers_snoc l r :
  getUsers config now (l ++ [r]) = getUsersStep config now (getUsers config now l) r.
Proof. unfold getUsers. now rewrite fold_left_app. Qed.

Lemma intervalOf_snoc_other l r login u :
  Login r <> login ->
  intervalOf config now l login u -> intervalOf config now (l ++ [r]) login u.
Proof.
  intros Hne ((p & Hp & Hlp & Hcp) & Hmin & M & (q & Hq & Hlq & Heq) & Hmax & Hend).
  split; [|split].
  - exists p. rewrite elem_of_app. auto.
  - intros x Hx Hlx. apply elem_of_app in Hx as [Hx|Hx]; [auto|].
    apply list_elem_of_singleton in Hx. congruence.
  - exists M. split; [|split; [|exact Hend]].
    + exists q. rewrite elem_of_app. auto.
    + intros x Hx Hlx. apply elem_of_app in Hx as [Hx|Hx]; [auto|].
      apply list_elem_of_singleton in Hx. congruence.
Qed.

Lemma usersOf_step l r users :
  Forall (chronological now) (l ++ [r]) ->
  usersOf config now l users -> usersOf config now (l ++ [r]) (getUsersStep config now users r).
Proof.
  intros Hchron [Hkeys Hall].
  apply Forall_app in Hchron as [Hl Hr]. apply List.Forall_inv in Hr.
  rewrite Forall_forall in Hl.
  destruct (trackedLogin (Login r)) eqn:Htr.
  - rewrite getUsersStep_tracked by exact Htr. split.
    + intros login u. destruct (decide (Login r = login)) as [<-|Hne].
      * rewrite lookup_insert_eq. intros Hu. split; [exact Htr|].
        destruct (users !! Login r) as [val|] eqn:Hval; injection Hu as <-.
        -- destruct (Hkeys _ _ Hval)
             as (_ & (p & Hp & Hlp & Hcp) & Hmin & M & (q & Hq & Hlq & Heq) & Hmax & Hend).
           assert (HM : M <= now) by (subst M; apply (Hl q Hq)).
           assert (He : prEnd now r <= now) by apply Hr.
           split; [|split]; cbn [User.Start User.End].
           ++ destruct (Z.min_spec (User.Start val) (CreatedAt r)) as [[_ ->]|[_ ->]].
              ** exists p. rewrite elem_of_app. auto.
              ** exists r. rewrite elem_of_app, list_elem_of_singleton. auto.
           ++ intros x Hx Hlx. apply elem_of_app in Hx as [Hx|Hx].
              ** specialize (Hmin x Hx Hlx). lia.
              ** apply list_elem_of_singleton in Hx. subst x. lia.
           ++ exists (Z.max M (prEnd now r)). split; [|split].
              ** destruct (Z.max_spec M (prEnd now r)) as [[_ ->]|[_ ->]].
                 --- exists r. rewrite elem_of_app, list_elem_of_singleton. auto.
                 --- exists q. rewrite elem_of_app. auto.
              ** intros x Hx Hlx. apply elem_of_app in Hx as [Hx|Hx].
                 --- specialize (Hmax x Hx Hlx). lia.
                 --- apply list_elem_of_singleton in Hx. subst x. lia.
              ** rewrite Hend. now apply promote_max.
        -- assert (Hnone : forall x, x ∈ l -> Login x = Login r -> False).
           { intros x Hx Hlx. destruct (Hall x Hx) as [v Hv]; [now rewrite Hlx|].
             rewrite Hlx in Hv. congruence. }
           split; [|split]; cbn [User.Start User.End].
           ++ exists r. rewrite elem_of_app, list_elem_of_singleton. auto.
           ++ intros x Hx Hlx. apply elem_of_app in Hx as [Hx|Hx].
              ** destruct (Hnone x Hx Hlx).
              ** apply list_elem_of_singleton in Hx. subst x. lia.
           ++ exists (prEnd now r). split; [|split; [|reflexivity]].
              ** exists r. rewrite elem_of_app, list_elem_of_singleton. auto.
              ** intros x Hx Hlx. apply elem_of_app in Hx as [Hx|Hx].
                 --- destruct (Hnone x Hx Hlx).
                 --- apply list_elem_of_singleton in Hx. subst x. lia.
      * rewrite lookup_insert_ne by exact Hne. intros Hu.
        destruct (Hkeys _ _ Hu) as [Ht Hi]. split; [exact Ht|].
        now apply intervalOf_snoc_other.
    + intros p Hp Htp. destruct (decide (Login r = Login p)) as [->|Hne].
      * rewrite lookup_insert_eq. eauto.
      * rewrite lookup_insert_ne by exact Hne.
        apply elem_of_app in Hp as [Hp|Hp]; [auto|].
        apply list_elem_of_singleton in Hp. congruence.
  - rewrite getUsersStep_skip by exact Htr. split.
    + intros login u Hu. destruct (Hkeys _ _ Hu) as [Ht Hi]. split; [exact Ht|].
      apply intervalOf_snoc_other; [congruence | exact Hi].
    + intros p Hp Htp. apply elem_of_app in Hp as [Hp|Hp]; [auto|].
      apply list_elem_of_singleton in Hp. congruence.
Qed.

Lemma getUsers_usersOf l :
  Forall (chronological now) l -> usersOf config now l (getUsers config now l).
Proof.
  induction l as [|r l IH] using rev_ind; intros Hchron.
  - split.
    + intros login u Hu. unfold getUsers in Hu. cbn in Hu.
      rewrite lookup_empty in Hu. discriminate.
    + intros p Hp. apply elem_of_nil in Hp. destruct Hp.
  - rewrite getUsers_snoc. apply usersOf_step; [exact Hchron|].
    apply IH. apply Forall_app in Hchron. apply Hchron.
Qed.

End Contributors.

Section ContributorProperties.

(** C8, as the code has it: for pulls whose times are in order (created,
    then merged or closed, none after now), every interval [getUsers]
    returns has
    [Start <= End <= now]; [Start] is the least creation time of the pulls of
    the login and [End] is the greatest [M] of their ends (merge time, else
    close time, else now) after the cooldown promotion, which replaces [M]
    by now exactly when now minus [M] is less than the cooldown duration,
    [cooldown * 30 * 24] hours when that fits a [Duration], and so never
    moves the end earlier. *)
Theorem getUsers_intervals config now pulls login u :
  Forall (chronological now) pulls ->
  getUsers config now pulls !! login = Some u ->
  User.Start u <= User.End u <= now
  /\ (exists p, p ∈ pulls /\ Login p = login /\ CreatedAt p = User.Start u)
  /\ (forall p, p ∈ pulls -> Login p = login -> User.Start u <= CreatedAt p)
  /\ exists M,
       (exists p, p ∈ pulls /\ Login p = login /\ prEnd now p = M)
       /\ (forall p, p ∈ pulls -> Login p = login -> prEnd now p <= M)
       /\ User.End u = (if now - M <? cooldownDuration config then now else M)
       /\ M <= User.End u
       /\ (-3558 <= Cooldown config <= 3558 ->
           cooldownDuration config = Cooldown config * 30 * 24 * Hour).
Proof.
  intros Hchron Hu.
  destruct (getUsers_usersOf config now pulls Hchron) as [Hkeys _].
  destruct (Hkeys login u Hu)
    as (_ & (p & Hp & Hlp & Hcp) & Hmin & M & (q & Hq & Hlq & Heq) & Hmax & Hend).
  rewrite Forall_forall in Hchron.
  assert (HM : M <= now) by (subst M; apply (Hchron q Hq)).
  pose proof (promote_bounds config now M HM) as Hb. rewrite <- Hend in Hb.
  assert (Hpq : CreatedAt p <= prEnd now p) by apply (Hchron p Hp).
  pose proof (Hmax p Hp Hlp).
  split; [lia|]. split; [eauto|]. split; [exact Hmin|].
  exists M. split; [eauto|]. split; [exact Hmax|]. split; [|split; [lia|]].
  - rewrite Hend. unfold promote. now rewrite promote_test.
  - apply cooldownDuration_exact.
Qed.

Lemma getUsers_intervals_witness :
  User.Start {| User.Start := Date 2024 1 2; User.End := Date 2024 1 10 |}
  <= User.End {| User.Start := Date 2024 1 2; User.End := Date 2024 1 10 |}
  <= Examples.now
  /\ (exists p, p ∈ Examples.pulls /\ Login p = "alice"%string
                /\ CreatedAt p = Date 2024 1 2)
  /\ (forall p, p ∈ Examples.pulls -> Login p = "alice"%string ->
                Date 2024 1 2 <= CreatedAt p)
  /\ exists M,
       (exists p, p ∈ Examples.pulls /\ Login p = "alice"%string
                  /\ prEnd Examples.now p = M)
       /\ (forall p, p ∈ Examples.pulls -> Login p = "alice"%string ->
                     prEnd Examples.now p <= M)
       /\ Date 2024 1 10
          = (if Examples.now - M <? cooldownDuration Examples.defaults
             then Examples.now else M)
       /\ M <= Date 2024 1 10
       /\ (-3558 <= Cooldown Examples.defaults <= 3558 ->
           cooldownDuration Examples.defaults
           = Cooldown Examples.defaults * 30 * 24 * Hour).
Proof.
  apply (getUsers_intervals Examples.defaults Examples.now Examples.pulls "alice"
           {| User.Start := Date 2024 1 2; User.End := Date 2024 1 10 |}).
  - repeat constructor; vm_compute; discriminate.
  - vm_compute. reflexivity.
Defined.

(** C8 as stated fails on pulls whose times are not in order.  For a pull
    created five seconds and merged ten seconds after the clock reading of
    the run, the interval starts after it ends, and the promotion has moved
    its end earlier, from the merge time to now.  And with a cooldown of
    4000 months, whose duration overflows, the end of a pull merged 51 days
    ago is not promoted. *)
Lemma getUsers_intervals_counterexample :
  getUsers Examples.defaults Examples.now [Examples.aheadPr] !! "carol"
  = Some {| User.Start := Examples.now + 5 * Second; User.End := Examples.now |}
  /\ ~ (Examples.now + 5 * Second <= Examples.now)
  /\ prEnd Examples.now Examples.aheadPr = Examples.now + 10 * Second
  /\ Examples.now < prEnd Examples.now Examples.aheadPr
  /\ getUsers Examples.longCooldown Examples.now [Examples.mergedPr] !! "alice"
     = Some {| User.Start := Date 2024 1 2; User.End := Date 2024 1 10 |}
  /\ prEnd Examples.now Examples.mergedPr = Date 2024 1 10
  /\ Examples.now - Date 2024 1 10
     < Cooldown Examples.longCooldown * 30 * 24 * Hour
  /\ cooldownDuration Examples.longCooldown < 0.
Proof.
  split; [vm_compute; reflexivity|].
  split; [vm_compute; intros H; apply H; reflexivity|].
  split; [reflexivity|]. split; [vm_compute; reflexivity|].
  split; [vm_compute; reflexivity|]. split; [reflexivity|].
  split; vm_compute; reflexivity.
Qed.

Lemma getUsers_keys_tracked config now pulls login u :
  getUsers config now pulls !! login = Some u -> trackedLogin login = true.
Proof.
  revert login u. induction pulls as [|r l IH] using rev_ind; intros login u.
  - unfold getUsers. cbn. rewrite lookup_empty. discriminate.
  - rewrite getUsers_snoc. destruct (trackedLogin (Login r)) eqn:Htr.
    + rewrite getUsersStep_tracked by exact Htr.
      destruct (decide (Login r = login)) as [<-|Hne]; [intros _; exact Htr|].
      rewrite lookup_insert_ne by exact Hne. apply IH.
    + rewrite getUsersStep_skip by exact Htr. apply IH.
Qed.

Lemma getUsers_skip config now l1 p l2 :
  trackedLogin (Login p) = false ->
  getUsers config now (l1 ++ p :: l2) = getUsers config now (l1 ++ l2).
Proof.
  intros H. unfold getUsers. rewrite !fold_left_app. cbn [fold_left].
  now rewrite getUsersStep_skip.
Qed.

End ContributorProperties.

(** * Scenarios *)

Section Scenarios.

(** The merged pull of 30 lines falls in the pulse of ISO weeks 1 and 2 of
    2024, with raw merged count 1 and, for two active contributors,
    normalized merged value 1/2; the open pull of 600 lines weighs 3. *)
Example first_window_of_2024 :
  exists w rest,
    getPulses Examples.defaults Examples.scanStart Examples.scanEnd Examples.pulls
              (getUsers Examples.defaults Examples.now Examples.pulls)
    = Ok (w :: rest)
    /\ Pulse.Start w = Isoweek.StartTime 2024 1
    /\ Pulse.End w = Isoweek.StartTime 2024 3
    /\ Pulse.Days w = 14
    /\ Pulse.Contributors w = 2
    /\ (Pulse.PrMerged w == 1)%Q
    /\ (Pulse.PrMergedNorm w == 1 # 2)%Q
    /\ (Pulse.PrOpen w == 1)%Q
    /\ (Pulse.PrOpenNorm w == 3 # 2)%Q.
Proof.
  eexists. eexists. split; [vm_compute; reflexivity|].
  repeat split; vm_compute; reflexivity.
Qed.

(** [getPulses] refuses an end before the start. *)
Lemma getPulses_end_before_start config start end_ pulls users :
  end_ < start ->
  getPulses config start end_ pulls users = Panic "end time cannot before start".
Proof.
  intros H. unfold getPulses, Before.
  destruct (Z.ltb_spec end_ start); [reflexivity | lia].
Qed.

(** The week of an instant never makes [isoWeekToPulseStart] panic. *)
Lemma isoWeekToPulseStart_ISOWeek t :
  exists w, isoWeekToPulseStart (snd (ISOWeek t)) = Ok w.
Proof.
  destruct (ISOWeek_spec t) as [Hw _].
  destruct (isoWeekToPulseStart_ok (snd (ISOWeek t))) as (w & Hrun & _); [lia|].
  now exists w.
Qed.

(** A terminal pull without a close time makes the classifier panic. *)
Example pulsePulls_nil_close_time :
  pulsePulls Examples.defaults
    [ {| Additions := 1; Deletions := 1; CreatedAt := Date 2024 1 2;
         ClosedAt := None; MergedAt := None; State := "CLOSED"; Login := "carol" |} ]
    (Isoweek.StartTime 2024 1) (Isoweek.StartTime 2024 3)
  = Panic "invalid memory address or nil pointer dereference".
Proof. vm_compute. reflexivity. Qed.

(** The earlier [isoWeeks] read December 31, which can fall in week 1 of the
    next ISO year. *)
Example old_isoWeeks_2024 : Old.isoWeeks 2024 = 1 /\ isoWeeks 2024 = 52.
Proof. split; vm_compute; reflexivity. Qed.

End Scenarios.

(** * Repository keys *)

Section RepositoryKeys.

Lemma Split_nonempty s sep : Strings.Split s sep <> [].
Proof.
  destruct s as [|c rest]; cbn; [discriminate|].
  destruct (Ascii.eqb c sep); [discriminate|].
  destruct (Strings.Split rest sep); discriminate.
Qed.

Lemma Split_length s sep :
  length (Strings.Split s sep) = S (countByte sep s).
Proof.
  induction s as [|c rest IH]; [reflexivity|].
  cbn [Strings.Split countByte]. destruct (Ascii.eqb c sep).
  - cbn. now rewrite IH.
  - pose proof (Split_nonempty rest sep).
    destruct (Strings.Split rest sep) as [|piece pieces]; [contradiction|].
    cbn in *. exact IH.
Qed.

Lemma joinWith_cons sep piece pieces :
  pieces <> [] ->
  joinWith sep (piece :: pieces) = (piece ++ String sep (joinWith sep pieces))%string.
Proof. destruct pieces; [contradiction | reflexivity]. Qed.

Lemma Split_join s sep : joinWith sep (Strings.Split s sep) = s.
Proof.
  induction s as [|c rest IH]; [reflexivity|].
  pose proof (Split_nonempty rest sep) as Hne.
  cbn [Strings.Split]. destruct (Ascii.eqb_spec c sep) as [->|Hc].
  - rewrite joinWith_cons by exact Hne. now rewrite IH.
  - destruct (Strings.Split rest sep) as [|piece pieces]; [contradiction|].
    destruct pieces as [|piece' pieces].
    + cbn [joinWith] in *. now rewrite IH.
    + rewrite joinWith_cons in * by discriminate.
      rewrite <- IH. reflexivity.
Qed.

Lemma Split_pieces s sep :
  Forall (fun piece => countByte sep piece = O) (Strings.Split s sep).
Proof.
  induction s as [|c rest IH]; [repeat constructor|].
  cbn [Strings.Split]. destruct (Ascii.eqb c sep) eqn:Hc.
  - constructor; [reflexivity | exact IH].
  - pose proof (Split_nonempty rest sep).
    destruct (Strings.Split rest sep) as [|piece pieces]; [contradiction|].
    inversion IH as [|? ? Hp Hps]; subst.
    constructor; [|exact Hps]. cbn [countByte]. now rewrite Hc.
Qed.

Lemma Split_no_sep s sep : countByte sep s = O -> Strings.Split s sep = [s].
Proof.
  induction s as [|c rest IH]; [reflexivity|].
  cbn [countByte Strings.Split]. destruct (Ascii.eqb c sep); [discriminate|].
  intros H. now rewrite (IH H).
Qed.

Lemma append_cons c s t : (String c s ++ t)%string = String c (s ++ t)%string.
Proof. reflexivity. Qed.

Lemma Split_app_sep s t sep :
  countByte sep s = O ->
  Strings.Split (s ++ String sep t) sep = s :: Strings.Split t sep.
Proof.
  induction s as [|c rest IH].
  - intros _. change ("" ++ String sep t)%string with (String sep t).
    cbn [Strings.Split]. now rewrite Ascii.eqb_refl.
  - rewrite append_cons. cbn [countByte Strings.Split].
    destruct (Ascii.eqb c sep); [discriminate|].
    intros H. now rewrite (IH H).
Qed.

(** X1: joining an organisation and a repository name that hold no slash
    with a slash gives a key that [orgRepoSplit] splits back into the two,
    without error. *)
Theorem orgRepoSplit_join org repo :
  countByte "/"%char org = O ->
  countByte "/"%char repo = O ->
  orgRepoSplit (org ++ String "/"%char repo)%string = (org, repo, None).
Proof.
  intros Horg Hrepo. unfold orgRepoSplit.
  now rewrite (Split_app_sep _ _ _ Horg), (Split_no_sep _ _ Hrepo).
Qed.

Lemma orgRepoSplit_join_witness :
  orgRepoSplit ("canonical" ++ String "/"%char "pebble")%string
  = ("canonical"%string, "pebble"%string, None).
Proof.
  apply (orgRepoSplit_join "canonical"%string "pebble"%string); reflexivity.
Defined.

(** X2: [orgRepoSplit] succeeds exactly on the keys with one slash; the two
    names it returns hold no slash and give the key back when joined with
    one; on every other key, the key without slash and the key with more
    than one among them, it returns two empty names and the error. *)
Theorem orgRepoSplit_spec key :
  (countByte "/"%char key = 1%nat ->
   exists org repo,
     orgRepoSplit key = (org, repo, None)
     /\ key = (org ++ String "/"%char repo)%string
     /\ countByte "/"%char org = O /\ countByte "/"%char repo = O)
  /\ (countByte "/"%char key <> 1%nat ->
      orgRepoSplit key
      = (EmptyString, EmptyString, Some "repo JSON key invalid"%string)).
Proof.
  pose proof (Split_length key "/"%char) as Hlen.
  pose proof (Split_join key "/"%char) as Hjoin.
  pose proof (Split_pieces key "/"%char) as Hpieces.
  unfold orgRepoSplit.
  destruct (Strings.Split key "/"%char) as [|org [|repo [|third more]]];
    cbn [length] in Hlen; split; intros Hcount; try lia; try reflexivity.
  exists org, repo. cbn [joinWith] in Hjoin.
  inversion Hpieces as [|? ? Ho Hrest]; subst.
  inversion Hrest as [|? ? Hr _]; subst.
  repeat split; auto.
Qed.

End RepositoryKeys.

(** * More on the classifier *)

Section ClassifierFacts.

Lemma pulsePulls_one_panic config p start end_ :
  readsNilClose config end_ p = true ->
  pulsePulls config [p] start end_
  = Panic "invalid memory address or nil pointer dereference".
Proof.
  unfold readsNilClose. intros H.
  apply andb_true_iff in H as [H Hclosed]. apply andb_true_iff in H as [H Hstate].
  apply andb_true_iff in H as [Hallow Hcreated].
  rewrite pulsePulls_one. unfold pulsePullsStep.
  rewrite Hallow. destruct (ClosedAt p); [discriminate|].
  rewrite Hcreated, Hstate. reflexivity.
Qed.

Lemma pulsePulls_one_no_panic config p start end_ :
  readsNilClose config end_ p = false ->
  exists l, pulsePulls config [p] start end_ = Ok l.
Proof.
  unfold readsNilClose. intros H.
  rewrite pulsePulls_one. unfold pulsePullsStep.
  destruct (allowlistedUser config (Login p)); cbn [negb andb] in *; [|eauto].
  destruct (ClosedAt p) as [c|]; cbn [deref].
  - destruct (negb (Before c start) && Before (CreatedAt p) end_); [|eauto].
    destruct (negb (String.eqb (State p) "OPEN")); [|eauto].
    rewrite bind_Ok. destruct (negb (Before c start) && Before c end_); eauto.
  - destruct (Before (CreatedAt p) end_); cbn [andb] in *; [|eauto].
    rewrite andb_true_r in H. rewrite H. eauto.
Qed.

(** X3: [pulsePulls] panics, on the dereference of a nil close time,
    exactly when some pull of the list is not open, has no close time, was
    created before the end of the window and has an author who passes the
    allowlist; for every other list it returns a classified set. *)
Theorem pulsePulls_panics_iff config pulls start end_ :
  (existsb (readsNilClose config end_) pulls = true ->
   pulsePulls config pulls start end_
   = Panic "invalid memory address or nil pointer dereference")
  /\ (existsb (readsNilClose config end_) pulls = false ->
      exists l, pulsePulls config pulls start end_ = Ok l).
Proof.
  induction pulls as [|p rest [IHp IHok]]; split; cbn [existsb]; intros H;
    try discriminate.
  - exists []. reflexivity.
  - rewrite pulsePulls_cons.
    destruct (readsNilClose config end_ p) eqn:Hp.
    + now rewrite pulsePulls_one_panic.
    + destruct (pulsePulls_one_no_panic config p start end_ Hp) as [a ->].
      rewrite bind_Ok, IHp by exact H. reflexivity.
  - apply orb_false_iff in H as [Hp Hrest].
    rewrite pulsePulls_cons.
    destruct (pulsePulls_one_no_panic config p start end_ Hp) as [a ->].
    destruct (IHok Hrest) as [b ->]. eexists. reflexivity.
Qed.

Lemma pulsePulls_one_cases config p start end_ l :
  pulsePulls config [p] start end_ = Ok l ->
  l = []
  \/ (allowlistedUser config (Login p) = true
      /\ ((State p = "OPEN"%string /\ l = [openPull p])
          \/ (State p <> "OPEN"%string /\ l = [terminalPull p]))).
Proof.
  rewrite pulsePulls_one. unfold pulsePullsStep.
  destruct (allowlistedUser config (Login p)); cbn [negb];
    [|intros [= <-]; now left].
  destruct ((match ClosedAt p with None => true | Some c => negb (Before c start) end)
            && Before (CreatedAt p) end_); [|intros [= <-]; now left].
  destruct (String.eqb_spec (State p) "OPEN") as [Hopen|Hterm]; cbn [negb].
  - intros [= <-]. right. split; [reflexivity|]. now left.
  - destruct (ClosedAt p) as [c|]; [|discriminate]. cbn [deref]. rewrite bind_Ok.
    destruct (negb (Before c start) && Before c end_); intros [= <-];
      [right; split; [reflexivity|]; now right | now left].
Qed.

(** X4: every [Pull] of a classified set comes from a pull request of the
    list whose author passes the allowlist, an open one for an open request
    and a terminal one otherwise, and is in exactly one category: open,
    merged or churned.  The set is no longer than the list. *)
Theorem pulsePulls_output config pulls start end_ pp :
  pulsePulls config pulls start end_ = Ok pp ->
  Forall (fun q =>
            oneCategory q
            /\ exists p,
                 p ∈ pulls
                 /\ allowlistedUser config (Login p) = true
                 /\ ((State p = "OPEN"%string /\ q = openPull p)
                     \/ (State p <> "OPEN"%string /\ q = terminalPull p)))
         pp
  /\ (length pp <= length pulls)%nat.
Proof.
  revert pp. induction pulls as [|p rest IH]; intros pp.
  - intros [= <-]. split; [constructor | reflexivity].
  - rewrite pulsePulls_cons.
    destruct (pulsePulls config [p] start end_) as [a| |] eqn:Ha; [|discriminate..].
    rewrite bind_Ok.
    destruct (pulsePulls config rest start end_) as [b| |]; [|discriminate..].
    rewrite bind_Ok. intros [= <-].
    destruct (IH b eq_refl) as [Hb Hlen].
    assert (Hrest : Forall (fun q =>
              oneCategory q
              /\ exists p0,
                   p0 ∈ p :: rest
                   /\ allowlistedUser config (Login p0) = true
                   /\ ((State p0 = "OPEN"%string /\ q = openPull p0)
                       \/ (State p0 <> "OPEN"%string /\ q = terminalPull p0))) b).
    { eapply Forall_impl; [exact Hb|]. intros q (Hq & p0 & Hin & Hrest).
      split; [exact Hq|]. exists p0. split; [now apply elem_of_cons; right | exact Hrest]. }
    destruct (pulsePulls_one_cases _ _ _ _ _ Ha) as [->|(Hallow & Hcase)].
    + cbn [app length]. split; [exact Hrest | lia].
    + assert (Hone : exists q, a = [q] /\ oneCategory q
                /\ ((State p = "OPEN"%string /\ q = openPull p)
                    \/ (State p <> "OPEN"%string /\ q = terminalPull p))).
      { destruct Hcase as [[Hs ->]|[Hs ->]].
        - exists (openPull p). split; [reflexivity|]. split; [|now left].
          left. repeat split; reflexivity.
        - exists (terminalPull p). split; [reflexivity|]. split; [|now right].
          unfold oneCategory, terminalPull. cbn.
          destruct (MergedAt p); [right; left | right; right]; repeat split; reflexivity. }
      destruct Hone as (q & -> & Hq & Hfrom). cbn [app length]. split; [|lia].
      constructor; [|exact Hrest]. split; [exact Hq|].
      exists p. split; [apply elem_of_cons; now left | now split].
Qed.

Lemma pulsePulls_output_witness :
  Forall (fun q =>
            oneCategory q
            /\ exists p,
                 p ∈ Examples.pulls
                 /\ allowlistedUser Examples.defaults (Login p) = true
                 /\ ((State p = "OPEN"%string /\ q = openPull p)
                     \/ (State p <> "OPEN"%string /\ q = terminalPull p)))
         [terminalPull Examples.mergedPr; openPull Examples.openPr]
  /\ (length [terminalPull Examples.mergedPr; openPull Examples.openPr]
      <= length Examples.pulls)%nat.
Proof.
  apply (pulsePulls_output Examples.defaults Examples.pulls
           (Isoweek.StartTime 2024 1) (Isoweek.StartTime 2024 3)).
  vm_compute. reflexivity.
Defined.

Lemma pulsePulls_one_outside config p start end_ :
  outsideWindow start end_ p -> pulsePulls config [p] start end_ = Ok [].
Proof.
  intros Hout. rewrite pulsePulls_one. unfold pulsePullsStep, Before.
  destruct (negb (allowlistedUser config (Login p))); [reflexivity|].
  destruct Hout as [Hcreated | (c & -> & Hc)].
  - replace (CreatedAt p <? end_) with false by (symmetry; apply Z.ltb_ge; lia).
    now rewrite andb_false_r.
  - replace (c <? start) with true by (symmetry; apply Z.ltb_lt; lia).
    reflexivity.
Qed.

(** X5: whatever their state and author, pulls created at or after the end
    of a window, or closed before its start, leave its classified set empty:
    a pull is never counted in a window that ends before it exists or that
    starts after it closed. *)
Theorem pulsePulls_outside config pulls start end_ :
  Forall (outsideWindow start end_) pulls ->
  pulsePulls config pulls start end_ = Ok [].
Proof.
  induction 1 as [|p rest Hp _ IH]; [reflexivity|].
  now rewrite pulsePulls_cons, (pulsePulls_one_outside _ _ _ _ Hp), bind_Ok, IH.
Qed.

Lemma pulsePulls_outside_witness :
  pulsePulls Examples.defaults Examples.pulls
    (Isoweek.StartTime 2023 1) (Isoweek.StartTime 2023 3) = Ok [].
Proof.
  apply (pulsePulls_outside Examples.defaults Examples.pulls).
  repeat (apply List.Forall_cons; [left; vm_compute; discriminate|]).
  apply List.Forall_nil.
Defined.

End ClassifierFacts.

(** * More on the aggregation *)

Section AggregatorFacts.

Lemma categorySum_Permutation category weight l1 l2 :
  Permutation l1 l2 ->
  (categorySum category weight l1 == categorySum category weight l2)%Q.
Proof.
  unfold categorySum.
  induction 1 as [|x l l' _ IH|x y l|l l' l'' _ IH1 _ IH2]; cbn [List.filter].
  - reflexivity.
  - destruct (category x); cbn [map fold_right]; now rewrite ?IH.
  - destruct (category x), (category y); cbn [map fold_right]; ring.
  - now rewrite IH1.
Qed.

Lemma categorySum_bounds category weight (lo hi : Q) l :
  (forall q, lo <= weight q <= hi)%Q ->
  (lo * categorySum category (fun _ => 1%Q) l <= categorySum category weight l
   <= hi * categorySum category (fun _ => 1%Q) l)%Q.
Proof.
  intros Hw. unfold categorySum. induction l as [|q l [IHlo IHhi]]; cbn [List.filter].
  - cbn. rewrite !Qmult_0_r. split; apply Qle_refl.
  - destruct (category q); cbn [map fold_right]; [|now split].
    destruct (Hw q) as [Hq1 Hq2]. revert IHlo IHhi.
    generalize (fold_right Qplus 0%Q (map (fun _ => 1%Q) (List.filter category l))).
    generalize (fold_right Qplus 0%Q (map weight (List.filter category l))).
    intros sum count IHlo IHhi.
    assert (Elo : (lo * (1 + count) == lo + lo * count)%Q) by ring.
    assert (Ehi : (hi * (1 + count) == hi + hi * count)%Q) by ring.
    rewrite Elo, Ehi. split; now apply Qplus_le_compat.
Qed.

Lemma categorySum_count category l :
  (categorySum category (fun _ => 1%Q) l
   == inject_Z (Z.of_nat (length (List.filter category l))))%Q.
Proof.
  unfold categorySum. induction (List.filter category l) as [|q l' IH]; [reflexivity|].
  cbn [map fold_right length]. rewrite IH, Nat2Z.inj_succ, <- Z.add_1_l, inject_Z_plus.
  reflexivity.
Qed.

Lemma getOpen_categorySum config l :
  (getOpen config l == categorySum Open (fun _ => 1%Q) l)%Q.
Proof.
  unfold getOpen, categorySum. rewrite (fold_weights Open (fun _ => 1%Q)). ring.
Qed.

Lemma getMerged_categorySum config l :
  (getMerged config l == categorySum Merged (fun _ => 1%Q) l)%Q.
Proof.
  unfold getMerged, categorySum. rewrite (fold_weights Merged (fun _ => 1%Q)). ring.
Qed.

#[global] Instance normalized_proper : Proper (Qeq ==> eq ==> Qeq) normalized.
Proof.
  intros a b Hab con _ <-. unfold normalized.
  destruct (con =? 0); [reflexivity | now rewrite Hab].
Qed.

Lemma getOpenNorm_categorySum config l con :
  (getOpenNorm config l con == normalized (categorySum Open (weightOf config) l) con)%Q.
Proof.
  unfold getOpenNorm, normalized, categorySum. destruct (con =? 0); [reflexivity|].
  apply fdiv_proper; [|reflexivity].
  rewrite (fold_weights Open (weightOf config)). now rewrite Qplus_0_l.
Qed.

Lemma getMergedNorm_categorySum config l con :
  (getMergedNorm config l con == normalized (categorySum Merged (weightOf config) l) con)%Q.
Proof.
  unfold getMergedNorm, normalized, categorySum. destruct (con =? 0); [reflexivity|].
  apply fdiv_proper; [|reflexivity].
  rewrite (fold_weights Merged (weightOf config)). now rewrite Qplus_0_l.
Qed.

Lemma prSizeWeight_range config lines :
  (1 <= prSizeWeight config lines <= 3)%Q.
Proof.
  unfold prSizeWeight.
  destruct (fgt lines (float32 (High config))); [split; discriminate|].
  destruct (fgt lines (float32 (Low config))); split; discriminate.
Qed.

(** X6: the size weight of a pull is 1, 2 or 3 for every configuration,
    also one whose thresholds are out of order, and never decreases when the
    size grows. *)
Theorem prSizeWeight_monotone config (size size' : Z) :
  size <= size' ->
  (prSizeWeight config (float32 size) = 1%Q
   \/ prSizeWeight config (float32 size) = 2%Q
   \/ prSizeWeight config (float32 size) = 3%Q)
  /\ (prSizeWeight config (float32 size) <= prSizeWeight config (float32 size'))%Q.
Proof.
  intros Hle. unfold prSizeWeight. rewrite !fgt_float32.
  destruct (Z.ltb_spec (High config) size), (Z.ltb_spec (High config) size'),
    (Z.ltb_spec (Low config) size), (Z.ltb_spec (Low config) size');
    try lia; (split; [auto | discriminate]).
Qed.

Lemma prSizeWeight_monotone_witness :
  (prSizeWeight Examples.defaults (float32 50) = 1%Q
   \/ prSizeWeight Examples.defaults (float32 50) = 2%Q
   \/ prSizeWeight Examples.defaults (float32 50) = 3%Q)
  /\ (prSizeWeight Examples.defaults (float32 50)
      <= prSizeWeight Examples.defaults (float32 51))%Q.
Proof. apply (prSizeWeight_monotone Examples.defaults 50 51). lia. Defined.

Lemma fdiv_le_compat (a b : Q) (con : Z) :
  0 < con -> (a <= b)%Q -> (fdiv a (float32 con) <= fdiv b (float32 con))%Q.
Proof.
  intros Hcon Hab. unfold fdiv. apply round32_mono.
  unfold Qdiv. apply Qmult_le_compat_r; [exact Hab|].
  apply Qinv_le_0_compat. unfold float32, Qle. cbn. lia.
Qed.

(** X7: for a positive contributor count the normalized open value lies
    between the raw open count and three times the raw open count, each
    divided in float32 by the contributors, and likewise for the merged
    value: the size weights scale a count by a factor from 1 to 3 and never
    remove a pull from it, and the division of float32 keeps the order. *)
Theorem normalized_between_raw config pulls con :
  0 < con ->
  (fdiv (getOpen config pulls) (float32 con) <= getOpenNorm config pulls con
   <= fdiv (3 * getOpen config pulls) (float32 con))%Q
  /\ (fdiv (getMerged config pulls) (float32 con) <= getMergedNorm config pulls con
      <= fdiv (3 * getMerged config pulls) (float32 con))%Q.
Proof.
  intros Hcon.
  rewrite getOpenNorm_categorySum, getMergedNorm_categorySum.
  rewrite getOpen_categorySum, getMerged_categorySum.
  unfold normalized. destruct (Z.eqb_spec con 0) as [|_]; [lia|].
  pose proof (categorySum_bounds Open (weightOf config)
                1 3 pulls (fun q => prSizeWeight_range config _)) as [Ho1 Ho2].
  pose proof (categorySum_bounds Merged (weightOf config)
                1 3 pulls (fun q => prSizeWeight_range config _)) as [Hm1 Hm2].
  rewrite Qmult_1_l in Ho1, Hm1.
  repeat split; now apply fdiv_le_compat.
Qed.

Lemma normalized_between_raw_witness :
  (fdiv (getOpen Examples.defaults [openPull Examples.openPr; openPull Examples.openPr])
        (float32 9)
   <= getOpenNorm Examples.defaults [openPull Examples.openPr; openPull Examples.openPr] 9
   <= fdiv (3 * getOpen Examples.defaults [openPull Examples.openPr; openPull Examples.openPr])
           (float32 9))%Q
  /\ (fdiv (getMerged Examples.defaults [openPull Examples.openPr; openPull Examples.openPr])
           (float32 9)
      <= getMergedNorm Examples.defaults [openPull Examples.openPr; openPull Examples.openPr] 9
      <= fdiv (3 * getMerged Examples.defaults
                      [openPull Examples.openPr; openPull Examples.openPr])
              (float32 9))%Q.
Proof.
  apply (normalized_between_raw Examples.defaults
           [openPull Examples.openPr; openPull Examples.openPr] 9).
  lia.
Defined.

Lemma pulsePulls_oneCategory config pulls start end_ :
  forall pp, pulsePulls config pulls start end_ = Ok pp -> Forall oneCategory pp.
Proof.
  induction pulls as [|p rest IH]; intros pp.
  - intros [= <-]. constructor.
  - rewrite pulsePulls_cons.
    destruct (pulsePulls config [p] start end_) as [a| |] eqn:Ha; [|discriminate..].
    rewrite bind_Ok.
    destruct (pulsePulls config rest start end_) as [b| |]; [|discriminate..].
    rewrite bind_Ok. intros [= <-]. apply Forall_app. split; [|now apply IH].
    destruct (pulsePulls_one_cases _ _ _ _ _ Ha) as [->|(_ & [[_ ->]|[_ ->]])].
    + constructor.
    + constructor; [|constructor]. left. repeat split; reflexivity.
    + constructor; [|constructor]. unfold oneCategory, terminalPull. cbn.
      destruct (MergedAt p); [right; left | right; right]; repeat split; reflexivity.
Qed.

Lemma oneCategory_lengths l :
  Forall oneCategory l ->
  (length (List.filter Open l) + length (List.filter Merged l)
   + length (List.filter Closed l) = length l)%nat.
Proof.
  induction 1 as [|q l Hq _ IH]; [reflexivity|].
  cbn [List.filter].
  destruct Hq as [(-> & -> & ->)|[(-> & -> & ->)|(-> & -> & ->)]]; cbn [length]; lia.
Qed.

(** X8: the raw open and merged values of a window are the numbers of open
    and of merged pulls of its classified set; with the number of churned
    pulls, which the program no longer reports, they add up to the size of
    the set. *)
Theorem raw_counts config pulls start end_ pp :
  pulsePulls config pulls start end_ = Ok pp ->
  (getOpen config pp == inject_Z (Z.of_nat (length (List.filter Open pp))))%Q
  /\ (getMerged config pp == inject_Z (Z.of_nat (length (List.filter Merged pp))))%Q
  /\ (getOpen config pp + getMerged config pp
      + inject_Z (Z.of_nat (length (List.filter Closed pp)))
      == inject_Z (Z.of_nat (length pp)))%Q.
Proof.
  intros Hrun.
  pose proof (oneCategory_lengths pp (pulsePulls_oneCategory _ _ _ _ _ Hrun)) as Hlen.
  assert (Ho : (getOpen config pp == inject_Z (Z.of_nat (length (List.filter Open pp))))%Q)
    by (rewrite getOpen_categorySum; apply categorySum_count).
  assert (Hm : (getMerged config pp
                == inject_Z (Z.of_nat (length (List.filter Merged pp))))%Q)
    by (rewrite getMerged_categorySum; apply categorySum_count).
  split; [exact Ho|]. split; [exact Hm|].
  rewrite Ho, Hm, <- !inject_Z_plus, <- !Nat2Z.inj_add, Hlen. reflexivity.
Qed.

Lemma raw_counts_witness :
  (getOpen Examples.defaults [terminalPull Examples.mergedPr; openPull Examples.openPr]
   == inject_Z (Z.of_nat (length (List.filter Open
        [terminalPull Examples.mergedPr; openPull Examples.openPr]))))%Q
  /\ (getMerged Examples.defaults [terminalPull Examples.mergedPr; openPull Examples.openPr]
      == inject_Z (Z.of_nat (length (List.filter Merged
           [terminalPull Examples.mergedPr; openPull Examples.openPr]))))%Q
  /\ (getOpen Examples.defaults [terminalPull Examples.mergedPr; openPull Examples.openPr]
      + getMerged Examples.defaults [terminalPull Examples.mergedPr; openPull Examples.openPr]
      + inject_Z (Z.of_nat (length (List.filter Closed
          [terminalPull Examples.mergedPr; openPull Examples.openPr])))
      == inject_Z (Z.of_nat (length
           [terminalPull Examples.mergedPr; openPull Examples.openPr])))%Q.
Proof.
  apply (raw_counts Examples.defaults Examples.pulls
           (Isoweek.StartTime 2024 1) (Isoweek.StartTime 2024 3)).
  vm_compute. reflexivity.
Defined.

End AggregatorFacts.

(** * The order of the pulls *)

Section PullOrder.

Lemma pulsePulls_Permutation config start end_ pulls1 pulls2 :
  Permutation pulls1 pulls2 ->
  forall pp1,
    pulsePulls config pulls1 start end_ = Ok pp1 ->
    exists pp2, pulsePulls config pulls2 start end_ = Ok pp2 /\ Permutation pp1 pp2.
Proof.
  induction 1 as [|x l l' _ IH|x y l|l l' l'' _ IH1 _ IH2]; intros pp1.
  - intros [= <-]. exists []. split; [reflexivity | constructor].
  - rewrite (pulsePulls_cons _ x l), (pulsePulls_cons _ x l').
    destruct (pulsePulls config [x] start end_) as [a| |]; [|discriminate..].
    rewrite !bind_Ok.
    destruct (pulsePulls config l start end_) as [b| |]; [|discriminate..].
    rewrite bind_Ok. intros [= <-].
    destruct (IH b eq_refl) as (b' & -> & Hperm). rewrite bind_Ok.
    exists (a ++ b'). split; [reflexivity|]. now apply Permutation_app_head.
  - rewrite (pulsePulls_cons _ y (x :: l)), (pulsePulls_cons _ x l),
      (pulsePulls_cons _ x (y :: l)), (pulsePulls_cons _ y l).
    destruct (pulsePulls config [y] start end_) as [a| |]; [|discriminate..].
    rewrite !bind_Ok.
    destruct (pulsePulls config [x] start end_) as [b| |]; [|discriminate..].
    rewrite !bind_Ok.
    destruct (pulsePulls config l start end_) as [c| |]; [|discriminate..].
    rewrite !bind_Ok. intros [= <-].
    exists (b ++ a ++ c). split; [reflexivity|].
    rewrite !app_assoc. apply Permutation_app_tail, Permutation_app_comm.
  - intros H1. destruct (IH1 pp1 H1) as (pp & Hpp & Hperm1).
    destruct (IH2 pp Hpp) as (pp2 & Hpp2 & Hperm2).
    exists pp2. split; [exact Hpp2 | now transitivity pp].
Qed.

(** X9: the order of the pull requests does not matter to a window: when
    [pulsePulls] classifies a list, it classifies every reordering of it, into
    a reordering of the same set, and the raw and normalized open and merged
    values are the same. *)
Theorem metrics_ignore_order config start end_ pulls1 pulls2 pp1 :
  Permutation pulls1 pulls2 ->
  pulsePulls config pulls1 start end_ = Ok pp1 ->
  exists pp2,
    pulsePulls config pulls2 start end_ = Ok pp2
    /\ Permutation pp1 pp2
    /\ (getOpen config pp1 == getOpen config pp2)%Q
    /\ (getMerged config pp1 == getMerged config pp2)%Q
    /\ forall con,
         (getOpenNorm config pp1 con == getOpenNorm config pp2 con)%Q
         /\ (getMergedNorm config pp1 con == getMergedNorm config pp2 con)%Q.
Proof.
  intros Hperm Hrun.
  destruct (pulsePulls_Permutation _ _ _ _ _ Hperm pp1 Hrun) as (pp2 & Hrun2 & Hpp).
  exists pp2. split; [exact Hrun2|]. split; [exact Hpp|].
  split; [|split].
  - rewrite !getOpen_categorySum. now apply categorySum_Permutation.
  - rewrite !getMerged_categorySum. now apply categorySum_Permutation.
  - intros con. destruct (Z.eq_dec con 0) as [->|Hcon].
    + split; reflexivity.
    + rewrite !getOpenNorm_categorySum, !getMergedNorm_categorySum.
      split; apply normalized_proper; try reflexivity;
        now apply categorySum_Permutation.
Qed.

Lemma metrics_ignore_order_witness :
  exists pp2,
    pulsePulls Examples.defaults
      [Examples.botPr; Examples.openPr; Examples.mergedPr]
      (Isoweek.StartTime 2024 1) (Isoweek.StartTime 2024 3) = Ok pp2
    /\ Permutation [terminalPull Examples.mergedPr; openPull Examples.openPr] pp2
    /\ (getOpen Examples.defaults
          [terminalPull Examples.mergedPr; openPull Examples.openPr]
        == getOpen Examples.defaults pp2)%Q
    /\ (getMerged Examples.defaults
          [terminalPull Examples.mergedPr; openPull Examples.openPr]
        == getMerged Examples.defaults pp2)%Q
    /\ forall con,
         (getOpenNorm Examples.defaults
            [terminalPull Examples.mergedPr; openPull Examples.openPr] con
          == getOpenNorm Examples.defaults pp2 con)%Q
         /\ (getMergedNorm Examples.defaults
               [terminalPull Examples.mergedPr; openPull Examples.openPr] con
             == getMergedNorm Examples.defaults pp2 con)%Q.
Proof.
  apply (metrics_ignore_order Examples.defaults
           (Isoweek.StartTime 2024 1) (Isoweek.StartTime 2024 3) Examples.pulls).
  - unfold Examples.pulls.
    eapply perm_trans; [apply Permutation_rev|]. reflexivity.
  - vm_compute. reflexivity.
Defined.

End PullOrder.

(** * Automated accounts *)

Section Bots.

Import Isoweek.

Lemma allowlistedUser_empty config login :
  Allowlist config = [] -> allowlistedUser config login = true.
Proof. intros H. apply allowlistedUser_iff. now left. Qed.

Lemma pulsePulls_middle config l1 p l2 start end_ a cls b :
  pulsePulls config l1 start end_ = Ok a ->
  pulsePulls config [p] start end_ = Ok cls ->
  pulsePulls config l2 start end_ = Ok b ->
  pulsePulls config (l1 ++ p :: l2) start end_ = Ok (a ++ cls ++ b).
Proof.
  intros Ha Hc Hb.
  rewrite pulsePulls_app, Ha, bind_Ok, pulsePulls_cons, Hc, bind_Ok, Hb.
  reflexivity.
Qed.

(** The classified set of a list with and without one of its pulls. *)
Lemma pulsePulls_split config l1 p l2 start end_ pp pp' :
  pulsePulls config (l1 ++ l2) start end_ = Ok pp ->
  pulsePulls config (l1 ++ p :: l2) start end_ = Ok pp' ->
  exists a cls b,
    pulsePulls config [p] start end_ = Ok cls
    /\ pp = a ++ b /\ pp' = a ++ cls ++ b.
Proof.
  rewrite !pulsePulls_app, (pulsePulls_cons _ p l2).
  destruct (pulsePulls config l1 start end_) as [a| |]; [|discriminate..].
  rewrite !bind_Ok.
  destruct (pulsePulls config [p] start end_) as [cls| |];
    [|destruct (pulsePulls config l2 start end_); discriminate..].
  destruct (pulsePulls config l2 start end_) as [b| |]; [|discriminate..].
  rewrite !bind_Ok. intros [= <-] [= <-]. now exists a, cls, b.
Qed.

Lemma categorySum_insert category weight (a cls b : list Pull) :
  (categorySum category weight (a ++ cls ++ b)
   == categorySum category weight (a ++ b) + categorySum category weight cls)%Q.
Proof.
  rewrite (categorySum_Permutation category weight (a ++ cls ++ b) (cls ++ a ++ b))
    by apply Permutation_app_swap_app.
  unfold categorySum. induction cls as [|q cls IH]; cbn [app List.filter].
  - cbn. ring.
  - destruct (category q); cbn [map fold_right]; rewrite IH; ring.
Qed.

(** What the classification of one pull adds to the sums of a window. *)
Lemma categorySum_one config p (a : Pulse.t) cls :
  pulsePulls config [p] (Pulse.Start a) (Pulse.End a) = Ok cls ->
  (categorySum Open (fun _ => 1) cls == (if openIn config p a then 1 else 0))%Q
  /\ (categorySum Merged (fun _ => 1) cls == (if mergedIn config p a then 1 else 0))%Q
  /\ (categorySum Open (weightOf config) cls
      == (if openIn config p a then weightOf config (openPull p) else 0))%Q
  /\ (categorySum Merged (weightOf config) cls
      == (if mergedIn config p a then weightOf config (terminalPull p) else 0))%Q.
Proof.
  intros Hcls. unfold openIn, mergedIn. rewrite Hcls.
  destruct (pulsePulls_one_cases _ _ _ _ _ Hcls) as [->|(_ & [[_ ->]|[_ ->]])].
  - repeat split; reflexivity.
  - unfold categorySum. cbn. repeat split; ring.
  - unfold categorySum. cbn [List.filter Open Merged terminalPull].
    destruct (MergedAt p); cbn; repeat split; ring.
Qed.

Lemma countedIn_window config l1 p l2 s e d people pp pp' :
  pulsePulls config (l1 ++ l2) s e = Ok pp ->
  pulsePulls config (l1 ++ p :: l2) s e = Ok pp' ->
  countedIn config (l1 ++ l2) p
    {| Pulse.Start := s; Pulse.End := e; Pulse.Days := d; Pulse.Contributors := people;
       Pulse.PrOpen := getOpen config pp; Pulse.PrMerged := getMerged config pp;
       Pulse.PrOpenNorm := getOpenNorm config pp people;
       Pulse.PrMergedNorm := getMergedNorm config pp people |}
    {| Pulse.Start := s; Pulse.End := e; Pulse.Days := d; Pulse.Contributors := people;
       Pulse.PrOpen := getOpen config pp'; Pulse.PrMerged := getMerged config pp';
       Pulse.PrOpenNorm := getOpenNorm config pp' people;
       Pulse.PrMergedNorm := getMergedNorm config pp' people |}.
Proof.
  intros Hpp Hpp'.
  destruct (pulsePulls_split _ _ _ _ _ _ _ _ Hpp Hpp') as (a & cls & b & Hcls & -> & ->).
  set (w := {| Pulse.Start := s; Pulse.End := e; Pulse.Days := d;
               Pulse.Contributors := people;
               Pulse.PrOpen := getOpen config (a ++ b);
               Pulse.PrMerged := getMerged config (a ++ b);
               Pulse.PrOpenNorm := getOpenNorm config (a ++ b) people;
               Pulse.PrMergedNorm := getMergedNorm config (a ++ b) people |}).
  destruct (categorySum_one config p w cls Hcls) as (Ho & Hm & Hon & Hmn).
  split; [reflexivity|]. split; [reflexivity|].
  exists (a ++ b). split; [exact Hpp|].
  rewrite <- Ho, <- Hm, <- Hon, <- Hmn. clear Ho Hm Hon Hmn. subst w.
  cbn [Pulse.PrOpen Pulse.PrMerged Pulse.PrOpenNorm Pulse.PrMergedNorm Pulse.Contributors].
  rewrite !getOpen_categorySum, !getMerged_categorySum,
    !getOpenNorm_categorySum, !getMergedNorm_categorySum.
  repeat split; try reflexivity; try apply normalized_proper;
    try reflexivity; apply categorySum_insert.
Qed.

Lemma getPulsesLoop_counted config end_ l1 p l2 users :
  forall fuel y w acc acc' res res',
    getPulsesLoop fuel config end_ (l1 ++ l2) users y w acc = Ok res ->
    getPulsesLoop fuel config end_ (l1 ++ p :: l2) users y w acc' = Ok res' ->
    Forall2 (countedIn config (l1 ++ l2) p) acc acc' ->
    Forall2 (countedIn config (l1 ++ l2) p) res res'.
Proof.
  induction fuel as [|fuel IH]; intros y w acc acc' res res' H1 H2 Hacc;
    [discriminate|].
  cbn [getPulsesLoop] in H1, H2.
  destruct (nextPulseToIsoWeek y w) as [y' w'].
  destruct (After (StartTime y w) end_).
  - injection H1 as <-. injection H2 as <-. exact Hacc.
  - destruct (pulsePulls config (l1 ++ l2) (StartTime y w) (StartTime y' w'))
      as [pp| |] eqn:Hpp; [|discriminate..].
    destruct (pulsePulls config (l1 ++ p :: l2) (StartTime y w) (StartTime y' w'))
      as [pp'| |] eqn:Hpp'; [|discriminate..].
    rewrite bind_Ok in H1, H2.
    eapply IH; [exact H1 | exact H2 |].
    apply Forall2_app; [exact Hacc|]. constructor; [|constructor].
    now apply countedIn_window.
Qed.

Lemma getPulses_counted config start end_ l1 p l2 users :
  start <= end_ ->
  Forall (fun p => closedWhenTerminal p = true) (l1 ++ p :: l2) ->
  exists ws ws',
    getPulses config start end_ (l1 ++ l2) users = Ok ws
    /\ getPulses config start end_ (l1 ++ p :: l2) users = Ok ws'
    /\ Forall2 (countedIn config (l1 ++ l2) p) ws ws'.
Proof.
  intros Hse Hwf.
  assert (Hwf' : Forall (fun p => closedWhenTerminal p = true) (l1 ++ l2)).
  { apply Forall_app in Hwf as [H1 H2]. apply Forall_app. split; [exact H1|].
    now apply Forall_cons in H2 as [_ H2]. }
  destruct (getPulses_chain config start end_ (l1 ++ l2) users Hse Hwf')
    as (_ & _ & ws & Hrun & _).
  destruct (getPulses_chain config start end_ (l1 ++ p :: l2) users Hse Hwf)
    as (_ & _ & ws' & Hrun' & _).
  exists ws, ws'. split; [exact Hrun|]. split; [exact Hrun'|].
  unfold getPulses in Hrun, Hrun'.
  destruct (Before end_ start); [discriminate|].
  destruct (ISOWeek start) as [y w0].
  destruct (isoWeekToPulseStart w0) as [w| |]; [|discriminate..].
  rewrite bind_Ok in Hrun, Hrun'.
  eapply getPulsesLoop_counted; [exact Hrun | exact Hrun' | constructor].
Qed.

(** C10, as the code has it: a pull whose author login is empty or starts
    with "renovate" is skipped by [getUsers], wherever it stands in the list,
    and its login is never a contributor.  With an empty allowlist
    [pulsePulls] still classifies it like any other pull: open in the windows
    that end after its creation, or merged or churned in the window of its
    close time.  The windows of a scan of the list with the pull are the
    windows of the scan without it, with the same contributors, and with the
    pull counted: 1 more in the raw open value and its size weight more in
    the sum that the normalized open value divides by the contributors,
    where the window counts it as open, and the same in the merged values
    where the window counts it as merged.  A churned pull changes no value
    of a window. *)
Theorem bot_pulls_skipped_but_counted config now p :
  Login p = ""%string \/ String.prefix "renovate" (Login p) = true ->
  (forall l1 l2, getUsers config now (l1 ++ p :: l2) = getUsers config now (l1 ++ l2))
  /\ (forall pulls, getUsers config now pulls !! Login p = None)
  /\ (Allowlist config = [] ->
      (State p = "OPEN"%string -> ClosedAt p = None ->
       forall a,
         pulsePulls config [p] (Pulse.Start a) (Pulse.End a)
         = Ok (if CreatedAt p <? Pulse.End a then [openPull p] else [])
         /\ openIn config p a = (CreatedAt p <? Pulse.End a)
         /\ mergedIn config p a = false)
      /\ (forall c, State p <> "OPEN"%string -> ClosedAt p = Some c ->
          forall a,
            pulsePulls config [p] (Pulse.Start a) (Pulse.End a)
            = Ok (if (Pulse.Start a <=? c) && (c <? Pulse.End a)
                     && (CreatedAt p <? Pulse.End a)
                  then [terminalPull p] else [])
            /\ openIn config p a = false
            /\ mergedIn config p a
               = (Pulse.Start a <=? c) && (c <? Pulse.End a)
                 && (CreatedAt p <? Pulse.End a)
                 && (match MergedAt p with Some _ => true | None => false end))
      /\ (forall l1 l2 start end_ a cls b,
            pulsePulls config l1 start end_ = Ok a ->
            pulsePulls config [p] start end_ = Ok cls ->
            pulsePulls config l2 start end_ = Ok b ->
            pulsePulls config (l1 ++ p :: l2) start end_ = Ok (a ++ cls ++ b))
      /\ (forall l1 l2 start end_,
            start <= end_ ->
            Forall (fun p => closedWhenTerminal p = true) (l1 ++ p :: l2) ->
            exists ws ws',
              getPulses config start end_ (l1 ++ l2)
                        (getUsers config now (l1 ++ l2)) = Ok ws
              /\ getPulses config start end_ (l1 ++ p :: l2)
                           (getUsers config now (l1 ++ p :: l2)) = Ok ws'
              /\ Forall2 (countedIn config (l1 ++ l2) p) ws ws')).
Proof.
  intros Hbot.
  assert (Htr : trackedLogin (Login p) = false).
  { unfold trackedLogin. destruct Hbot as [-> | ->]; [reflexivity|].
    now rewrite andb_false_r. }
  split; [intros; now apply getUsers_skip|]. split.
  - intros pulls. destruct (getUsers config now pulls !! Login p) as [u|] eqn:Hu;
      [|reflexivity].
    apply getUsers_keys_tracked in Hu. congruence.
  - intros Hempty.
    pose proof (allowlistedUser_empty config (Login p) Hempty) as Hallow.
    split; [|split; [|split]].
    + intros Hstate Hclosed a.
      pose proof (pulsePulls_open config p (Pulse.Start a) (Pulse.End a)
                    Hallow Hstate Hclosed) as Hcls.
      split; [exact Hcls|]. unfold openIn, mergedIn. rewrite Hcls.
      destruct (CreatedAt p <? Pulse.End a); split; reflexivity.
    + intros c Hstate Hclosed a.
      pose proof (pulsePulls_terminal config p c (Pulse.Start a) (Pulse.End a)
                    Hallow Hstate Hclosed) as Hcls.
      split; [exact Hcls|]. unfold openIn, mergedIn. rewrite Hcls.
      destruct ((Pulse.Start a <=? c) && (c <? Pulse.End a)
                && (CreatedAt p <? Pulse.End a)); split; reflexivity.
    + intros; now apply pulsePulls_middle.
    + intros l1 l2 start end_ Hse Hwf.
      rewrite (getUsers_skip config now l1 p l2 Htr).
      now apply getPulses_counted.
Qed.

Lemma bot_pulls_skipped_but_counted_witness :
  (Login Examples.botOpenPr = ""%string
   \/ String.prefix "renovate" (Login Examples.botOpenPr) = true)
  /\ getUsers Examples.defaults Examples.now
       [Examples.mergedPr; Examples.botOpenPr; Examples.openPr]
     = getUsers Examples.defaults Examples.now [Examples.mergedPr; Examples.openPr]
  /\ exists ws ws',
       getPulses Examples.defaults Examples.scanStart Examples.scanEnd
                 [Examples.mergedPr; Examples.openPr]
                 (getUsers Examples.defaults Examples.now
                           [Examples.mergedPr; Examples.openPr]) = Ok ws
       /\ getPulses Examples.defaults Examples.scanStart Examples.scanEnd
                    [Examples.mergedPr; Examples.botOpenPr; Examples.openPr]
                    (getUsers Examples.defaults Examples.now
                              [Examples.mergedPr; Examples.botOpenPr; Examples.openPr])
          = Ok ws'
       /\ Forall2 (countedIn Examples.defaults [Examples.mergedPr; Examples.openPr]
                             Examples.botOpenPr) ws ws'.
Proof.
  assert (H : Login Examples.botOpenPr = ""%string
              \/ String.prefix "renovate" (Login Examples.botOpenPr) = true)
    by (right; reflexivity).
  split; [exact H|].
  destruct (bot_pulls_skipped_but_counted Examples.defaults Examples.now
              Examples.botOpenPr H) as (Hskip & _ & Hcount).
  split.
  - exact (Hskip [Examples.mergedPr] [Examples.openPr]).
  - destruct (Hcount eq_refl) as (_ & _ & _ & Hwin).
    apply (Hwin [Examples.mergedPr] [Examples.openPr]).
    + vm_compute; discriminate.
    + repeat constructor.
Defined.

(** C10 as stated fails.  The churned pull of the bot is classified in the
    window of its close time, and the windows of the scan are the same with
    and without it: the windows carry open and merged values only.  And the
    open pull of the bot, alone in the list, is counted in the raw open value
    of the windows after its creation, which have no contributor and so the
    normalized open value 0. *)
Lemma bot_pulls_skipped_but_counted_counterexample :
  String.prefix "renovate" (Login Examples.botPr) = true
  /\ Allowlist Examples.defaults = []
  /\ pulsePulls Examples.defaults [Examples.botPr]
       (StartTime 2024 3) (StartTime 2024 5)
     = Ok [terminalPull Examples.botPr]
  /\ Closed (terminalPull Examples.botPr) = true
  /\ getPulses Examples.defaults Examples.scanStart Examples.scanEnd
       [Examples.mergedPr; Examples.openPr; Examples.botPr]
       (getUsers Examples.defaults Examples.now
                 [Examples.mergedPr; Examples.openPr; Examples.botPr])
     = getPulses Examples.defaults Examples.scanStart Examples.scanEnd
         [Examples.mergedPr; Examples.openPr]
         (getUsers Examples.defaults Examples.now [Examples.mergedPr; Examples.openPr])
  /\ String.prefix "renovate" (Login Examples.botOpenPr) = true
  /\ exists w1 w2 w3,
       getPulses Examples.defaults Examples.scanStart Examples.scanEnd
                 [Examples.botOpenPr]
                 (getUsers Examples.defaults Examples.now [Examples.botOpenPr])
       = Ok [w1; w2; w3]
       /\ openIn Examples.defaults Examples.botOpenPr w2 = true
       /\ (Pulse.PrOpen w2 == 1)%Q
       /\ Pulse.Contributors w2 = 0
       /\ Pulse.PrOpenNorm w2 = 0%Q.
Proof.
  split; [reflexivity|]. split; [reflexivity|].
  split; [vm_compute; reflexivity|]. split; [reflexivity|].
  split; [vm_compute; reflexivity|]. split; [reflexivity|].
  eexists. eexists. eexists. split; [vm_compute; reflexivity|].
  repeat split; vm_compute; reflexivity.
Qed.

(** The open pull of the bot in the scan of the examples: the window of ISO
    weeks 3 and 4 of 2024 has one contributor with and without it; its raw
    open value goes from 1 to 2 and its normalized open value from 3 to 5,
    the pull of 100 lines weighing 2. *)
Example bot_open_pull_in_window :
  exists w1 w2 w3 w1' w2' w3',
    getPulses Examples.defaults Examples.scanStart Examples.scanEnd
              [Examples.mergedPr; Examples.openPr]
              (getUsers Examples.defaults Examples.now
                        [Examples.mergedPr; Examples.openPr]) = Ok [w1; w2; w3]
    /\ getPulses Examples.defaults Examples.scanStart Examples.scanEnd
                 [Examples.mergedPr; Examples.botOpenPr; Examples.openPr]
                 (getUsers Examples.defaults Examples.now
                           [Examples.mergedPr; Examples.botOpenPr; Examples.openPr])
       = Ok [w1'; w2'; w3']
    /\ w1' = w1
    /\ Pulse.Start w2 = StartTime 2024 3
    /\ Pulse.Contributors w2 = 1 /\ Pulse.Contributors w2' = 1
    /\ (Pulse.PrOpen w2 == 1)%Q /\ (Pulse.PrOpen w2' == 2)%Q
    /\ (Pulse.PrOpenNorm w2 == 3)%Q /\ (Pulse.PrOpenNorm w2' == 5)%Q.
Proof.
  do 6 eexists. split; [vm_compute; reflexivity|].
  split; [vm_compute; reflexivity|].
  repeat split; vm_compute; reflexivity.
Qed.

End Bots.

(** * More on the contributors *)

Section ContributorFacts.

Lemma countContributor_activeIn config start end_ k v n :
  countContributor config start end_ k v n
  = if activeIn config start end_ (k, v) then n + 1 else n.
Proof.
  unfold countContributor, activeIn. cbn [fst snd].
  destruct (allowlistedUser config k); cbn [negb andb]; reflexivity.
Qed.

(** X10: the contributor count of a window is the number of entries of the
    map whose login passes the allowlist and whose interval starts before the
    end of the window and does not end before its start, whatever the order
    in which the map is walked; it lies between 0 and the size of the map. *)
Theorem pulseContributors_counts config (users : gmap string User.t) start end_ :
  pulseContributors config users start end_
  = Z.of_nat (size (filter (fun kv => activeIn config start end_ kv = true) users))
  /\ 0 <= pulseContributors config users start end_ <= Z.of_nat (size users).
Proof.
  assert (E : pulseContributors config users start end_
              = Z.of_nat (size (filter (fun kv => activeIn config start end_ kv = true)
                                       users))).
  { induction users as [|k v users Hk IH] using map_ind.
    - now rewrite map_filter_empty, map_size_empty.
    - rewrite pulseContributors_insert by exact Hk.
      rewrite countContributor_activeIn, IH.
      destruct (activeIn config start end_ (k, v)) eqn:Hact.
      + rewrite map_filter_insert_True by exact Hact.
        rewrite map_size_insert_None by (apply map_lookup_filter_None; now left).
        lia.
      + rewrite map_filter_insert_not'; [reflexivity | congruence |].
        intros y Hy. congruence. }
  split; [exact E|]. rewrite E.
  pose proof (map_size_filter (fun kv => activeIn config start end_ kv = true) users).
  lia.
Qed.

(** X11: widening a window never lowers its contributor count: a window
    that starts no later and ends no earlier counts at least the same
    contributors. *)
Theorem pulseContributors_widen config (users : gmap string User.t) start end_ start' end_' :
  start' <= start ->
  end_ <= end_' ->
  pulseContributors config users start end_
  <= pulseContributors config users start' end_'.
Proof.
  intros Hs He. induction users as [|k v users Hk IH] using map_ind.
  - reflexivity.
  - rewrite !pulseContributors_insert by exact Hk.
    rewrite !countContributor_activeIn. unfold activeIn, Before. cbn [fst snd].
    destruct (allowlistedUser config k); cbn [andb]; [|exact IH].
    destruct (Z.ltb_spec (User.Start v) end_), (Z.ltb_spec (User.Start v) end_'),
      (Z.ltb_spec (User.End v) start), (Z.ltb_spec (User.End v) start');
      cbn [negb andb]; lia.
Qed.

Lemma pulseContributors_widen_witness :
  pulseContributors Examples.defaults
    (getUsers Examples.defaults Examples.now Examples.pulls)
    (Isoweek.StartTime 2024 3) (Isoweek.StartTime 2024 5)
  <= pulseContributors Examples.defaults
       (getUsers Examples.defaults Examples.now Examples.pulls)
       (Isoweek.StartTime 2024 1) (Isoweek.StartTime 2024 5).
Proof.
  apply (pulseContributors_widen Examples.defaults
           (getUsers Examples.defaults Examples.now Examples.pulls));
    vm_compute; discriminate.
Defined.

(** X12: the logins [getUsers] returns are exactly the author logins of the
    list that are not empty and do not start with "renovate"; no time of any
    pull matters to that. *)
Theorem getUsers_keys config now pulls login :
  is_Some (getUsers config now pulls !! login)
  <-> trackedLogin login = true /\ exists p, p ∈ pulls /\ Login p = login.
Proof.
  induction pulls as [|r l IH] using rev_ind.
  - unfold getUsers. cbn [fold_left]. rewrite lookup_empty. split.
    + intros [u Hu]. discriminate.
    + intros (_ & p & Hp & _). apply elem_of_nil in Hp. destruct Hp.
  - rewrite getUsers_snoc. destruct (trackedLogin (Login r)) eqn:Htr.
    + rewrite getUsersStep_tracked by exact Htr.
      destruct (decide (Login r = login)) as [<-|Hne].
      * rewrite lookup_insert_eq. split; [|eauto].
        intros _. split; [exact Htr|]. exists r.
        split; [apply elem_of_app; right; now apply list_elem_of_singleton | reflexivity].
      * rewrite lookup_insert_ne by exact Hne. rewrite IH. split.
        -- intros (Ht & p & Hp & Hlp). split; [exact Ht|]. exists p.
           split; [apply elem_of_app; now left | exact Hlp].
        -- intros (Ht & p & Hp & Hlp). split; [exact Ht|]. exists p.
           split; [|exact Hlp]. apply elem_of_app in Hp as [Hp|Hp]; [exact Hp|].
           apply list_elem_of_singleton in Hp. congruence.
    + rewrite getUsersStep_skip by exact Htr. rewrite IH. split.
      * intros (Ht & p & Hp & Hlp). split; [exact Ht|]. exists p.
        split; [apply elem_of_app; now left | exact Hlp].
      * intros (Ht & p & Hp & Hlp). split; [exact Ht|]. exists p.
        split; [|exact Hlp]. apply elem_of_app in Hp as [Hp|Hp]; [exact Hp|].
        apply list_elem_of_singleton in Hp. congruence.
Qed.

Lemma intervalOf_unique config now l login u1 u2 :
  intervalOf config now l login u1 -> intervalOf config now l login u2 -> u1 = u2.
Proof.
  intros ((p1 & Hp1 & Hl1 & Hc1) & Hmin1 & M1 & (q1 & Hq1 & Hlq1 & He1) & Hmax1 & Hend1)
         ((p2 & Hp2 & Hl2 & Hc2) & Hmin2 & M2 & (q2 & Hq2 & Hlq2 & He2) & Hmax2 & Hend2).
  assert (User.Start u1 = User.Start u2).
  { pose proof (Hmin1 p2 Hp2 Hl2). pose proof (Hmin2 p1 Hp1 Hl1). lia. }
  assert (M1 = M2).
  { pose proof (Hmax1 q2 Hq2 Hlq2). pose proof (Hmax2 q1 Hq1 Hlq1). lia. }
  subst M2. destruct u1, u2. cbn in *. congruence.
Qed.

Lemma intervalOf_Permutation config now l1 l2 login u :
  Permutation l1 l2 -> intervalOf config now l1 login u -> intervalOf config now l2 login u.
Proof.
  intros Hperm ((p & Hp & Hlp & Hcp) & Hmin & M & (q & Hq & Hlq & Heq) & Hmax & Hend).
  split; [|split].
  - exists p. now rewrite <- Hperm.
  - intros x Hx. apply Hmin. now rewrite Hperm.
  - exists M. split; [|split; [|exact Hend]].
    + exists q. now rewrite <- Hperm.
    + intros x Hx. apply Hmax. now rewrite Hperm.
Qed.

(** X13: for pulls whose times are in order, [getUsers] does not depend on
    the order of the list: every reordering gives the same map. *)
Theorem getUsers_ignores_order config now pulls1 pulls2 :
  Forall (chronological now) pulls1 ->
  Permutation pulls1 pulls2 ->
  getUsers config now pulls1 = getUsers config now pulls2.
Proof.
  intros Hchron Hperm.
  assert (Hchron2 : Forall (chronological now) pulls2) by now rewrite <- Hperm.
  destruct (getUsers_usersOf config now pulls1 Hchron) as [Hkeys1 Hall1].
  destruct (getUsers_usersOf config now pulls2 Hchron2) as [Hkeys2 Hall2].
  apply map_eq. intros login.
  destruct (getUsers config now pulls1 !! login) as [u1|] eqn:H1;
    destruct (getUsers config now pulls2 !! login) as [u2|] eqn:H2.
  - f_equal. destruct (Hkeys1 _ _ H1) as [_ Hi1]. destruct (Hkeys2 _ _ H2) as [_ Hi2].
    eapply intervalOf_unique; [|exact Hi2].
    now apply (intervalOf_Permutation _ _ pulls1).
  - destruct (Hkeys1 _ _ H1) as [Ht ((p & Hp & Hlp & _) & _)].
    destruct (Hall2 p) as [u Hu]; [now rewrite <- Hperm | now rewrite Hlp |].
    rewrite Hlp in Hu. congruence.
  - destruct (Hkeys2 _ _ H2) as [Ht ((p & Hp & Hlp & _) & _)].
    destruct (Hall1 p) as [u Hu]; [now rewrite Hperm | now rewrite Hlp |].
    rewrite Hlp in Hu. congruence.
  - reflexivity.
Qed.

Lemma getUsers_ignores_order_witness :
  getUsers Examples.defaults Examples.now Examples.pulls
  = getUsers Examples.defaults Examples.now
      [Examples.botPr; Examples.openPr; Examples.mergedPr].
Proof.
  apply (getUsers_ignores_order Examples.defaults Examples.now Examples.pulls).
  - repeat (apply List.Forall_cons; [split; vm_compute; discriminate|]).
    apply List.Forall_nil.
  - unfold Examples.pulls. eapply perm_trans; [apply Permutation_rev|]. reflexivity.
Defined.

(** X14: among pulls whose times are in order, a tracked author with a pull
    that is neither merged nor closed is active until now: the interval of
    the login ends at now, whatever the cooldown. *)
Theorem getUsers_open_pull_active config now pulls p :
  Forall (chronological now) pulls ->
  p ∈ pulls ->
  trackedLogin (Login p) = true ->
  MergedAt p = None ->
  ClosedAt p = None ->
  exists u, getUsers config now pulls !! Login p = Some u /\ User.End u = now.
Proof.
  intros Hchron Hp Htr Hm Hc.
  destruct (getUsers_usersOf config now pulls Hchron) as [Hkeys Hall].
  destruct (Hall p Hp Htr) as [u Hu]. exists u. split; [exact Hu|].
  destruct (Hkeys _ _ Hu) as (_ & _ & _ & M & (q & Hq & Hlq & Heq) & Hmax & Hend).
  rewrite Forall_forall in Hchron.
  assert (HM : M <= now) by (rewrite <- Heq; apply (Hchron q Hq)).
  assert (Hnow : prEnd now p = now) by (unfold prEnd; now rewrite Hm, Hc).
  pose proof (Hmax p Hp eq_refl) as Hle. rewrite Hnow in Hle.
  assert (EM : M = now) by lia.
  rewrite Hend, EM. destruct (promote_cases config now now) as [Hpr | Hpr]; exact Hpr.
Qed.

Lemma getUsers_open_pull_active_witness :
  exists u,
    getUsers Examples.defaults Examples.now Examples.pulls !! Login Examples.openPr = Some u
    /\ User.End u = Examples.now.
Proof.
  apply (getUsers_open_pull_active Examples.defaults Examples.now Examples.pulls
           Examples.openPr).
  - repeat (apply List.Forall_cons; [split; vm_compute; discriminate|]).
    apply List.Forall_nil.
  - unfold Examples.pulls. apply elem_of_cons. right. apply elem_of_cons. now left.
  - reflexivity.
  - reflexivity.
  - reflexivity.
Defined.

End ContributorFacts.

(** * More on the windows *)

Section WindowFacts.

Import Isoweek.

Lemma nextPulse_length y w :
  pulseWeek y w ->
  (StartTime (fst (nextPulseToIsoWeek y w)) (snd (nextPulseToIsoWeek y w))
   = StartTime y w + 14 * nsPerDay /\ w <> 53)
  \/ (StartTime (fst (nextPulseToIsoWeek y w)) (snd (nextPulseToIsoWeek y w))
      = StartTime y w + 7 * nsPerDay /\ w = 53).
Proof.
  intros [Hw Hodd]. unfold nextPulseToIsoWeek.
  pose proof (isoWeeks_range y) as R.
  destruct (Z.gtb_spec (w + 2) (isoWeeks y)) as [Hgt|Hle]; cbn [fst snd].
  - rewrite StartTime_next_year.
    replace (isoWeeks y + 1) with (w + (isoWeeks y + 1 - w)) by lia.
    rewrite StartTime_add.
    assert (isoWeeks y = w \/ isoWeeks y = w + 1) as [E|E] by lia.
    + right. rewrite E. split; [lia|].
      destruct R as [R|R]; [|lia]. rewrite R in E. subst w. discriminate.
    + left. rewrite E. split; [lia|]. intros ->. lia.
  - left. rewrite StartTime_add. split; lia.
Qed.

Lemma pulseChain_lengths end_ y w ws :
  pulseChain end_ y w ws -> pulseWeek y w -> Forall pulseLength ws.
Proof.
  induction 1 as [y w Hstop | y w p ws Hle Hs He Hchain IH]; intros Hyw.
  - constructor.
  - destruct (nextPulse_step y w Hyw) as [Hnext _].
    constructor; [|apply IH, Hnext].
    unfold pulseLength. rewrite He, Hs, ISOWeek_StartTime by apply Hyw. cbn [snd].
    apply nextPulse_length, Hyw.
Qed.

Lemma getPulsesLoop_days config end_ pulls users :
  forall fuel y w acc res,
    getPulsesLoop fuel config end_ pulls users y w acc = Ok res ->
    Forall daysComputed acc -> Forall daysComputed res.
Proof.
  induction fuel as [|fuel IH]; intros y w acc res Hrun Hacc; [discriminate|].
  cbn [getPulsesLoop] in Hrun.
  destruct (nextPulseToIsoWeek y w) as [y' w'].
  destruct (After (StartTime y w) end_).
  - injection Hrun as <-. exact Hacc.
  - destruct (pulsePulls config pulls (StartTime y w) (StartTime y' w'))
      as [pp| |]; [|discriminate..].
    rewrite bind_Ok in Hrun. apply IH in Hrun; [exact Hrun|].
    apply Forall_app. split; [exact Hacc|]. constructor; [|constructor]. reflexivity.
Qed.

Lemma getPulses_days config start end_ pulls users ws :
  getPulses config start end_ pulls users = Ok ws -> Forall daysComputed ws.
Proof.
  unfold getPulses. destruct (Before end_ start); [discriminate|].
  destruct (ISOWeek start) as [y w0].
  destruct (isoWeekToPulseStart w0) as [w| |]; [|discriminate..].
  rewrite bind_Ok. intros H. eapply getPulsesLoop_days; [exact H | constructor].
Qed.

(** X15: every window [getPulses] returns lasts two weeks and has
    [Days = 14], except a window that starts in ISO week 53, which lasts that
    one week and has [Days = 7]: the turn of a 53-week ISO year shortens a
    pulse and no pulse is ever longer than 14 days. *)
Theorem window_days config start end_ pulls users :
  start <= end_ ->
  Forall (fun p => closedWhenTerminal p = true) pulls ->
  exists ws,
    getPulses config start end_ pulls users = Ok ws
    /\ forall a, a ∈ ws ->
         (Pulse.Days a = 14
          /\ Pulse.End a = Pulse.Start a + 14 * nsPerDay
          /\ snd (ISOWeek (Pulse.Start a)) <> 53)
         \/ (Pulse.Days a = 7
             /\ Pulse.End a = Pulse.Start a + 7 * nsPerDay
             /\ snd (ISOWeek (Pulse.Start a)) = 53).
Proof.
  intros Hse Hwf.
  destruct (getPulses_chain config start end_ pulls users Hse Hwf)
    as (y & w & ws & Hrun & Hyw & Hchain & _).
  exists ws. split; [exact Hrun|].
  pose proof (pulseChain_lengths _ _ _ _ Hchain Hyw) as Hlen.
  pose proof (getPulses_days _ _ _ _ _ _ Hrun) as Hdays.
  rewrite Forall_forall in Hlen, Hdays. intros a Ha.
  specialize (Hdays a Ha). unfold daysComputed in Hdays.
  destruct (Hlen a Ha) as [[He Hw]|[He Hw]]; [left | right];
    (split; [|split; [exact He | exact Hw]]);
    rewrite Hdays, He.
  - replace (Sub (Pulse.Start a + 14 * nsPerDay) (Pulse.Start a)) with (14 * nsPerDay);
      [reflexivity|].
    unfold Sub. replace (Pulse.Start a + 14 * nsPerDay - Pulse.Start a)
      with (14 * nsPerDay) by lia. reflexivity.
  - replace (Sub (Pulse.Start a + 7 * nsPerDay) (Pulse.Start a)) with (7 * nsPerDay);
      [reflexivity|].
    unfold Sub. replace (Pulse.Start a + 7 * nsPerDay - Pulse.Start a)
      with (7 * nsPerDay) by lia. reflexivity.
Qed.

Lemma window_days_witness :
  exists ws,
    getPulses Examples.defaults (Date 2020 12 1) (Date 2021 2 1) Examples.pulls
              (getUsers Examples.defaults Examples.now Examples.pulls) = Ok ws
    /\ forall a, a ∈ ws ->
         (Pulse.Days a = 14
          /\ Pulse.End a = Pulse.Start a + 14 * nsPerDay
          /\ snd (ISOWeek (Pulse.Start a)) <> 53)
         \/ (Pulse.Days a = 7
             /\ Pulse.End a = Pulse.Start a + 7 * nsPerDay
             /\ snd (ISOWeek (Pulse.Start a)) = 53).
Proof.
  apply (window_days Examples.defaults (Date 2020 12 1) (Date 2021 2 1) Examples.pulls
           (getUsers Examples.defaults Examples.now Examples.pulls)).
  - vm_compute; discriminate.
  - repeat constructor.
Defined.

(** X16: the windows of a scan cut time without gap or overlap: every
    instant from [start] to [end_] lies in one window, and in one only. *)
Theorem windows_partition config start end_ pulls users :
  start <= end_ ->
  Forall (fun p => closedWhenTerminal p = true) pulls ->
  exists ws,
    getPulses config start end_ pulls users = Ok ws
    /\ forall c, start <= c <= end_ ->
         exists (i : nat) a,
           ws !! i = Some a
           /\ Pulse.Start a <= c < Pulse.End a
           /\ forall (j : nat) b,
                ws !! j = Some b -> Pulse.Start b <= c < Pulse.End b -> j = i.
Proof.
  intros Hse Hwf.
  destruct (getPulses_windows config start end_ pulls users Hse Hwf)
    as (first & rest & l & Hrun & Hl & Hfirst & Hlast & _ & Hord & Hcover).
  exists (first :: rest). split; [exact Hrun|]. intros c Hc.
  destruct (Hcover c ltac:(lia)) as (i & a & Ha & Hca).
  exists i, a. split; [exact Ha|]. split; [exact Hca|].
  intros j b Hb Hcb.
  destruct (Nat.lt_trichotomy i j) as [Hlt|[Heq|Hgt]]; [|now symmetry|].
  - pose proof (Hord i j a b Hlt Ha Hb). lia.
  - pose proof (Hord j i b a Hgt Hb Ha). lia.
Qed.

Lemma windows_partition_witness :
  exists ws,
    getPulses Examples.defaults Examples.scanStart Examples.scanEnd Examples.pulls
              (getUsers Examples.defaults Examples.now Examples.pulls) = Ok ws
    /\ forall c, Examples.scanStart <= c <= Examples.scanEnd ->
         exists (i : nat) a,
           ws !! i = Some a
           /\ Pulse.Start a <= c < Pulse.End a
           /\ forall (j : nat) b,
                ws !! j = Some b -> Pulse.Start b <= c < Pulse.End b -> j = i.
Proof.
  apply (windows_partition Examples.defaults Examples.scanStart Examples.scanEnd
           Examples.pulls (getUsers Examples.defaults Examples.now Examples.pulls)).
  - vm_compute; discriminate.
  - repeat constructor.
Defined.

Lemma getPulsesLoop_bounds config1 config2 end_ pulls1 pulls2 users1 users2 :
  forall fuel y w acc1 acc2 res1 res2,
    getPulsesLoop fuel config1 end_ pulls1 users1 y w acc1 = Ok res1 ->
    getPulsesLoop fuel config2 end_ pulls2 users2 y w acc2 = Ok res2 ->
    map bounds acc1 = map bounds acc2 ->
    map bounds res1 = map bounds res2.
Proof.
  induction fuel as [|fuel IH]; intros y w acc1 acc2 res1 res2 H1 H2 Hacc;
    [discriminate|].
  cbn [getPulsesLoop] in H1, H2.
  destruct (nextPulseToIsoWeek y w) as [y' w'].
  destruct (After (StartTime y w) end_).
  - injection H1 as <-. injection H2 as <-. exact Hacc.
  - destruct (pulsePulls config1 pulls1 (StartTime y w) (StartTime y' w'))
      as [pp1| |]; [|discriminate..].
    destruct (pulsePulls config2 pulls2 (StartTime y w) (StartTime y' w'))
      as [pp2| |]; [|discriminate..].
    rewrite bind_Ok in H1, H2.
    eapply IH; [exact H1 | exact H2 |].
    rewrite !map_app, Hacc. reflexivity.
Qed.

(** X17: the windows depend on the start and the end of the scan only: two
    scans of the same range, for any two configurations, pull lists and
    contributor maps, return windows with the same [Start], [End] and [Days],
    one by one, so that the window of an index is the same calendar interval
    for every repository. *)
Theorem windows_shared config1 config2 start end_ pulls1 pulls2 users1 users2 :
  start <= end_ ->
  Forall (fun p => closedWhenTerminal p = true) pulls1 ->
  Forall (fun p => closedWhenTerminal p = true) pulls2 ->
  exists ws1 ws2,
    getPulses config1 start end_ pulls1 users1 = Ok ws1
    /\ getPulses config2 start end_ pulls2 users2 = Ok ws2
    /\ map bounds ws1 = map bounds ws2.
Proof.
  intros Hse Hwf1 Hwf2.
  destruct (getPulses_chain config1 start end_ pulls1 users1 Hse Hwf1)
    as (_ & _ & ws1 & Hrun1 & _).
  destruct (getPulses_chain config2 start end_ pulls2 users2 Hse Hwf2)
    as (_ & _ & ws2 & Hrun2 & _).
  exists ws1, ws2. split; [exact Hrun1|]. split; [exact Hrun2|].
  unfold getPulses in Hrun1, Hrun2.
  destruct (Before end_ start); [discriminate|].
  destruct (ISOWeek start) as [y w0].
  destruct (isoWeekToPulseStart w0) as [w| |]; [|discriminate..].
  rewrite bind_Ok in Hrun1, Hrun2.
  eapply getPulsesLoop_bounds; [exact Hrun1 | exact Hrun2 | reflexivity].
Qed.

Lemma windows_shared_witness :
  exists ws1 ws2,
    getPulses Examples.defaults Examples.scanStart Examples.scanEnd Examples.pulls
              (getUsers Examples.defaults Examples.now Examples.pulls) = Ok ws1
    /\ getPulses Examples.onlyAlice Examples.scanStart Examples.scanEnd [] ∅ = Ok ws2
    /\ map bounds ws1 = map bounds ws2.
Proof.
  apply (windows_shared Examples.defaults Examples.onlyAlice
           Examples.scanStart Examples.scanEnd Examples.pulls []).
  - vm_compute; discriminate.
  - repeat constructor.
  - constructor.
Defined.

Lemma getPulsesLoop_extends config end_ pulls users :
  forall fuel y w acc res,
    getPulsesLoop fuel config end_ pulls users y w acc = Ok res ->
    exists more, res = acc ++ more.
Proof.
  induction fuel as [|fuel IH]; intros y w acc res Hrun; [discriminate|].
  cbn [getPulsesLoop] in Hrun.
  destruct (nextPulseToIsoWeek y w) as [y' w'].
  destruct (After (StartTime y w) end_).
  - injection Hrun as <-. exists []. now rewrite app_nil_r.
  - destruct (pulsePulls config pulls (StartTime y w) (StartTime y' w'))
      as [pp| |]; [|discriminate..].
    rewrite bind_Ok in Hrun. apply IH in Hrun as [more ->].
    eexists. rewrite <- app_assoc. reflexivity.
Qed.

Lemma getPulsesLoop_later_end config end1 end2 pulls users :
  end1 <= end2 ->
  forall fuel1 fuel2 y w acc res1 res2,
    getPulsesLoop fuel1 config end1 pulls users y w acc = Ok res1 ->
    getPulsesLoop fuel2 config end2 pulls users y w acc = Ok res2 ->
    exists more, res2 = res1 ++ more.
Proof.
  intros Hends. induction fuel1 as [|fuel1 IH]; intros fuel2 y w acc res1 res2 H1 H2;
    [discriminate|].
  destruct fuel2 as [|fuel2]; [discriminate|].
  cbn [getPulsesLoop] in H1.
  destruct (nextPulseToIsoWeek y w) as [y' w'] eqn:Hnext.
  unfold After in H1.
  destruct (Z.gtb_spec (StartTime y w) end1) as [Hgt|Hle].
  - injection H1 as <-. eapply getPulsesLoop_extends, H2.
  - cbn [getPulsesLoop] in H2. rewrite Hnext in H2. unfold After in H2.
    destruct (Z.gtb_spec (StartTime y w) end2) as [Hgt2|_]; [lia|].
    destruct (pulsePulls config pulls (StartTime y w) (StartTime y' w'))
      as [pp| |]; [|discriminate..].
    rewrite bind_Ok in H1, H2. eapply IH; eassumption.
Qed.

(** X18: a later end of the scan only appends windows: the windows of the
    scan to [end1], with all their values, are the first windows of the scan
    to any later [end2] over the same pulls and contributors. *)
Theorem later_end_appends config start end1 end2 pulls users :
  start <= end1 ->
  end1 <= end2 ->
  Forall (fun p => closedWhenTerminal p = true) pulls ->
  exists ws more,
    getPulses config start end1 pulls users = Ok ws
    /\ getPulses config start end2 pulls users = Ok (ws ++ more).
Proof.
  intros Hs1 H12 Hwf.
  destruct (getPulses_chain config start end1 pulls users Hs1 Hwf)
    as (_ & _ & ws1 & Hrun1 & _).
  destruct (getPulses_chain config start end2 pulls users ltac:(lia) Hwf)
    as (_ & _ & ws2 & Hrun2 & _).
  exists ws1.
  assert (Hmore : exists more, ws2 = ws1 ++ more).
  { unfold getPulses in Hrun1, Hrun2. unfold Before in *.
    destruct (Z.ltb_spec end1 start); [discriminate|].
    destruct (Z.ltb_spec end2 start); [discriminate|].
    destruct (ISOWeek start) as [y w0].
    destruct (isoWeekToPulseStart w0) as [w| |]; [|discriminate..].
    rewrite bind_Ok in Hrun1, Hrun2.
    eapply (getPulsesLoop_later_end _ _ _ _ _ H12); eassumption. }
  destruct Hmore as [more ->]. exists more. split; assumption.
Qed.

Lemma later_end_appends_witness :
  exists ws more,
    getPulses Examples.defaults Examples.scanStart Examples.scanEnd Examples.pulls
              (getUsers Examples.defaults Examples.now Examples.pulls) = Ok ws
    /\ getPulses Examples.defaults Examples.scanStart Examples.now Examples.pulls
                 (getUsers Examples.defaults Examples.now Examples.pulls)
       = Ok (ws ++ more).
Proof.
  apply (later_end_appends Examples.defaults Examples.scanStart Examples.scanEnd
           Examples.now Examples.pulls
           (getUsers Examples.defaults Examples.now Examples.pulls)).
  - vm_compute; discriminate.
  - vm_compute; discriminate.
  - repeat constructor.
Defined.

End WindowFacts.

(** * The shared start *)

Section SharedStart.

Lemma earliest_fold starts :
  forall sg0 sg,
    fold_left (fun startGraphs start =>
                 if After startGraphs start then start else startGraphs)
              starts sg0 = sg ->
    sg <= sg0 /\ (forall s, s ∈ starts -> sg <= s) /\ (sg = sg0 \/ sg ∈ starts).
Proof.
  induction starts as [|s rest IH]; intros sg0 sg; cbn [fold_left].
  - intros <-. split; [lia|]. split; [|now left].
    intros s Hs. apply elem_of_nil in Hs. destruct Hs.
  - unfold After at 2. destruct (Z.gtb_spec sg0 s) as [Hgt|Hle]; intros Hfold.
    + destruct (IH s sg Hfold) as (H1 & H2 & H3). split; [lia|]. split.
      * intros x Hx. apply elem_of_cons in Hx as [Hx|Hx]; [subst x; exact H1 | now apply H2].
      * right. apply elem_of_cons. destruct H3 as [H3|H3]; [now left | now right].
    + destruct (IH sg0 sg Hfold) as (H1 & H2 & H3). split; [exact H1|]. split.
      * intros x Hx. apply elem_of_cons in Hx as [Hx|Hx]; [subst x; lia | now apply H2].
      * destruct H3 as [H3|H3]; [now left | right; apply elem_of_cons; now right].
Qed.

(** X19: without a configured start date the start of the graphs is the
    earliest of now and the creation times of the repositories: it is one of
    them and none is earlier.  A configured date replaces it, whatever the
    repositories, and a date that does not parse leaves no start at all. *)
Theorem startGraphs_earliest parse config now starts :
  (GraphsStart config = None ->
   exists sg,
     startGraphs parse config now starts = Some sg
     /\ sg <= now
     /\ (forall s, s ∈ starts -> sg <= s)
     /\ (sg = now \/ sg ∈ starts))
  /\ (forall date,
        GraphsStart config = Some date ->
        startGraphs parse config now starts = parse date).
Proof.
  unfold startGraphs. split.
  - intros ->. eexists. split; [reflexivity|]. now apply earliest_fold.
  - intros date ->. reflexivity.
Qed.

End SharedStart.

(** * The earlier revision *)

Section EarlierRevision.

Lemma lastDays_checked : allFrom lastDayOk 0 (Z.to_nat 400) = true.
Proof. vm_cast_no_check (eq_refl true). Qed.

Lemma lastDayOk_elim y :
  lastDayOk y = true ->
  isoWeekOfDay (dateDay y 12 31) = (y, weeksOfYear y)
  \/ isoWeekOfDay (dateDay y 12 31) = (y + 1, 1).
Proof.
  unfold lastDayOk. generalize (weeksOfYear y).
  destruct (isoWeekOfDay (dateDay y 12 31)) as [y' w']. intros W H.
  apply orb_true_iff in H as [H|H]; apply andb_true_iff in H as [Hy Hw];
    apply Z.eqb_eq in Hy, Hw; subst; auto.
Qed.

Lemma lastDay_spec y :
  isoWeekOfDay (dateDay y 12 31) = (y, weeksOfYear y)
  \/ isoWeekOfDay (dateDay y 12 31) = (y + 1, 1).
Proof.
  assert (Hok : lastDayOk (y mod 400) = true).
  { apply (allFrom_spec _ _ _ lastDays_checked).
    pose proof (Z.mod_pos_bound y 400). lia. }
  apply lastDayOk_elim in Hok.
  assert (Ey : y = y mod 400 + 400 * (y / 400)) by (pose proof (Z.div_mod y 400); lia).
  revert Hok. generalize (y mod 400) (y / 400) Ey. clear Ey. intros y0 k -> Hok.
  rewrite dateDay_shift, isoWeekOfDay_shift, weeksOfYear_shift.
  destruct Hok as [-> | ->]; cbn [fst snd]; [left | right]; f_equal; lia.
Qed.

(** X20: the earlier [isoWeeks] read the ISO week of December 31.  For
    every year that day is either in the last ISO week of the year, and then
    the earlier [isoWeeks] agrees with the current one, or in week 1 of the
    next ISO year, and then it returns 1, so that the earlier
    [nextPulseToIsoWeek] leaves the year from any week of it, week 1
    included. *)
Theorem old_isoWeeks_last_day (year : Z) :
  (ISOWeek (Date year 12 31) = (year, isoWeeks year)
   /\ Old.isoWeeks year = isoWeeks year)
  \/ (ISOWeek (Date year 12 31) = (year + 1, 1)
      /\ Old.isoWeeks year = 1
      /\ forall week, 0 <= week ->
           OldPulses.nextPulseToIsoWeek year week = (year + 1, 1)).
Proof.
  unfold Old.isoWeeks, OldPulses.nextPulseToIsoWeek, Old.isoWeeks, ISOWeek.
  rewrite absDay_Date, isoWeeks_weeksOfYear.
  destruct (lastDay_spec year) as [-> | ->]; cbn [snd]; [left | right].
  - split; reflexivity.
  - split; [reflexivity|]. split; [reflexivity|].
    intros week Hweek. destruct (Z.gtb_spec (week + 2) 1); [reflexivity | lia].
Qed.

Lemma old_fold_merged pulls :
  forall merged0 count0 : Q,
    snd (fold_left (fun '(merged, count) p =>
                      if Merged p then ((merged + float32 (Lines p))%Q, (count + 1)%Q)
                      else (merged, count))
                   pulls (merged0, count0))
    = fold_left (fun (count : Q) p => if Merged p then (count + 1)%Q else count)
                pulls count0.
Proof.
  induction pulls as [|p rest IH]; intros merged0 count0; [reflexivity|].
  cbn [fold_left]. destruct (Merged p); apply IH.
Qed.

(** X22: the raw merged count did not change between the revisions: the
    earlier [getMerged] without normalization returns the count of the later
    [getMerged], for every contributor count and configuration. *)
Theorem old_raw_merged config pulls con :
  Old.getMerged pulls false con = getMerged config pulls.
Proof.
  unfold Old.getMerged, getMerged. rewrite <- (old_fold_merged pulls 0%Q 0%Q).
  destruct (fold_left _ pulls (0%Q, 0%Q)) as [merged count]. reflexivity.
Qed.

End EarlierRevision.

(** * Where the two normalizations agree *)

Section OneTier.

Lemma categorySum_lower category weight (lo : Q) l :
  (forall q, q ∈ l -> category q = true -> lo <= weight q)%Q ->
  (lo * categorySum category (fun _ => 1%Q) l <= categorySum category weight l)%Q.
Proof.
  unfold categorySum. induction l as [|q l IH]; intros Hw; cbn [List.filter].
  - cbn. rewrite Qmult_0_r. apply Qle_refl.
  - assert (IH' := IH (fun x Hx => Hw x (proj2 (elem_of_cons _ _ _) (or_intror Hx)))).
    destruct (category q) eqn:Hq; cbn [map fold_right]; [|exact IH'].
    pose proof (Hw q (proj2 (elem_of_cons _ _ _) (or_introl eq_refl)) Hq) as Hq1.
    revert IH'.
    generalize (fold_right Qplus 0%Q (map (fun _ => 1%Q) (List.filter category l))).
    generalize (fold_right Qplus 0%Q (map weight (List.filter category l))).
    intros sum count IH'.
    assert (E : (lo * (1 + count) == lo + lo * count)%Q) by ring.
    rewrite E. now apply Qplus_le_compat.
Qed.

Lemma categorySum_upper category weight (hi : Q) l :
  (forall q, q ∈ l -> category q = true -> weight q <= hi)%Q ->
  (categorySum category weight l <= hi * categorySum category (fun _ => 1%Q) l)%Q.
Proof.
  unfold categorySum. induction l as [|q l IH]; intros Hw; cbn [List.filter].
  - cbn. rewrite Qmult_0_r. apply Qle_refl.
  - assert (IH' := IH (fun x Hx => Hw x (proj2 (elem_of_cons _ _ _) (or_intror Hx)))).
    destruct (category q) eqn:Hq; cbn [map fold_right]; [|exact IH'].
    pose proof (Hw q (proj2 (elem_of_cons _ _ _) (or_introl eq_refl)) Hq) as Hq1.
    revert IH'.
    generalize (fold_right Qplus 0%Q (map (fun _ => 1%Q) (List.filter category l))).
    generalize (fold_right Qplus 0%Q (map weight (List.filter category l))).
    intros sum count IH'.
    assert (E : (hi * (1 + count) == hi + hi * count)%Q) by ring.
    rewrite E. now apply Qplus_le_compat.
Qed.

Lemma old_fold_sums pulls :
  forall merged0 count0 : Q,
    (fst (fold_left (fun '(merged, count) p =>
                       if Merged p then ((merged + float32 (Lines p))%Q, (count + 1)%Q)
                       else (merged, count))
                    pulls (merged0, count0))
     == merged0 + categorySum Merged (fun p => float32 (Lines p)) pulls)%Q
    /\ (snd (fold_left (fun '(merged, count) p =>
                          if Merged p then ((merged + float32 (Lines p))%Q, (count + 1)%Q)
                          else (merged, count))
                       pulls (merged0, count0))
        == count0 + categorySum Merged (fun _ => 1%Q) pulls)%Q.
Proof.
  unfold categorySum. induction pulls as [|p rest IH]; intros merged0 count0.
  - cbn. split; ring.
  - cbn [fold_left List.filter]. destruct (Merged p).
    + destruct (IH (merged0 + float32 (Lines p))%Q (count0 + 1)%Q) as [-> ->].
      cbn [map fold_right]. split; ring.
    + apply IH.
Qed.

Lemma fgt_true a b : fgt a b = true <-> (b < a)%Q.
Proof.
  unfold fgt. rewrite negb_true_iff. split.
  - intros H. apply Qnot_le_lt. intros Hle. apply Qle_bool_iff in Hle. congruence.
  - intros H. destruct (Qle_bool a b) eqn:E; [|reflexivity].
    apply Qle_bool_iff in E. exfalso. apply (Qlt_not_le _ _ H E).
Qed.

Lemma fgt_false a b : fgt a b = false <-> (a <= b)%Q.
Proof.
  unfold fgt. rewrite negb_false_iff. apply Qle_bool_iff.
Qed.

Lemma Old_prSizeWeight_cases (x : Q) :
  ((x <= 50)%Q /\ Old.prSizeWeight x = 1%Q)
  \/ ((50 < x)%Q /\ (x <= 500)%Q /\ Old.prSizeWeight x = 2%Q)
  \/ ((500 < x)%Q /\ Old.prSizeWeight x = 3%Q).
Proof.
  unfold Old.prSizeWeight.
  destruct (fgt x (float32 Old.pr_high)) eqn:Hh.
  - right. right. split; [|reflexivity]. now apply fgt_true in Hh.
  - apply fgt_false in Hh. destruct (fgt x (float32 Old.pr_low)) eqn:Hl.
    + right. left. apply fgt_true in Hl. repeat split; assumption.
    + left. apply fgt_false in Hl. split; [assumption | reflexivity].
Qed.

Lemma float32_le a b : (float32 a <= float32 b)%Q <-> a <= b.
Proof. unfold float32, Qle. cbn. rewrite !Z.mul_1_r. reflexivity. Qed.

Lemma float32_lt a b : (float32 a < float32 b)%Q <-> a < b.
Proof. unfold float32, Qlt. cbn. rewrite !Z.mul_1_r. reflexivity. Qed.

(** The average of sizes of one tier, as the float32 division returns it,
    is in that tier: rounding does not cross the thresholds, which are
    float32 numbers. *)
Lemma average_weight (pulls : list Pull) (w : Q) (sum count : Q) :
  (0 < count)%Q ->
  (sum == categorySum Merged (fun p => float32 (Lines p)) pulls)%Q ->
  (count == categorySum Merged (fun _ => 1%Q) pulls)%Q ->
  (forall q, q ∈ pulls -> Merged q = true -> Old.prSizeWeight (float32 (Lines q)) = w) ->
  (exists q, q ∈ pulls /\ Merged q = true) ->
  Old.prSizeWeight (fdiv sum count) = w.
Proof.
  intros Hpos Hsum Hcount Hall (q0 & Hq0 & Hm0).
  pose proof (Hall q0 Hq0 Hm0) as Hw0.
  destruct (Old_prSizeWeight_cases (float32 (Lines q0))) as [(_ & E0)|[(_ & _ & E0)|(_ & E0)]];
    rewrite E0 in Hw0; subst w.
  - assert (Hhi : (sum <= 50 * count)%Q).
    { rewrite Hsum, Hcount. apply categorySum_upper. intros q Hq Hm.
      destruct (Old_prSizeWeight_cases (float32 (Lines q))) as [(H & _)|[(_ & _ & E)|(_ & E)]];
        [exact H | rewrite (Hall q Hq Hm) in E; discriminate..]. }
    assert (Havg : (fdiv sum count <= 50)%Q)
      by (apply (round32_le 50); [lia | now apply Qle_shift_div_r]).
    destruct (Old_prSizeWeight_cases (fdiv sum count)) as [(_ & E)|[(H & _)|(H & _)]];
      [exact E | exfalso..].
    + apply (Qlt_not_le _ _ H Havg).
    + apply (Qlt_not_le _ _ H). eapply Qle_trans; [exact Havg | discriminate].
  - assert (Hhi : (sum <= 500 * count)%Q).
    { rewrite Hsum, Hcount. apply categorySum_upper. intros q Hq Hm.
      destruct (Old_prSizeWeight_cases (float32 (Lines q))) as [(_ & E)|[(_ & H & _)|(_ & E)]];
        [rewrite (Hall q Hq Hm) in E; discriminate | exact H
         | rewrite (Hall q Hq Hm) in E; discriminate]. }
    assert (Hlo : (51 * count <= sum)%Q).
    { rewrite Hsum, Hcount. apply categorySum_lower. intros q Hq Hm.
      destruct (Old_prSizeWeight_cases (float32 (Lines q))) as [(_ & E)|[(H & _)|(_ & E)]];
        [rewrite (Hall q Hq Hm) in E; discriminate |
         | rewrite (Hall q Hq Hm) in E; discriminate].
      revert H. unfold float32, Qle, Qlt. cbn. lia. }
    assert (Havg1 : (fdiv sum count <= 500)%Q)
      by (apply (round32_le 500); [lia | now apply Qle_shift_div_r]).
    assert (Havg2 : (51 <= fdiv sum count)%Q)
      by (apply (round32_ge 51); [lia | now apply Qle_shift_div_l]).
    destruct (Old_prSizeWeight_cases (fdiv sum count)) as [(H & _)|[(_ & _ & E)|(H & _)]];
      [exfalso | exact E | exfalso].
    + assert (Hbad : (51 <= 50)%Q) by (eapply Qle_trans; eassumption).
      apply Hbad. reflexivity.
    + apply (Qlt_not_le _ _ H Havg1).
  - assert (Hlo : (501 * count <= sum)%Q).
    { rewrite Hsum, Hcount. apply categorySum_lower. intros q Hq Hm.
      destruct (Old_prSizeWeight_cases (float32 (Lines q))) as [(_ & E)|[(_ & _ & E)|(H & _)]];
        [rewrite (Hall q Hq Hm) in E; discriminate..|].
      revert H. unfold float32, Qle, Qlt. cbn. lia. }
    assert (Havg : (501 <= fdiv sum count)%Q)
      by (apply (round32_ge 501); [lia | now apply Qle_shift_div_l]).
    destruct (Old_prSizeWeight_cases (fdiv sum count)) as [(H & _)|[(_ & H & _)|(_ & E)]];
      [exfalso | exfalso | exact E].
    + assert (Hbad : (501 <= 50)%Q) by (eapply Qle_trans; eassumption).
      apply Hbad. reflexivity.
    + assert (Hbad : (501 <= 500)%Q) by (eapply Qle_trans; eassumption).
      apply Hbad. reflexivity.
Qed.

(** X21: with the thresholds of the earlier revision, the two
    normalizations of the merged pulls agree whenever all merged pulls of the
    set have one size weight: the weight of their average size is then that
    weight.  They can differ only when the sizes of the merged pulls are
    spread over several tiers. *)
Theorem normalizations_agree_in_one_tier config pulls con (w : Q) :
  High config = Old.pr_high ->
  Low config = Old.pr_low ->
  con <> 0 ->
  (forall q, q ∈ pulls -> Merged q = true ->
             prSizeWeight config (float32 (Lines q)) = w) ->
  (Old.getMerged pulls true con == getMergedNorm config pulls con)%Q.
Proof.
  intros Hhigh Hlow Hcon Hall.
  assert (Hsame : forall x, prSizeWeight config x = Old.prSizeWeight x).
  { intros x. unfold prSizeWeight, Old.prSizeWeight. now rewrite Hhigh, Hlow. }
  assert (Hcon' : ~ (float32 con == 0)%Q).
  { unfold float32, Qeq. cbn. lia. }
  rewrite getMergedNorm_categorySum.
  assert (Hw : (categorySum Merged (weightOf config) pulls
                == w * categorySum Merged (fun _ => 1%Q) pulls)%Q).
  { apply Qle_antisym.
    - apply categorySum_upper. intros q Hq Hm. unfold weightOf.
      rewrite (Hall q Hq Hm). apply Qle_refl.
    - apply categorySum_lower. intros q Hq Hm. unfold weightOf.
      rewrite (Hall q Hq Hm). apply Qle_refl. }
  rewrite Hw. unfold Old.getMerged, normalized.
  destruct (old_fold_sums pulls 0%Q 0%Q) as [Hsum Hcount]. revert Hsum Hcount.
  destruct (fold_left _ pulls (0%Q, 0%Q)) as [sum count]. cbn [fst snd negb].
  rewrite !Qplus_0_l. intros Hsum Hcount.
  destruct (Z.eqb_spec con 0) as [|_]; [contradiction|].
  apply fdiv_proper; [|reflexivity].
  destruct (List.filter Merged pulls) as [|q0 rest] eqn:Hfilter.
  - assert (Hzero : (categorySum Merged (fun _ => 1%Q) pulls == 0)%Q)
      by (unfold categorySum; now rewrite Hfilter).
    rewrite <- Hcount in Hzero |- *.
    generalize (Old.prSizeWeight (fdiv sum count)). intros weight.
    rewrite Hzero. ring.
  - assert (Hq0 : q0 ∈ pulls /\ Merged q0 = true).
    { assert (Hin : In q0 (List.filter Merged pulls)) by (rewrite Hfilter; now left).
      apply filter_In in Hin as [Hin Hm]. split; [now apply list_elem_of_In | exact Hm]. }
    assert (Hpos : (0 < count)%Q).
    { rewrite Hcount, categorySum_count, Hfilter. cbn [length].
      unfold Qlt. cbn. lia. }
    rewrite (average_weight pulls w sum count Hpos Hsum Hcount).
    + rewrite <- Hcount. ring.
    + intros q Hq Hm. rewrite <- Hsame. now apply Hall.
    + exists q0. exact Hq0.
Qed.

Lemma normalizations_agree_in_one_tier_witness :
  (Old.getMerged
     [ {| Merged := true; Closed := false; Open := false; Lines := 60 |};
       {| Merged := true; Closed := false; Open := false; Lines := 400 |};
       {| Merged := false; Closed := false; Open := true; Lines := 9000 |} ] true 2
   == getMergedNorm Examples.defaults
        [ {| Merged := true; Closed := false; Open := false; Lines := 60 |};
          {| Merged := true; Closed := false; Open := false; Lines := 400 |};
          {| Merged := false; Closed := false; Open := true; Lines := 9000 |} ] 2)%Q.
Proof.
  apply (normalizations_agree_in_one_tier Examples.defaults _ 2 2%Q).
  - reflexivity.
  - reflexivity.
  - discriminate.
  - intros q Hq Hm.
    repeat (apply elem_of_cons in Hq as [->|Hq]; [try reflexivity; discriminate|]).
    apply elem_of_nil in Hq. destruct Hq.
Defined.

End OneTier.

(** * The cursor of the windows *)

Section Cursor.

(** X23: [isoWeekToPulseStart] returns the odd week at or just below a week
    number from 1 on, and panics on every week number below 1, week 0
    included. *)
Theorem isoWeekToPulseStart_spec week :
  (1 <= week ->
   exists w,
     isoWeekToPulseStart week = Ok w
     /\ Z.odd w = true
     /\ (w = week \/ w = week - 1))
  /\ (week <= 0 ->
      isoWeekToPulseStart week = Panic "iso week start must be 1 or higher").
Proof.
  split.
  - intros Hw. destruct (isoWeekToPulseStart_ok week Hw) as (w & Hrun & Hodd & Hle & Hlt).
    exists w. split; [exact Hrun|]. split; [exact Hodd|].
    destruct (Z.eq_dec w week) as [->|Hne]; [now left|]. right.
    assert (Hcase : w = week - 1 \/ w = week) by lia. destruct Hcase; [assumption | contradiction].
  - intros Hw. unfold isoWeekToPulseStart.
    destruct (Z.land week 1 =? 0).
    + destruct (Z.leb_spec (week - 1) 0); [reflexivity | lia].
    + destruct (Z.leb_spec week 0); [reflexivity | lia].
Qed.

Lemma pulseStep_within y (k : nat) :
  1 + 2 * Z.of_nat k <= isoWeeks y ->
  Nat.iter k pulseStep (y, 1) = (y, 1 + 2 * Z.of_nat k).
Proof.
  induction k as [|k IH]; intros Hk; [reflexivity|].
  rewrite Nat.iter_succ, IH by lia.
  unfold pulseStep, nextPulseToIsoWeek. cbn [fst snd].
  destruct (Z.gtb_spec (1 + 2 * Z.of_nat k + 2) (isoWeeks y)) as [Hgt|_]; [lia|].
  f_equal. lia.
Qed.

(** X24: the cursor walks an ISO year from week 1 over its odd weeks and
    returns to week 1 of the next year: after 26 pulses in a year of 52
    weeks, and after 27 in a year of 53 weeks, whose 27th pulse starts in
    week 53. *)
Theorem pulses_per_year y :
  (isoWeeks y = 52 -> Nat.iter 26 pulseStep (y, 1) = (y + 1, 1))
  /\ (isoWeeks y = 53 ->
      Nat.iter 26 pulseStep (y, 1) = (y, 53)
      /\ Nat.iter 27 pulseStep (y, 1) = (y + 1, 1))
  /\ (isoWeeks y = 52 \/ isoWeeks y = 53).
Proof.
  split; [|split; [|apply isoWeeks_range]].
  - intros H52. change 26%nat with (S 25). rewrite Nat.iter_succ.
    rewrite (pulseStep_within y 25) by lia.
    unfold pulseStep, nextPulseToIsoWeek. cbn [fst snd]. rewrite H52. reflexivity.
  - intros H53.
    assert (E26 : Nat.iter 26 pulseStep (y, 1) = (y, 53))
      by (rewrite (pulseStep_within y 26) by lia; reflexivity).
    split; [exact E26|].
    change 27%nat with (S 26). rewrite Nat.iter_succ, E26.
    unfold pulseStep, nextPulseToIsoWeek. cbn [fst snd]. rewrite H53. reflexivity.
Qed.

End Cursor.
